(** * Image scraper pipeline: a shallow embedding of image_scraper_pipeline.py

    The development follows the Python class [ImageScraperPipeline]:
    the URL filter, the relevance scorer, the three extraction strategies,
    the fallback chain with its de-duplication and selection, the size
    validator and the JPEG normaliser.

    Conventions.
    - Python [str] is [string]; the model covers ASCII text, on which
      [str.lower] maps [A-Z] to [a-z] and leaves every other byte alone.
    - Python [int] is [Z].
    - A Python call that may raise is a function into [option]; [None] is
      the raised exception, caught where the source catches it.
    - Library calls (urllib, pathlib, json, int, Pillow) are the fields of
      the class [PyLib]; network answers are the fields of the record
      [World].  The code of the repository is written out.
    - Log lines and saved files are the events of the trace a computation
      leaves. *)

From Stdlib Require Import String Ascii List ZArith Lia Bool Permutation Sorted.
Import ListNotations.
Local Open Scope string_scope.
Local Open Scope Z_scope.

Set Implicit Arguments.
#[local] Set Warnings "-register-all".

(** ** Python strings *)

Module Str.

(** [c.lower()] on one ASCII character. *)
Definition lower_ascii (c : ascii) : ascii :=
  let n := nat_of_ascii c in
  if (Nat.leb 65 n && Nat.leb n 90)%bool then ascii_of_nat (n + 32) else c.

(** [s.lower()] *)
Fixpoint lower (s : string) : string :=
  match s with
  | EmptyString => EmptyString
  | String c r => String (lower_ascii c) (lower r)
  end.

(** [s.startswith(p)] *)
Fixpoint startswith (p s : string) : bool :=
  match p, s with
  | EmptyString, _ => true
  | String a p', String b s' => Ascii.eqb a b && startswith p' s'
  | String _ _, EmptyString => false
  end.

(** [needle in hay] *)
Fixpoint isin (needle hay : string) : bool :=
  startswith needle hay ||
  match hay with
  | EmptyString => false
  | String _ r => isin needle r
  end.

(** [reversed(s)] as a string, used by [endswith] only. *)
Fixpoint rev_onto (s acc : string) : string :=
  match s with
  | EmptyString => acc
  | String c r => rev_onto r (String c acc)
  end.

Definition rev (s : string) : string := rev_onto s EmptyString.

(** [s.endswith(p)] *)
Definition endswith (p s : string) : bool := startswith (rev p) (rev s).

(** [any(t in s for t in terms)] *)
Definition any_in (terms : list string) (s : string) : bool :=
  existsb (fun t => isin t s) terms.

(** [sep.join(parts)] *)
Fixpoint join (sep : string) (parts : list string) : string :=
  match parts with
  | [] => EmptyString
  | [p] => p
  | p :: rest => p ++ sep ++ join sep rest
  end.

(** [x in xs] for a list of strings. *)
Definition mem (x : string) (xs : list string) : bool :=
  existsb (String.eqb x) xs.

(** Truth value of a Python string: the empty string is false. *)
Definition truthy (s : string) : bool :=
  match s with EmptyString => false | _ => true end.

(** [len(s)] *)
Definition len (s : string) : Z := Z.of_nat (String.length s).

(** [s.split(c)[0]]: the part before the first [c], all of [s] without one. *)
Fixpoint before (c : ascii) (s : string) : string :=
  match s with
  | EmptyString => EmptyString
  | String a r => if Ascii.eqb a c then EmptyString else String a (before c r)
  end.

(** The ASCII characters [str.strip()] removes. *)
Definition is_space (c : ascii) : bool :=
  let n := nat_of_ascii c in
  ((Nat.leb 9 n && Nat.leb n 13) || (Nat.leb 28 n && Nat.leb n 32))%bool.

(** [s.lstrip()] *)
Fixpoint lstrip (s : string) : string :=
  match s with
  | EmptyString => EmptyString
  | String a r => if is_space a then lstrip r else s
  end.

(** [s.strip()] *)
Definition strip (s : string) : string := rev (lstrip (rev (lstrip s))).

End Str.

(** ** The fragment of Python's [re] that [exclude_patterns] uses

    Literals, [.], [\d], escaped punctuation, bracket sets of plain
    characters, the postfix operators [*] and [+], and top-level [|].
    Matching is by derivatives; [search] succeeds when a match starts at
    some position.  With [IGNORECASE] both sides are compared in lower
    case. *)

Module Re.

Inductive regex : Type :=
| Empty                      (* matches nothing *)
| Eps                        (* the empty word *)
| Chr (c : ascii)
| AnyChar                    (* [.]: anything but a newline *)
| Digit                      (* [\d] *)
| OneOf (cs : list ascii)    (* [[abc]] *)
| Cat (r1 r2 : regex)
| Alt (r1 r2 : regex)
| Star (r : regex).

Definition newline : ascii := ascii_of_nat 10.

Definition is_digit (c : ascii) : bool :=
  let n := nat_of_ascii c in (Nat.leb 48 n && Nat.leb n 57)%bool.

Fixpoint nullable (r : regex) : bool :=
  match r with
  | Empty | Chr _ | AnyChar | Digit | OneOf _ => false
  | Eps | Star _ => true
  | Cat a b => nullable a && nullable b
  | Alt a b => nullable a || nullable b
  end.

Definition cat (a b : regex) : regex :=
  match a, b with
  | Empty, _ => Empty
  | _, Empty => Empty
  | Eps, _ => b
  | _, _ => Cat a b
  end.

Definition alt (a b : regex) : regex :=
  match a, b with
  | Empty, _ => b
  | _, Empty => a
  | _, _ => Alt a b
  end.

Definition same_char (ignorecase : bool) (a b : ascii) : bool :=
  if ignorecase then Ascii.eqb (Str.lower_ascii a) (Str.lower_ascii b)
  else Ascii.eqb a b.

(** The derivative of [r] by the character [c]. *)
Fixpoint deriv (ic : bool) (c : ascii) (r : regex) : regex :=
  match r with
  | Empty | Eps => Empty
  | Chr d => if same_char ic d c then Eps else Empty
  | AnyChar => if Ascii.eqb c newline then Empty else Eps
  | Digit => if is_digit c then Eps else Empty
  | OneOf cs => if existsb (fun d => same_char ic d c) cs then Eps else Empty
  | Cat a b =>
      alt (cat (deriv ic c a) b) (if nullable a then deriv ic c b else Empty)
  | Alt a b => alt (deriv ic c a) (deriv ic c b)
  | Star a => cat (deriv ic c a) (Star a)
  end.

(** Does some prefix of [s] match [r]? *)
Fixpoint match_prefix (ic : bool) (r : regex) (s : string) : bool :=
  nullable r ||
  match s with
  | EmptyString => false
  | String c s' =>
      match deriv ic c r with
      | Empty => false
      | r' => match_prefix ic r' s'
      end
  end.

(** [pattern.search(s) is not None] *)
Fixpoint search (ic : bool) (r : regex) (s : string) : bool :=
  match_prefix ic r s ||
  match s with
  | EmptyString => false
  | String _ s' => search ic r s'
  end.

(** *** Reading a pattern

    The reader keeps the alternatives already closed ([alts]), the
    sequence under construction without its last atom ([seq]), the last
    atom ([last], which a following [*] or [+] modifies) and, inside
    brackets, the characters collected so far ([inset]). *)

Record pstate : Type := mk_pstate {
  alts : regex;
  seq : regex;
  last : option regex;
  inset : option (list ascii)
}.

Definition close_seq (st : pstate) : regex :=
  match last st with
  | None => seq st
  | Some a => cat (seq st) a
  end.

Definition push_atom (st : pstate) (a : regex) : pstate :=
  mk_pstate (alts st) (close_seq st) (Some a) None.

Definition backslash : ascii := ascii_of_nat 92.

Fixpoint parse (s : string) (st : pstate) : regex :=
  match s with
  | EmptyString => alt (alts st) (close_seq st)
  | String c r =>
      match inset st with
      | Some acc =>
          if Ascii.eqb c "]"
          then parse r (push_atom (mk_pstate (alts st) (seq st) (last st) None)
                                  (OneOf (List.rev acc)))
          else parse r (mk_pstate (alts st) (seq st) (last st) (Some (c :: acc)))
      | None =>
          if Ascii.eqb c backslash then
            match r with
            | EmptyString => alt (alts st) (close_seq st)
            | String d r' =>
                parse r' (push_atom st (if Ascii.eqb d "d" then Digit else Chr d))
            end
          else if Ascii.eqb c "|" then
            parse r (mk_pstate (alt (alts st) (close_seq st)) Eps None None)
          else if Ascii.eqb c "*" then
            parse r (mk_pstate (alts st) (seq st)
                               (option_map Star (last st)) None)
          else if Ascii.eqb c "+" then
            parse r (mk_pstate (alts st) (seq st)
                               (option_map (fun a => Cat a (Star a)) (last st)) None)
          else if Ascii.eqb c "." then parse r (push_atom st AnyChar)
          else if Ascii.eqb c "[" then
            parse r (mk_pstate (alts st) (seq st) (last st) (Some []))
          else parse r (push_atom st (Chr c))
      end
  end.

(** [re.compile(pattern)] *)
Definition compile (pattern : string) : regex :=
  parse pattern (mk_pstate Empty Eps None None).

End Re.

(** ** Data *)

(** [urllib.parse.ParseResult] *)
Record ParseResult : Type := mk_ParseResult {
  scheme : string;
  netloc : string;
  path : string;
  params : string;
  query : string;
  fragment : string
}.

(** A value returned by [json.loads]; of a number only the truth value is
    ever read, so numbers are kept as integers. *)
Inductive Json : Type :=
| JNull
| JBool (b : bool)
| JNum (n : Z)
| JStr (s : string)
| JList (items : list Json)
| JDict (fields : list (string * Json)).

(** A node of a parsed document: a text string or a tag with its
    attributes, its [class] list and its children in document order. *)
Inductive Node : Type :=
| NText (s : string)
| NTag (name : string) (attrs : list (string * string))
       (classes : list string) (children : list Node).

(** A tag seen on its own. *)
Record Element : Type := mk_Element {
  el_name : string;
  el_attrs : list (string * string);
  el_class : list string;
  el_children : list Node
}.

(** A tag together with its chain of parents, nearest first
    ([tag.parent], [tag.parent.parent], ...). *)
Record Tag : Type := mk_Tag {
  tag_el : Element;
  tag_parents : list Element
}.

(** One entry of the [images] lists: [{'url':, 'score':, 'source':}]. *)
Record Candidate : Type := mk_Candidate {
  cand_url : string;       (* ['url'] *)
  cand_score : Z;          (* ['score'] *)
  cand_source : string     (* ['source'] *)
}.

(** A decoded picture, as the normaliser uses it: the Pillow mode, the
    size (width, height) and the pixels in row-major order, one list of
    band values each ([[r; g; b; a]] in mode [RGBA], [[l; a]] in [LA]). *)
Record Image : Type := mk_Image {
  mode : string;
  size : Z * Z;
  pixels : list (list Z)
}.

(** ** Library calls

    [None] stands for the exception the call raises. *)
Class PyLib : Type := {
  (** [urllib.parse.urlparse]; raises [ValueError] on a malformed netloc. *)
  urlparse : string -> option ParseResult;
  (** [urllib.parse.urljoin base ref] *)
  urljoin : string -> string -> option string;
  (** [pathlib.Path(p).suffix] *)
  path_suffix : string -> string;
  (** [json.loads]; [None] is [JSONDecodeError]. *)
  json_loads : string -> option Json;
  (** [int(s)]; [None] is [ValueError]. *)
  py_int : string -> option Z;
  (** [Image.open(io.BytesIO(data)).size] on the first bytes of a file. *)
  pil_open_size : list Byte.byte -> option (Z * Z);
  (** [Image.open(io.BytesIO(data))], decoded. *)
  pil_open : list Byte.byte -> option Image;
  (** [img.convert(mode)] *)
  pil_convert : string -> Image -> option Image;
  (** What [paste] writes where the mask is strictly between 0 and 255:
      mask value, current pixel, pasted pixel. *)
  pil_mix : Z -> list Z -> list Z -> list Z;
  (** The JPEG encoder behind [img.save(path, 'JPEG', quality, optimize)]. *)
  jpeg_encode : Image -> Z -> bool -> option (list Byte.byte);
  (** [path.with_suffix(suffix)] *)
  with_suffix : string -> string -> option string;
  (** [path.name] *)
  path_name : string -> string
}.

(** ** Tag navigation (BeautifulSoup) *)

Module Dom.

(** [tag.get(name)] *)
Fixpoint get (name : string) (attrs : list (string * string)) : option string :=
  match attrs with
  | [] => None
  | (k, v) :: rest => if String.eqb k name then Some v else get name rest
  end.

(** [tag.get(name, '')] *)
Definition get_or_empty (name : string) (e : Element) : string :=
  match get name (el_attrs e) with
  | Some v => v
  | None => EmptyString
  end.

(** [' '.join(tag.get('class', [])).lower()] *)
Definition class_string (e : Element) : string :=
  Str.lower (Str.join " " (el_class e)).

(** [a or b] on attribute look-ups: the first one that is present and not
    empty. *)
Definition or_else (a b : option string) : option string :=
  match a with
  | Some v => if Str.truthy v then a else b
  | None => b
  end.

(** [tag.get_text()]: the strings below a node, in document order. *)
Fixpoint get_text (n : Node) : string :=
  match n with
  | NText s => s
  | NTag _ _ _ ch =>
      (fix texts (l : list Node) : string :=
         match l with
         | [] => EmptyString
         | x :: r => get_text x ++ texts r
         end) ch
  end.

(** The first tag, in document order, at or below [n] whose name is in
    [names]. *)
Fixpoint find_from (names : list string) (n : Node) : option Element :=
  match n with
  | NText _ => None
  | NTag nm at_ cl ch =>
      if Str.mem nm names then Some (mk_Element nm at_ cl ch)
      else
        (fix first (l : list Node) : option Element :=
           match l with
           | [] => None
           | x :: r =>
               match find_from names x with
               | Some e => Some e
               | None => first r
               end
           end) ch
  end.

(** [tag.find(names)]: the first descendant with one of the names. *)
Fixpoint find (names : list string) (children : list Node) : option Element :=
  match children with
  | [] => None
  | x :: r =>
      match find_from names x with
      | Some e => Some e
      | None => find names r
      end
  end.

(** [tag.find_parent(names)] *)
Fixpoint find_parent (names : list string) (parents : list Element)
  : option Element :=
  match parents with
  | [] => None
  | p :: r => if Str.mem (el_name p) names then Some p else find_parent names r
  end.

Definition text_of (e : Element) : string :=
  get_text (NTag (el_name e) (el_attrs e) (el_class e) (el_children e)).

End Dom.

(** ** Filter: [_should_exclude_image_url] and [_should_exclude_image] *)

(** [self.min_image_size] *)
Definition min_image_size : Z * Z := (100, 100).

(** [self.max_file_size_mb] *)
Definition max_file_size_mb : Z := 10.

(** [self.exclude_patterns] *)
Definition exclude_patterns : list string :=
  [ "logo"; "icon"; "favicon"; "avatar"; "profile";
    "advertisement"; "ad[_-]"; "banner"; "widget";
    "social"; "share"; "button"; "arrow"; "play";
    "thumbnail.*small"; "thumb.*\d+x\d+"; "\d+x\d+.*thumb";
    "facebook\.com/tr"; "google-analytics"; "googletagmanager";
    "doubleclick"; "googlesyndication"; "adsystem";
    "pixel\?"; "track\?"; "beacon\?"; "analytics";
    "1x1\.gif"; "transparent\.gif"; "spacer\.gif" ].

(** [self.exclude_regex = re.compile('|'.join(self.exclude_patterns),
    re.IGNORECASE)] *)
Definition exclude_regex : Re.regex :=
  Re.compile (Str.join "|" exclude_patterns).

(** [self.exclude_regex.search(s)] as a truth value. *)
Definition exclude_regex_search (s : string) : bool :=
  Re.search true exclude_regex s.

Definition tracking_domains : list string :=
  [ "facebook.com"; "google-analytics.com"; "googletagmanager.com";
    "doubleclick.net"; "googlesyndication.com"; "googleadservices.com";
    "outbrain.com"; "taboola.com"; "amazon-adsystem.com" ].

Definition tracking_patterns : list string :=
  [ "facebook.com/tr"; "google-analytics.com"; "/pixel?"; "/track?";
    "/beacon?"; "/analytics?"; "googletagmanager.com" ].

Definition tracking_params : list string :=
  [ "fbclid"; "gclid"; "utm_"; "pixel" ].

Definition valid_extensions : list string :=
  [ ".jpg"; ".jpeg"; ".png"; ".webp"; ".gif"; ".bmp"; ".svg" ].

Definition image_cdns : list string :=
  [ "static.toiimg.com"; "images."; "img."; "cdn."; "assets." ].

Section Scoring.

Context {lib : PyLib}.

(** [_should_exclude_image_url]: [None] when [urlparse] raises. *)
Definition _should_exclude_image_url (img_url : string) : option bool :=
  if exclude_regex_search img_url then Some true
  else
    match urlparse img_url with
    | None => None
    | Some parsed_url =>
        if Str.any_in tracking_domains (Str.lower (netloc parsed_url))
        then Some true
        else if Str.any_in tracking_patterns (Str.lower img_url)
        then Some true
        else if Str.any_in tracking_params (Str.lower (query parsed_url))
        then Some true
        else if Str.isin "width=1" img_url || Str.isin "height=1" img_url
                || Str.isin "1x1" img_url
        then Some true
        else
          let path_ext := Str.lower (path_suffix (path parsed_url)) in
          let is_image_cdn :=
            Str.any_in image_cdns (Str.lower (netloc parsed_url)) in
          if negb (Str.truthy path_ext) && negb is_image_cdn then Some true
          else if Str.truthy path_ext && negb (Str.mem path_ext valid_extensions)
          then Some true
          else Some false
    end.

(** The declared [width]/[height] test of [_should_exclude_image]; a value
    that [int] rejects is passed over ([except ValueError: pass]). *)
Definition declared_too_small (e : Element) : bool :=
  match Dom.get "width" (el_attrs e), Dom.get "height" (el_attrs e) with
  | Some width, Some height =>
      if Str.truthy width && Str.truthy height then
        match py_int width with
        | None => false
        | Some w =>
            match py_int height with
            | None => false
            | Some h => (w <? fst min_image_size) || (h <? snd min_image_size)
            end
        end
      else false
  | _, _ => false
  end.

(** [_should_exclude_image] *)
Definition _should_exclude_image (img_tag : Tag) (img_url : string)
  : option bool :=
  match _should_exclude_image_url img_url with
  | None => None
  | Some true => Some true
  | Some false =>
      let alt_text := Str.lower (Dom.get_or_empty "alt" (tag_el img_tag)) in
      if exclude_regex_search alt_text then Some true
      else
        let class_names := Dom.class_string (tag_el img_tag) in
        if exclude_regex_search class_names then Some true
        else Some (declared_too_small (tag_el img_tag))
  end.

(** ** Scorer: [analyze_image_context] and [score_image_relevance] *)

Definition content_indicators : list string :=
  [ "article"; "content"; "story"; "body"; "post"; "main"; "entry" ].

Definition chrome_indicators : list string :=
  [ "header"; "nav"; "footer"; "sidebar"; "menu"; "ad"; "widget" ].

(** The [for _ in range(3)] walk over the parents: [+15] and stop at the
    first parent with a content indicator, [-10] and stop at the first
    with a chrome indicator, otherwise one level up. *)
Fixpoint parent_walk (levels : nat) (parents : list Element) : Z :=
  match levels, parents with
  | O, _ => 0
  | S _, [] => 0
  | S n, parent :: up =>
      let key := Dom.class_string parent
                 ++ Str.lower (Dom.get_or_empty "id" parent) in
      if Str.any_in content_indicators key then 15
      else if Str.any_in chrome_indicators key then -10
      else parent_walk n up
  end.

(** The caption test: the nearest [figure] or [div] parent, its first
    [figcaption], [caption] or [div] descendant, and more than ten
    characters of text in it. *)
Definition caption_bonus (parents : list Element) : Z :=
  match Dom.find_parent ["figure"; "div"] parents with
  | None => 0
  | Some figure_parent =>
      match Dom.find ["figcaption"; "caption"; "div"]
                     (el_children figure_parent) with
      | None => 0
      | Some caption =>
          let caption_text := Str.lower (Dom.text_of caption) in
          if Str.len caption_text >? 10 then 10 else 0
      end
  end.

(** [analyze_image_context]; the [article_content] argument is not read. *)
Definition analyze_image_context (img_tag : option Tag)
  (article_content : string) : Z :=
  match img_tag with
  | None => 0
  | Some t =>
      let context_score := parent_walk 3 (tag_parents t) in
      let context_score := context_score + caption_bonus (tag_parents t) in
      Z.max 0 context_score
  end.

(** The [if source_method == ... elif ...] ladder. *)
Definition source_prior (source_method : string) : Z :=
  if String.eqb source_method "trafilatura_main" then 30
  else if String.eqb source_method "newspaper_top" then 25
  else if String.eqb source_method "trafilatura" then 15
  else if String.eqb source_method "newspaper" then 10
  else if String.eqb source_method "soup" then 5
  else 0.

Definition logo_indicators : list string :=
  [ "logo"; "brand"; "header"; "masthead"; "watermark";
    "signature"; "emblem"; "badge"; "seal"; "mark" ].

(** A signal: [delta] when the test holds, nothing otherwise. *)
Definition signal (test : bool) (delta : Z) : Z := if test then delta else 0.

(** The signals read off the URL (lines 562-604). *)
Definition url_signals (url_lower : string) : Z :=
  signal (Str.any_in ["featured"; "main"; "hero"; "cover"; "article"] url_lower) 20
  + signal (Str.any_in ["large"; "big"; "full"; "original"] url_lower) 12
  + signal (Str.isin "wp-content/uploads" url_lower) 10
  + signal (Str.any_in ["photo"; "image"; "pic"; "img"] url_lower) 8
  + signal (Str.any_in logo_indicators url_lower) (-25)
  + signal (Str.any_in ["toi"; "timesofindia"; "company"; "corp"] url_lower) (-15)
  + signal (Str.isin "facebook.com/tr" url_lower || Str.isin "/tr?" url_lower) (-50)
  + signal (Str.any_in ["analytics"; "tracking"; "pixel?"; "beacon?"] url_lower) (-40)
  + signal (Str.any_in ["thumb"; "small"; "mini"; "icon"] url_lower) (-15)
  + signal (Str.any_in ["ad"; "banner"; "widget"; "sidebar"] url_lower) (-20)
  + signal (Str.any_in ["social"; "share"; "profile"; "avatar"] url_lower) (-10)
  + signal (Str.any_in ["150x"; "200x"; "100x"; "50x"] url_lower) (-12)
  + signal (Str.any_in ["x150"; "x200"; "x100"; "x50"] url_lower) (-12).

(** The signals read off the tag (lines 607-630). *)
Definition tag_signals (img_tag : option Tag) : Z :=
  match img_tag with
  | None => 0
  | Some t =>
      let alt_text := Str.lower (Dom.get_or_empty "alt" (tag_el t)) in
      let classes := Dom.class_string (tag_el t) in
      (if Str.truthy alt_text then
         signal (Str.any_in ["article"; "story"; "news"; "main"; "photo"] alt_text) 10
         + signal (Str.any_in ["logo"; "icon"; "button"; "arrow"] alt_text) (-15)
       else 0)
      + signal (Str.isin "featured" classes || Str.isin "hero" classes
                || Str.isin "main" classes) 15
      + signal (Str.any_in ["sidebar"; "widget"; "ad"; "banner"] classes) (-20)
      + match tag_parents t with
        | [] => 0
        | parent :: _ =>
            let parent_classes := Dom.class_string parent in
            signal (Str.isin "article" parent_classes
                    || Str.isin "content" parent_classes) 10
            + signal (Str.isin "sidebar" parent_classes
                      || Str.isin "footer" parent_classes) (-15)
        end
  end.

(** The [if/elif/elif] on the file extension (lines 638-643). *)
Definition extension_signal (url_lower : string) : Z :=
  if Str.endswith ".jpg" url_lower || Str.endswith ".jpeg" url_lower then 5
  else if Str.endswith ".png" url_lower then 2
  else if Str.endswith ".gif" url_lower then -5
  else 0.

(** The score before the final clamp. *)
Definition unclamped_score (img_url : string) (img_tag : option Tag)
  (source_method article_content : string) : Z :=
  50 + source_prior source_method
  + url_signals (Str.lower img_url)
  + tag_signals img_tag
  + analyze_image_context img_tag article_content
  + extension_signal (Str.lower img_url).

(** [score_image_relevance]: [None] when its [urlparse(img_url)] raises,
    otherwise [max(0, min(100, score))]. *)
Definition score_image_relevance (img_url : string) (img_tag : option Tag)
  (source_method article_content : string) : option Z :=
  match urlparse img_url with
  | None => None
  | Some _ =>
      Some (Z.max 0 (Z.min 100
              (unclamped_score img_url img_tag source_method article_content)))
  end.

End Scoring.

(** ** Effects: the log, the files written and exceptions *)

(** What a log line says. *)
Inductive Message : Type :=
| Trying (method url : string)
| FoundMainImage (method image : string) (score : Z)
| MethodFailed (method url : string)
| ImageTooLarge (content_length : Z) (url : string)
| ImageTooSmall (width height : Z) (url : string)
| CouldNotValidate (url : string)
| NoImagesFound (url : string)
| SelectedBestImage (c : Candidate)
| NoneAboveMinimum (url : string) (best_score : Z)
| NoValidImages (url : string)
| Downloaded (name : string)
| DownloadFailed (url : string).

Inductive Event : Type :=
| LogInfo (m : Message)
| LogWarning (m : Message)
| LogError (m : Message)
| FileSaved (path : string) (data : list Byte.byte).  (* [img.save] returned *)

(** A computation returns a value or raises, and leaves a trace of events
    either way. *)
Definition M (A : Type) : Type := (option A * list Event)%type.

Definition ret {A : Type} (a : A) : M A := (Some a, []).

Definition raise {A : Type} : M A := (None, []).

Definition bind {A B : Type} (m : M A) (f : A -> M B) : M B :=
  match m with
  | (Some a, t) => let (r, t') := f a in (r, (t ++ t')%list)
  | (None, t) => (None, t)
  end.

(** A library or network call: its outcome, and no event of ours. *)
Definition call {A : Type} (o : option A) : M A := (o, []).

Definition emit (e : Event) : M unit := (Some tt, [e]).

(** [try: body except Exception: handler] *)
Definition try_except {A : Type} (body handler : M A) : M A :=
  match body with
  | (Some a, t) => (Some a, t)
  | (None, t) => let (r, t') := handler in (r, (t ++ t')%list)
  end.

Declare Scope pipeline_scope.
Delimit Scope pipeline_scope with pipeline.
Notation "x <- m ;; k" := (bind m (fun x => k))
  (at level 61, m at next level, right associativity) : pipeline_scope.
Notation "m ;; k" := (bind m (fun _ => k))
  (at level 61, right associativity) : pipeline_scope.
Local Open Scope pipeline_scope.

(** [for x in xs: state = body(state, x)] *)
Fixpoint for_each {A S : Type} (xs : list A) (body : S -> A -> M S) (s : S)
  : M S :=
  match xs with
  | [] => ret s
  | x :: rest => s' <- body s x ;; for_each rest body s'
  end.

Definition result {A : Type} (m : M A) : option A := fst m.
Definition trace {A : Type} (m : M A) : list Event := snd m.

(** ** The network and the documents it returns *)

(** What trafilatura gives for a downloaded page: [metadata.image] and the
    [img] tags of the extracted content ([None] inside: no metadata image,
    no content). *)
Record TrafilaturaDoc : Type := mk_TrafilaturaDoc {
  metadata_image : option (option string);
  content_img_tags : option (option (list Tag))
}.

(** A parsed newspaper3k [Article]. *)
Record Article : Type := mk_Article {
  top_image : string;
  article_images : list string
}.

(** The parsed page of the raw-markup strategy, through the queries the
    code makes on it. *)
Record Soup : Type := mk_Soup {
  og_image : option Element;            (* find('meta', property='og:image') *)
  twitter_image : option Element;       (* find('meta', name='twitter:image') *)
  ld_json_scripts : list (option string); (* [script.string] of each ld+json script *)
  img_tags : list Tag;                  (* find_all('img') *)
  picture_tags : list (list Element)    (* the [source] tags of each [picture] *)
}.

(** The answer to [session.get(url)]. *)
Record Response : Type := mk_Response {
  status_ok : bool;                     (* [raise_for_status()] passes *)
  content : list Byte.byte;
  soup : Soup                           (* [BeautifulSoup(content, 'html.parser')] *)
}.

(** The answer to [session.get(url, stream=True)]: the chunks
    [iter_content] yields, [None] where reading fails. *)
Record StreamResponse : Type := mk_StreamResponse {
  stream_status_ok : bool;
  chunks : list (option (list Byte.byte))
}.

Record World : Type := mk_World {
  (** [trafilatura.fetch_url]; the inner [None] is a page not downloaded. *)
  fetch_url : string -> option (option TrafilaturaDoc);
  (** [Article(url)], [download()], [parse()] *)
  newspaper_article : string -> option Article;
  session_get : string -> option Response;
  (** [session.head(url).headers.get('content-length')] *)
  session_head : string -> option (option string);
  session_get_stream : string -> option StreamResponse
}.

(** ** Extractors *)

Section Extraction.

Context {lib : PyLib}.
Variable W : World.

(** State of the extraction loops: the [images] list and [seen_urls]. *)
Definition Found : Type := (list Candidate * list string)%type.

(** [images.append({...}); seen_urls.add(full_url)] *)
Definition add_image (st : Found) (c : Candidate) : Found :=
  ((fst st ++ [c])%list, cand_url c :: snd st).

(** [img.get('src') or img.get('data-src')] *)
Definition src_or_data_src (e : Element) : option string :=
  Dom.or_else (Dom.get "src" (el_attrs e)) (Dom.get "data-src" (el_attrs e)).

(** Body of the loop over the [img] tags of the extracted content. *)
Definition trafilatura_img (url : string) (st : Found) (img : Tag) : M Found :=
  match src_or_data_src (tag_el img) with
  | None => ret st
  | Some src =>
      if Str.truthy src then
        full_url <- call (urljoin url src) ;;
        if Str.mem full_url (snd st) then ret st
        else
          score <- call (score_image_relevance full_url (Some img)
                           "trafilatura" "") ;;
          ret (add_image st (mk_Candidate full_url score "trafilatura"))
      else ret st
  end.

(** [extract_images_trafilatura] *)
Definition extract_images_trafilatura (url : string) : M (list Candidate) :=
  try_except
    (emit (LogInfo (Trying "trafilatura" url)) ;;
     downloaded <- call (fetch_url W url) ;;
     match downloaded with
     | None => ret []
     | Some doc =>
         image <- call (metadata_image doc) ;;
         images <-
           match image with
           | None => ret []
           | Some image =>
               if Str.truthy image then
                 main_img_url <- call (urljoin url image) ;;
                 score <- call (score_image_relevance main_img_url None
                                  "trafilatura_main" "") ;;
                 emit (LogInfo (FoundMainImage "trafilatura" image score)) ;;
                 ret [mk_Candidate main_img_url score "trafilatura_main"]
               else ret []
           end ;;
         content <- call (content_img_tags doc) ;;
         match content with
         | None => ret images
         | Some tags =>
             st <- for_each tags (trafilatura_img url)
                     (images, map cand_url images) ;;
             ret (fst st)
         end
     end)
    (emit (LogWarning (MethodFailed "trafilatura" url)) ;; ret []).

(** Body of the loop over [article.images]. *)
Definition newspaper_img (url : string) (st : Found) (img_url : string)
  : M Found :=
  full_url <- call (urljoin url img_url) ;;
  if Str.mem full_url (snd st) then ret st
  else
    score <- call (score_image_relevance full_url None "newspaper" "") ;;
    ret (add_image st (mk_Candidate full_url score "newspaper")).

(** [extract_images_newspaper] *)
Definition extract_images_newspaper (url : string) : M (list Candidate) :=
  try_except
    (emit (LogInfo (Trying "newspaper3k" url)) ;;
     article <- call (newspaper_article W url) ;;
     st <-
       (if Str.truthy (top_image article) then
          full_url <- call (urljoin url (top_image article)) ;;
          score <- call (score_image_relevance full_url None
                           "newspaper_top" "") ;;
          emit (LogInfo (FoundMainImage "newspaper3k" (top_image article) score)) ;;
          ret (add_image ([], []) (mk_Candidate full_url score "newspaper_top"))
        else ret ([], [])) ;;
     st <- for_each (article_images article) (newspaper_img url) st ;;
     ret (fst st))
    (emit (LogWarning (MethodFailed "newspaper3k" url)) ;; ret []).

(** One meta tag of [extract_opengraph_images]: the candidate it yields,
    with the bonus added to the score the scorer returned. *)
Definition meta_candidate (url : string) (tag : option Element)
  (method : string) (bonus : Z) : M (list Candidate) :=
  match tag with
  | None => ret []
  | Some t =>
      match Dom.get "content" (el_attrs t) with
      | None => ret []
      | Some c =>
          if Str.truthy c then
            img_url <- call (urljoin url c) ;;
            excluded <- call (_should_exclude_image_url img_url) ;;
            if excluded then ret []
            else
              score <- call (score_image_relevance img_url None method "") ;;
              ret [mk_Candidate img_url (score + bonus) method]
          else ret []
      end
  end.

(** Truth value of a JSON value. *)
Definition json_truthy (j : Json) : bool :=
  match j with
  | JNull => false
  | JBool b => b
  | JNum n => negb (n =? 0)
  | JStr s => Str.truthy s
  | JList l => match l with [] => false | _ => true end
  | JDict d => match d with [] => false | _ => true end
  end.

(** [d.get(key)] on a JSON object; a missing key gives [JNull]. *)
Fixpoint json_get (key : string) (d : list (string * Json)) : Json :=
  match d with
  | [] => JNull
  | (k, v) :: rest => if String.eqb k key then v else json_get key rest
  end.

Definition json_has (key : string) (d : list (string * Json)) : bool :=
  existsb (fun kv => String.eqb (fst kv) key) d.

(** The three [isinstance] steps on [schema_image] (lines 285-289). *)
Definition schema_image_string (schema_image : Json) : option string :=
  let schema_image :=
    match schema_image with
    | JList (first :: _) => first
    | other => other
    end in
  let schema_image :=
    match schema_image with
    | JDict d => if json_has "url" d then json_get "url" d else json_get "@id" d
    | other => other
    end in
  match schema_image with
  | JStr s => Some s
  | _ => None
  end.

(** What one ld+json script does to the loop. *)
Inductive ScriptStep : Type :=
| StepSkip                      (* nothing added, next script *)
| StepAdd (c : Candidate)
| StepRaise.                    (* caught by the outer [except Exception] *)

Definition schema_script (url : string) (script_string : option string)
  : ScriptStep :=
  match script_string with
  | None => StepRaise           (* [json.loads(None)] is a [TypeError] *)
  | Some text =>
      match json_loads text with
      | None => StepSkip        (* [except json.JSONDecodeError: continue] *)
      | Some (JDict d) =>
          let schema_image := json_get "image" d in
          if json_truthy schema_image then
            match schema_image_string schema_image with
            | None => StepSkip
            | Some s =>
                match urljoin url s with
                | None => StepRaise
                | Some img_url =>
                    match _should_exclude_image_url img_url with
                    | None => StepRaise
                    | Some true => StepSkip
                    | Some false =>
                        match score_image_relevance img_url None "schema" "" with
                        | None => StepRaise
                        | Some score =>
                            StepAdd (mk_Candidate img_url (score + 22) "schema")
                        end
                    end
                end
            end
          else StepSkip
      | Some _ => StepSkip
      end
  end.

(** The loop over the scripts: an exception ends it and keeps what was
    appended ([except Exception: pass]). *)
Fixpoint schema_loop (url : string) (scripts : list (option string))
  (images : list Candidate) : list Candidate :=
  match scripts with
  | [] => images
  | s :: rest =>
      match schema_script url s with
      | StepSkip => schema_loop url rest images
      | StepAdd c => schema_loop url rest (images ++ [c])%list
      | StepRaise => images
      end
  end.

(** [extract_opengraph_images] *)
Definition extract_opengraph_images (soup : Soup) (url : string)
  : M (list Candidate) :=
  og <- meta_candidate url (og_image soup) "opengraph" 25 ;;
  tw <- meta_candidate url (twitter_image soup) "twitter_card" 20 ;;
  ret (schema_loop url (ld_json_scripts soup) (og ++ tw)%list).

(** [img.get('src') or img.get('data-src') or img.get('data-lazy-src')] *)
Definition any_src (e : Element) : option string :=
  Dom.or_else (Dom.get "src" (el_attrs e))
    (Dom.or_else (Dom.get "data-src" (el_attrs e))
                 (Dom.get "data-lazy-src" (el_attrs e))).

(** Body of the loop over [soup.find_all('img')]. *)
Definition soup_img (url : string) (st : Found) (img : Tag) : M Found :=
  match any_src (tag_el img) with
  | None => ret st
  | Some src =>
      if Str.truthy src then
        full_url <- call (urljoin url src) ;;
        excluded <- call (_should_exclude_image img full_url) ;;
        if excluded then ret st
        else if Str.mem full_url (snd st) then ret st
        else
          score <- call (score_image_relevance full_url (Some img) "soup" "") ;;
          ret (add_image st (mk_Candidate full_url score "soup"))
      else ret st
  end.

(** Body of the loop over the [source] tags of a [picture]. *)
Definition soup_source (url : string) (st : Found) (source : Element)
  : M Found :=
  match Dom.get "srcset" (el_attrs source) with
  | None => ret st
  | Some srcset =>
      if Str.truthy srcset then
        let url_part := Str.before " " (Str.strip (Str.before "," srcset)) in
        full_url <- call (urljoin url url_part) ;;
        excluded <- call (_should_exclude_image_url full_url) ;;
        if negb excluded && negb (Str.mem full_url (snd st)) then
          score <- call (score_image_relevance full_url None "soup" "") ;;
          ret (add_image st (mk_Candidate full_url score "soup"))
        else ret st
      else ret st
  end.

(** [extract_images_beautifulsoup] *)
Definition extract_images_beautifulsoup (url : string) : M (list Candidate) :=
  try_except
    (emit (LogInfo (Trying "BeautifulSoup" url)) ;;
     response <- call (session_get W url) ;;
     (if status_ok response then ret tt else raise) ;;
     let soup := soup response in
     meta_images <- extract_opengraph_images soup url ;;
     st <- for_each (img_tags soup) (soup_img url)
             (meta_images, map cand_url meta_images) ;;
     st <- for_each (picture_tags soup)
             (fun st sources => for_each sources (soup_source url) st) st ;;
     ret (fst st))
    (emit (LogWarning (MethodFailed "BeautifulSoup" url)) ;; ret []).

End Extraction.

(** ** Validator: [validate_image_size] *)

(** [int / int] raises [OverflowError] when the quotient does not fit a
    float; for a division by [1024 * 1024] that is from this magnitude of
    the dividend on. *)
Definition true_div_overflow : Z := 2 ^ 1044 - 2 ^ 990.

(** [int(content_length) / (1024 * 1024) > self.max_file_size_mb].
    Dividing by a power of two only rounds the dividend to 53 bits, which
    keeps the order with [10 * 2^20], so the float comparison is the
    integer one; [None] is the [OverflowError]. *)
Definition size_mb_exceeds (n : Z) : option bool :=
  if Z.abs n >=? true_div_overflow then None
  else Some (n >? max_file_size_mb * (1024 * 1024)).

(** The loop over [iter_content]: append chunks, stop once more than
    [chunk_size * 10] bytes are in. *)
Fixpoint read_prefix (chunks : list (option (list Byte.byte)))
  (data : list Byte.byte) : option (list Byte.byte) :=
  match chunks with
  | [] => Some data
  | None :: _ => None
  | Some chunk :: rest =>
      let data := (data ++ chunk)%list in
      if Z.of_nat (length data) >? 1024 * 10 then Some data
      else read_prefix rest data
  end.

Section Validation.

Context {lib : PyLib}.
Variable W : World.

(** Lines 662-666: the content length that makes the image too large. *)
Definition too_large (content_length : option string) : M (option Z) :=
  match content_length with
  | None => ret None
  | Some text =>
      if Str.truthy text then
        n <- call (py_int text) ;;
        exceeds <- call (size_mb_exceeds n) ;;
        ret (if exceeds then Some n else None)
      else ret None
  end.

(** [validate_image_size] *)
Definition validate_image_size (img_url : string) : M bool :=
  try_except
    (content_length <- call (session_head W img_url) ;;
     large <- too_large content_length ;;
     match large with
     | Some n => emit (LogInfo (ImageTooLarge n img_url)) ;; ret false
     | None =>
         response <- call (session_get_stream W img_url) ;;
         (if stream_status_ok response then ret tt else raise) ;;
         data <- call (read_prefix (chunks response) []) ;;
         match pil_open_size data with
         | Some (width, height) =>
             if (width <? fst min_image_size) || (height <? snd min_image_size)
             then emit (LogInfo (ImageTooSmall width height img_url)) ;;
                  ret false
             else ret true
         | None => ret true
         end
     end)
    (emit (LogWarning (CouldNotValidate img_url)) ;; ret true).

End Validation.

(** ** Normaliser: [download_image] *)

Module Pil.

Definition white : list Z := [255; 255; 255].

(** [Image.new('RGB', size, color)] *)
Definition new_rgb (size : Z * Z) (color : list Z) : Image :=
  mk_Image "RGB" size (repeat color (Z.to_nat (fst size * snd size))).

(** The value of the last band of a pixel: [img.split()[-1]]. *)
Definition last_band (px : list Z) : Z := List.last px 0.

(** The colour an [RGBA] or [LA] pixel brings into an [RGB] image. *)
Definition rgb_of (mode : string) (px : list Z) : list Z :=
  if String.eqb mode "LA" then
    match px with
    | l :: _ => [l; l; l]
    | [] => []
    end
  else firstn 3 px.

Section Paste.

Context {lib : PyLib}.

(** One pixel of [paste] under a mask: where the mask is 0 the current
    value is preserved, where it is 255 the pasted one is copied, and
    values in between mix the two. *)
Definition paste_pixel (current pasted : list Z) (mask : Z) : list Z :=
  if mask =? 0 then current
  else if mask =? 255 then pasted
  else pil_mix mask current pasted.

Fixpoint paste_pixels (current : list (list Z)) (mode : string)
  (pasted : list (list Z)) : list (list Z) :=
  match current, pasted with
  | c :: cs, p :: ps =>
      paste_pixel c (rgb_of mode p) (last_band p) :: paste_pixels cs mode ps
  | _, _ => current
  end.

(** [rgb_img.paste(img, mask=img.split()[-1])] for an [RGBA] or [LA]
    image of the same size. *)
Definition paste_with_alpha (rgb_img img : Image) : Image :=
  mk_Image (mode rgb_img) (size rgb_img)
           (paste_pixels (pixels rgb_img) (mode img) (pixels img)).

(** [rgb_img.paste(img, mask=None)]: the image, brought to the mode of
    [rgb_img], replaces the pixels. *)
Definition paste_plain (rgb_img img : Image) : option Image :=
  match pil_convert (mode rgb_img) img with
  | None => None
  | Some c => Some (mk_Image (mode rgb_img) (size rgb_img) (pixels c))
  end.

End Paste.

End Pil.

Section Normalisation.

Context {lib : PyLib}.
Variable W : World.

(** Lines 722-730: the image that is handed to [save]. *)
Definition convert_for_jpeg (img : Image) : option Image :=
  if Str.mem (mode img) ["RGBA"; "LA"; "P"] then
    let rgb_img := Pil.new_rgb (size img) Pil.white in
    match (if String.eqb (mode img) "P" then pil_convert "RGBA" img
           else Some img) with
    | None => None
    | Some img =>
        if Str.mem (mode img) ["RGBA"; "LA"]
        then Some (Pil.paste_with_alpha rgb_img img)
        else Pil.paste_plain rgb_img img
    end
  else if negb (String.eqb (mode img) "RGB") then pil_convert "RGB" img
  else Some img.

(** [download_image] *)
Definition download_image (img_url output_path : string) : M bool :=
  try_except
    (response <- call (session_get W img_url) ;;
     (if status_ok response then ret tt else raise) ;;
     output_path <- call (with_suffix output_path ".jpg") ;;
     img <- call (pil_open (content response)) ;;
     img <- call (convert_for_jpeg img) ;;
     data <- call (jpeg_encode img 90 true) ;;
     emit (FileSaved output_path data) ;;
     emit (LogInfo (Downloaded (path_name output_path))) ;;
     ret true)
    (emit (LogError (DownloadFailed img_url)) ;; ret false).

End Normalisation.

(** ** Chain, merge and selection: [scrape_article_images] *)

(** [max([img['score'] for img in all_images], default=0)] *)
Definition best_score_of (all_images : list Candidate) : Z :=
  match map cand_score all_images with
  | [] => 0
  | s :: rest => fold_left Z.max rest s
  end.

(** The [seen_urls] dictionary: keys in insertion order. *)
Definition Dict : Type := list (string * Candidate).

(** [d.get(k)] *)
Fixpoint dict_get (k : string) (d : Dict) : option Candidate :=
  match d with
  | [] => None
  | (k', v) :: rest => if String.eqb k' k then Some v else dict_get k rest
  end.

(** [d[k] = v]: a key already present keeps its place. *)
Fixpoint dict_set (k : string) (v : Candidate) (d : Dict) : Dict :=
  match d with
  | [] => [(k, v)]
  | (k', v') :: rest =>
      if String.eqb k' k then (k', v) :: rest
      else (k', v') :: dict_set k v rest
  end.

(** Body of the loop of lines 776-779. *)
Definition merge_step (seen_urls : Dict) (img : Candidate) : Dict :=
  let img_url := cand_url img in
  match dict_get img_url seen_urls with
  | None => dict_set img_url img seen_urls
  | Some kept =>
      if cand_score img >? cand_score kept
      then dict_set img_url img seen_urls
      else seen_urls
  end.

Definition merge_by_url (all_images : list Candidate) : Dict :=
  fold_left merge_step all_images [].

(** [list(seen_urls.values())] *)
Definition dict_values (d : Dict) : list Candidate := map snd d.

(** [list.sort(key=score, reverse=True)]: a stable sort, so candidates
    with equal scores keep their order.  Insertion from the right puts a
    candidate in front of the first one that does not score higher. *)
Fixpoint insert_by_score (c : Candidate) (sorted : list Candidate)
  : list Candidate :=
  match sorted with
  | [] => [c]
  | d :: rest =>
      if cand_score d >? cand_score c then d :: insert_by_score c rest
      else c :: sorted
  end.

Fixpoint sort_by_score (l : list Candidate) : list Candidate :=
  match l with
  | [] => []
  | c :: rest => insert_by_score c (sort_by_score rest)
  end.

Definition MIN_ACCEPTABLE_SCORE : Z := 40.

Section Selection.

Context {lib : PyLib}.
Variable W : World.

(** The loop of lines 789-792. *)
Fixpoint first_acceptable (unique_images : list Candidate)
  : M (option Candidate) :=
  match unique_images with
  | [] => ret None
  | img_data :: rest =>
      if cand_score img_data >=? MIN_ACCEPTABLE_SCORE then
        valid <- validate_image_size W (cand_url img_data) ;;
        if valid then
          emit (LogInfo (SelectedBestImage img_data)) ;; ret (Some img_data)
        else first_acceptable rest
      else first_acceptable rest
  end.

(** Lines 770-801: merge, sort, walk. *)
Definition select_image (url : string) (all_images : list Candidate)
  : M (option Candidate) :=
  match all_images with
  | [] => emit (LogWarning (NoImagesFound url)) ;; ret None
  | _ =>
      let seen_urls := merge_by_url all_images in
      let unique_images := sort_by_score (dict_values seen_urls) in
      chosen <- first_acceptable unique_images ;;
      match chosen with
      | Some img_data => ret (Some img_data)
      | None =>
          match unique_images with
          | best :: _ =>
              emit (LogWarning (NoneAboveMinimum url (cand_score best)))
          | [] => emit (LogWarning (NoValidImages url))
          end ;;
          ret None
      end
  end.

(** Lines 752-768: the fallback chain. *)
Definition collect_images (url : string) : M (list Candidate) :=
  images <- extract_images_trafilatura W url ;;
  let all_images := images in
  let best_score := best_score_of all_images in
  all_images <-
    (if best_score <? 80 then
       images <- extract_images_newspaper W url ;;
       ret (all_images ++ images)%list
     else ret all_images) ;;
  let best_score := best_score_of all_images in
  if best_score <? 70 then
    images <- extract_images_beautifulsoup W url ;;
    ret (all_images ++ images)%list
  else ret all_images.

(** [scrape_article_images] *)
Definition scrape_article_images (url : string) : M (option Candidate) :=
  all_images <- collect_images url ;;
  select_image url all_images.

End Selection.

(** ** Reference behaviour of the library calls

    The calls of [PyLib] on printable ASCII text without blanks, after the
    CPython 3.11 sources ([urllib.parse.urlsplit] with its check of a
    bracketed host, [_splitparams], [urlunparse] and [urljoin];
    [ipaddress.IPv6Address]; [pathlib.PurePosixPath.name], [suffix] and
    [with_suffix]; [int]), so that the model runs on concrete pages.  The
    general statements below hold for every [PyLib]; the reference is
    what the examples are evaluated with.  The imaging and JSON calls are
    arguments of [reference_lib]. *)

Module PyRef.

Definition is_alpha (c : ascii) : bool :=
  let n := nat_of_ascii c in
  ((Nat.leb 65 n && Nat.leb n 90) || (Nat.leb 97 n && Nat.leb n 122))%bool.

Definition is_scheme_char (c : ascii) : bool :=
  is_alpha c || Re.is_digit c || Ascii.eqb c "+" || Ascii.eqb c "-"
  || Ascii.eqb c ".".

Fixpoint all_chars (f : ascii -> bool) (s : string) : bool :=
  match s with
  | EmptyString => true
  | String c r => f c && all_chars f r
  end.

(** [s.split(c, 1)] when [c] occurs in [s]. *)
Fixpoint split_once (c : ascii) (s : string) : option (string * string) :=
  match s with
  | EmptyString => None
  | String a r =>
      if Ascii.eqb a c then Some (EmptyString, r)
      else
        match split_once c r with
        | Some (x, y) => Some (String a x, y)
        | None => None
        end
  end.

(** [s.split(c)] *)
Fixpoint split (c : ascii) (s : string) : list string :=
  match s with
  | EmptyString => [EmptyString]
  | String a r =>
      if Ascii.eqb a c then EmptyString :: split c r
      else
        match split c r with
        | h :: t => String a h :: t
        | [] => [String a EmptyString]
        end
  end.

(** The netloc and the rest, from just after [//]. *)
Fixpoint split_netloc (s : string) : string * string :=
  match s with
  | EmptyString => (EmptyString, EmptyString)
  | String a r =>
      if Ascii.eqb a "/" || Ascii.eqb a "?" || Ascii.eqb a "#"
      then (EmptyString, s)
      else let (n, rest) := split_netloc r in (String a n, rest)
  end.

(** The value of decimal digits, single underscores allowed between two
    digits; [after_digit] tells that the character before was a digit. *)
Fixpoint digits_value (s : string) (acc : Z) (after_digit : bool)
  : option Z :=
  match s with
  | EmptyString => if after_digit then Some acc else None
  | String c r =>
      if Re.is_digit c
      then digits_value r (10 * acc + Z.of_nat (nat_of_ascii c - 48)) true
      else if Ascii.eqb c "_" && after_digit then digits_value r acc false
      else None
  end.

(** [int(s)] for an optional sign and decimal digits, with or without
    digit-group underscores, between blanks. *)
Definition py_int (s : string) : option Z :=
  match Str.strip s with
  | EmptyString => None
  | String c r =>
      if Ascii.eqb c "-" then option_map Z.opp (digits_value r 0 false)
      else if Ascii.eqb c "+" then digits_value r 0 false
      else digits_value (String c r) 0 false
  end.

(** [s.partition(c)]: the part before the first [c] and the part after
    it, [None] for the latter when [c] does not occur. *)
Definition partition (c : ascii) (s : string) : string * option string :=
  match split_once c s with
  | Some (before, after) => (before, Some after)
  | None => (s, None)
  end.

(** [s.rpartition(c)[2]]: the part after the last [c], all of [s] without
    one. *)
Definition after_last (c : ascii) (s : string) : string :=
  Str.rev (Str.before c (Str.rev s)).

Definition is_hex_digit (c : ascii) : bool :=
  let n := nat_of_ascii c in
  (Re.is_digit c || (Nat.leb 65 n && Nat.leb n 70)
   || (Nat.leb 97 n && Nat.leb n 102))%bool.

(** [IPv4Address._parse_octet] accepts the string. *)
Definition valid_octet (s : string) : bool :=
  Str.truthy s && all_chars Re.is_digit s
  && Nat.leb (String.length s) 3
  && (String.eqb s "0" || negb (Str.startswith "0" s))
  && match digits_value s 0 false with
     | Some n => n <=? 255
     | None => false
     end.

(** [IPv4Address(s)] is accepted. *)
Definition valid_ipv4 (s : string) : bool :=
  let octets := split "." s in
  Str.truthy s && Nat.eqb (length octets) 4 && forallb valid_octet octets.

(** [IPv6Address._parse_hextet] accepts the string. *)
Definition valid_hextet (s : string) : bool :=
  Str.truthy s && all_chars is_hex_digit s && Nat.leb (String.length s) 4.

(** The positions strictly inside the list that hold an empty string. *)
Fixpoint inner_empties (parts : list string) (i : nat) : list nat :=
  match parts with
  | [] => []
  | [_] => []
  | p :: rest =>
      (if negb (Str.truthy p) && negb (Nat.eqb i 0) then [i] else [])
      ++ inner_empties rest (S i)
  end%list.

(** [IPv6Address._ip_int_from_string] accepts the string. *)
Definition valid_ipv6_parts (ip_str : string) : bool :=
  if negb (Str.truthy ip_str) then false
  else
    let parts := split ":" ip_str in
    if Nat.ltb (length parts) 3 then false
    else
      let last_part := List.last parts EmptyString in
      let suffix_ok :=
        if Str.isin "." last_part then valid_ipv4 last_part else true in
      let parts :=
        if Str.isin "." last_part
        then (removelast parts ++ ["0"; "0"])%list
        else parts in
      if negb suffix_ok then false
      else if Nat.ltb 9 (length parts) then false
      else
        let first_empty := negb (Str.truthy (hd EmptyString parts)) in
        let last_empty := negb (Str.truthy (List.last parts EmptyString)) in
        match inner_empties parts 0 with
        | [skip_index] =>
            let parts_hi := skip_index in
            let parts_lo := (length parts - skip_index - 1)%nat in
            let parts_hi := if first_empty then (parts_hi - 1)%nat else parts_hi in
            let parts_lo := if last_empty then (parts_lo - 1)%nat else parts_lo in
            if first_empty && negb (Nat.eqb parts_hi 0) then false
            else if last_empty && negb (Nat.eqb parts_lo 0) then false
            else if Nat.leb 8 (parts_hi + parts_lo) then false
            else
              forallb valid_hextet (firstn parts_hi parts)
              && forallb valid_hextet (skipn (length parts - parts_lo) parts)
        | [] =>
            Nat.eqb (length parts) 8
            && negb first_empty && negb last_empty
            && forallb valid_hextet parts
        | _ => false
        end.

(** [IPv6Address(s)] is accepted: the address and an optional scope. *)
Definition valid_ipv6 (s : string) : bool :=
  match partition "%" s with
  | (addr, None) => valid_ipv6_parts addr
  | (addr, Some scope_id) =>
      Str.truthy scope_id && negb (Str.isin "%" scope_id)
      && valid_ipv6_parts addr
  end.

(** [re.match(r"\Av[a-fA-F0-9]+\..+\Z", s)]: [v], hexadecimal digits, a
    dot, and at least one more character, none of them a newline. *)
Definition valid_ipvfuture (s : string) : bool :=
  match s with
  | String "v" rest =>
      match split_once "." rest with
      | Some (version, address) =>
          Str.truthy version && all_chars is_hex_digit version
          && Str.truthy address
          && all_chars (fun c => negb (Ascii.eqb c Re.newline)) address
      | None => false
      end
  | _ => false
  end.

(** [_check_bracketed_host] returns. *)
Definition bracketed_host_ok (hostname : string) : bool :=
  if Str.startswith "v" hostname then valid_ipvfuture hostname
  else valid_ipv6 hostname.

(** [_check_bracketed_netloc] returns. *)
Definition bracketed_netloc_ok (netloc : string) : bool :=
  let hostname_and_port := after_last "@" netloc in
  match partition "[" hostname_and_port with
  | (before_bracket, Some bracketed) =>
      if Str.truthy before_bracket then false
      else
        match partition "]" bracketed with
        | (hostname, Some port) =>
            if Str.truthy port && negb (Str.startswith ":" port) then false
            else bracketed_host_ok hostname
        | (hostname, None) => bracketed_host_ok hostname
        end
  | (_, None) =>
      bracketed_host_ok (fst (partition ":" hostname_and_port))
  end.

Definition uses_params : list string :=
  [ ""; "ftp"; "hdl"; "prospero"; "http"; "imap"; "https"; "shttp";
    "rtsp"; "rtspu"; "sip"; "sips"; "mms"; "sftp"; "tel" ].

(** [_splitparams]: the parameters start at the first [;] of the last
    path segment. *)
Definition split_params (url : string) : string * string :=
  let last_segment := Str.rev (Str.before "/" (Str.rev url)) in
  match split_once ";" last_segment with
  | None => (url, EmptyString)
  | Some (seg, prm) =>
      (substring 0 (String.length url - String.length last_segment) url ++ seg,
       prm)
  end.

(** [urlparse(url, scheme)]: [default_scheme] is the scheme of a URL that
    names none. *)
Definition urlparse_with (default_scheme url : string) : option ParseResult :=
  let (scheme, url) :=
    match split_once ":" url with
    | Some (String c pre, post) =>
        if is_alpha c && all_chars is_scheme_char pre
        then (Str.lower (String c pre), post)
        else (default_scheme, url)
    | _ => (default_scheme, url)
    end in
  let (netloc, url) :=
    if Str.startswith "//" url
    then split_netloc (substring 2 (String.length url - 2) url)
    else (EmptyString, url) in
  if (Str.isin "[" netloc && negb (Str.isin "]" netloc))
     || (Str.isin "]" netloc && negb (Str.isin "[" netloc))
  then None
  else if Str.isin "[" netloc && Str.isin "]" netloc
          && negb (bracketed_netloc_ok netloc)
  then None
  else
    let (url, fragment) :=
      match split_once "#" url with
      | Some p => p
      | None => (url, EmptyString)
      end in
    let (url, query) :=
      match split_once "?" url with
      | Some p => p
      | None => (url, EmptyString)
      end in
    let (url, params) :=
      if Str.mem scheme uses_params && Str.isin ";" url
      then split_params url
      else (url, EmptyString) in
    Some (mk_ParseResult scheme netloc url params query fragment).

Definition urlparse (url : string) : option ParseResult :=
  urlparse_with EmptyString url.

Definition uses_relative : list string :=
  [ ""; "ftp"; "http"; "gopher"; "nntp"; "imap"; "wais"; "file"; "https";
    "shttp"; "mms"; "prospero"; "rtsp"; "rtspu"; "sftp"; "svn"; "svn+ssh";
    "ws"; "wss" ].

Definition uses_netloc : list string :=
  [ ""; "ftp"; "http"; "gopher"; "nntp"; "telnet"; "imap"; "wais"; "file";
    "mms"; "https"; "shttp"; "snews"; "prospero"; "rtsp"; "rtspu"; "rsync";
    "svn"; "svn+ssh"; "sftp"; "nfs"; "git"; "git+ssh"; "ws"; "wss" ].

(** [urlunparse] *)
Definition urlunparse (p : ParseResult) : string :=
  let url := if Str.truthy (params p) then path p ++ ";" ++ params p
             else path p in
  let url :=
    if Str.truthy (netloc p)
       || (Str.truthy (scheme p) && Str.mem (scheme p) uses_netloc
           && negb (Str.startswith "//" url))
    then
      let url := if Str.truthy url && negb (Str.startswith "/" url)
                 then "/" ++ url else url in
      "//" ++ netloc p ++ url
    else url in
  let url := if Str.truthy (scheme p) then scheme p ++ ":" ++ url else url in
  let url := if Str.truthy (query p) then url ++ "?" ++ query p else url in
  if Str.truthy (fragment p) then url ++ "#" ++ fragment p else url.

(** The loop of [urljoin] over the segments: [..] drops the segment
    before it, [.] is passed over. *)
Fixpoint resolve_segments (segments resolved_path : list string)
  : list string :=
  match segments with
  | [] => resolved_path
  | seg :: rest =>
      if String.eqb seg ".." then resolve_segments rest (removelast resolved_path)
      else if String.eqb seg "." then resolve_segments rest resolved_path
      else resolve_segments rest (resolved_path ++ [seg])%list
  end.

(** [segments[1:-1] = filter(None, segments[1:-1])] *)
Definition drop_inner_empties (segments : list string) : list string :=
  match segments with
  | [] => []
  | [one] => [one]
  | first :: rest =>
      (first :: filter Str.truthy (removelast rest) ++ [List.last rest EmptyString])%list
  end.

(** [urljoin] *)
Definition urljoin (base url : string) : option string :=
  if negb (Str.truthy base) then Some url
  else if negb (Str.truthy url) then Some base
  else
    match urlparse base with
    | None => None
    | Some b =>
        match urlparse_with (scheme b) url with
        | None => None
        | Some r =>
            if negb (String.eqb (scheme r) (scheme b))
               || negb (Str.mem (scheme r) uses_relative)
            then Some url
            else if Str.mem (scheme r) uses_netloc && Str.truthy (netloc r)
            then Some (urlunparse r)
            else
              let netloc_ :=
                if Str.mem (scheme r) uses_netloc then netloc b else netloc r in
              if negb (Str.truthy (path r)) && negb (Str.truthy (params r))
              then
                Some (urlunparse
                        (mk_ParseResult (scheme r) netloc_ (path b) (params b)
                           (if Str.truthy (query r) then query r else query b)
                           (fragment r)))
              else
                let base_parts := split "/" (path b) in
                let base_parts :=
                  if Str.truthy (List.last base_parts EmptyString)
                  then removelast base_parts else base_parts in
                let segments :=
                  if Str.startswith "/" (path r) then split "/" (path r)
                  else drop_inner_empties
                         (base_parts ++ split "/" (path r))%list in
                let resolved_path := resolve_segments segments [] in
                let last_segment := List.last segments EmptyString in
                let resolved_path :=
                  if String.eqb last_segment "." || String.eqb last_segment ".."
                  then (resolved_path ++ [EmptyString])%list
                  else resolved_path in
                let joined := Str.join "/" resolved_path in
                Some (urlunparse
                        (mk_ParseResult (scheme r) netloc_
                           (if Str.truthy joined then joined else "/")
                           (params r) (query r) (fragment r)))
        end
    end.

(** The components of a POSIX path: empty ones and [.] are dropped. *)
Definition path_parts (p : string) : list string :=
  filter (fun part => negb (String.eqb part "" || String.eqb part "."))
         (split "/" p).

(** The root of a POSIX path: exactly two leading slashes are kept. *)
Definition path_root (p : string) : string :=
  if Str.startswith "//" p && negb (Str.startswith "///" p) then "//"
  else if Str.startswith "/" p then "/"
  else EmptyString.

(** The final component of a POSIX path. *)
Definition path_name (p : string) : string :=
  List.last (path_parts p) EmptyString.

(** [name[i:]] for the last dot [i] of the name, when [0 < i < len - 1]. *)
Definition suffix_of_name (name : string) : string :=
  if Str.isin "." name then
    let ext := Str.rev (Str.before "." (Str.rev name)) in
    if Str.truthy ext
       && Nat.ltb (S (String.length ext)) (String.length name)
    then "." ++ ext
    else EmptyString
  else EmptyString.

Definition path_suffix (p : string) : string := suffix_of_name (path_name p).

(** [str(PurePosixPath(p).with_suffix(suffix))]; a path without a name
    raises. *)
Definition with_suffix (p suffix : string) : option string :=
  match List.rev (path_parts p) with
  | [] => None
  | name :: parents =>
      let stem :=
        substring 0 (String.length name - String.length (suffix_of_name name))
                  name in
      Some (path_root p
            ++ Str.join "/" (List.rev parents ++ [(stem ++ suffix)%string])%list)
  end.

(** Pillow's 8-bit blend, [((t >> 8) + t) >> 8] for
    [t = current * (255 - mask) + pasted * mask + 128]. *)
Definition blend_band (mask current pasted : Z) : Z :=
  let t := current * (255 - mask) + pasted * mask + 128 in
  Z.shiftr (Z.shiftr t 8 + t) 8.

Fixpoint blend (mask : Z) (current pasted : list Z) : list Z :=
  match current, pasted with
  | c :: cs, p :: ps => blend_band mask c p :: blend mask cs ps
  | _, _ => current
  end.

End PyRef.

Definition reference_lib
  (open_size : list Byte.byte -> option (Z * Z))
  (open_image : list Byte.byte -> option Image)
  (convert : string -> Image -> option Image)
  (encode : Image -> Z -> bool -> option (list Byte.byte))
  (loads : string -> option Json) : PyLib :=
  {| urlparse := PyRef.urlparse;
     urljoin := PyRef.urljoin;
     path_suffix := PyRef.path_suffix;
     json_loads := loads;
     py_int := PyRef.py_int;
     pil_open_size := open_size;
     pil_open := open_image;
     pil_convert := convert;
     pil_mix := PyRef.blend;
     jpeg_encode := encode;
     with_suffix := PyRef.with_suffix;
     path_name := PyRef.path_name |}.

(** The library with no imaging and no JSON behind it: every such call
    raises. *)
Definition plain_lib : PyLib :=
  reference_lib (fun _ => None) (fun _ => None) (fun _ _ => None)
                (fun _ _ _ => None) (fun _ => None).

(** ** Notions used by the statements *)

(** The fixed bonus [extract_opengraph_images] adds to a score. *)
Definition bonus_of (source_method : string) : Z :=
  if String.eqb source_method "opengraph" then 25
  else if String.eqb source_method "twitter_card" then 20
  else if String.eqb source_method "schema" then 22
  else 0.

(** The list a strategy returns; an extractor catches what it raises. *)
Definition images_of (m : M (list Candidate)) : list Candidate :=
  match result m with
  | Some l => l
  | None => []
  end.

(** The strategy named [method] was invoked on [url]: its first log line
    is in the trace. *)
Definition invoked (method url : string) (t : list Event) : Prop :=
  In (LogInfo (Trying method url)) t.

(** The validator accepts [img_url]. *)
Definition validates {lib : PyLib} (W : World) (img_url : string) : bool :=
  match result (validate_image_size W img_url) with
  | Some true => true
  | _ => false
  end.

(** A candidate passes both gates of the selection loop. *)
Definition acceptable {lib : PyLib} (W : World) (c : Candidate) : bool :=
  (cand_score c >=? MIN_ACCEPTABLE_SCORE) && validates W (cand_url c).

(** The candidate scores exactly [k]. *)
Definition score_is (k : Z) (c : Candidate) : bool := cand_score c =? k.

(** Scores never increase along the list. *)
Definition descending (s : list Candidate) : Prop :=
  StronglySorted (fun a b => cand_score a >= cand_score b) s.

(** [s] is a stable descending arrangement of [l]: the same candidates,
    by descending score, those of equal score in the order of [l]. *)
Definition stable_descending (l s : list Candidate) : Prop :=
  Permutation l s /\ descending s /\
  forall k, filter (score_is k) s = filter (score_is k) l.

(** [v] sits in [l] ahead of every entry of its URL that scores as much:
    the ones before score less, the ones after do not score more. *)
Definition first_best (v : Candidate) (l : list Candidate) : Prop :=
  exists l1 l2,
    l = (l1 ++ v :: l2)%list /\
    (forall e, In e l1 -> cand_url e = cand_url v -> cand_score e < cand_score v) /\
    (forall e, In e l2 -> cand_url e = cand_url v -> cand_score e <= cand_score v).

(** What the loop of the merge has established after reading [l]. *)
Record merged (l : list Candidate) (d : Dict) : Prop := mk_merged {
  merged_nodup : NoDup (map fst d);
  merged_entry : forall k v, dict_get k d = Some v ->
                             cand_url v = k /\ first_best v l;
  merged_covers : forall e, In e l -> dict_get (cand_url e) d <> None
}.

(** No event of [t] announces a strategy. *)
Definition no_trying (t : list Event) : Prop :=
  forall m u, ~ In (LogInfo (Trying m u)) t.

(** [out] is [src] composited onto a white canvas of the size [canvas]:
    an [RGB] picture of that size with one pixel for each coordinate,
    which is white where the last band (alpha) of [src] is 0 or [src] has
    no pixel, the colour of [src] where the alpha is 255, and the
    library's mix of white and that colour where it is in between. *)
Definition composited_onto_white {lib : PyLib} (canvas : Z * Z)
  (src out : Image) : Prop :=
  mode out = "RGB" /\ size out = canvas /\
  Z.of_nat (length (pixels out)) = Z.max 0 (fst canvas * snd canvas) /\
  forall i : nat,
    Z.of_nat i < fst canvas * snd canvas ->
    (nth_error (pixels src) i = None ->
     nth_error (pixels out) i = Some Pil.white) /\
    forall px : list Z,
      nth_error (pixels src) i = Some px ->
      (Pil.last_band px = 0 -> nth_error (pixels out) i = Some Pil.white) /\
      (Pil.last_band px = 255 ->
       nth_error (pixels out) i = Some (Pil.rgb_of (mode src) px)) /\
      (Pil.last_band px <> 0 -> Pil.last_band px <> 255 ->
       nth_error (pixels out) i
       = Some (pil_mix (Pil.last_band px) Pil.white
                 (Pil.rgb_of (mode src) px))).

(** The candidate has the minimum score and the validator accepts it. *)
Definition passes_gates {lib : PyLib} (W : World) (c : Candidate) : Prop :=
  40 <= cand_score c /\
  result (validate_image_size W (cand_url c)) = Some true.

Section Notions.

Context {lib : PyLib}.
Variable W : World.

(** The stored score is what the scorer returned for this URL and source
    method, plus the bonus of the source method. *)
Definition scored (c : Candidate) : Prop :=
  exists t v,
    score_image_relevance (cand_url c) t (cand_source c) "" = Some v /\
    cand_score c = v + bonus_of (cand_source c).

(** Every image found so far is [scored]. *)
Definition all_scored (st : Found) : Prop := Forall scored (fst st).

(** A candidate of [extract_opengraph_images]: one of the three meta
    sources, scored without a tag, the bonus added once. *)
Definition meta_scored (c : Candidate) : Prop :=
  In (cand_source c) ["opengraph"; "twitter_card"; "schema"] /\
  exists v,
    score_image_relevance (cand_url c) None (cand_source c) "" = Some v /\
    cand_score c = v + bonus_of (cand_source c).

(** The header of the HEAD answer implies a size over 10 MB. *)
Definition head_too_large (u : string) : Prop :=
  exists text n,
    session_head W u = Some (Some text) /\ py_int text = Some n /\
    n > 10 * (1024 * 1024).

(** The first bytes of the GET answer decode to a width or height under
    100 pixels. *)
Definition decoded_too_small (u : string) : Prop :=
  exists response data width height,
    session_get_stream W u = Some response /\
    stream_status_ok response = true /\
    read_prefix (chunks response) [] = Some data /\
    pil_open_size data = Some (width, height) /\
    (width < 100 \/ height < 100).

(** The images in hand after the structured-metadata strategy. *)
Definition after_trafilatura (url : string) : list Candidate :=
  images_of (extract_images_trafilatura W url).

(** The images in hand once the full-document strategy has run or has
    been skipped. *)
Definition after_newspaper (url : string) : list Candidate :=
  if best_score_of (after_trafilatura url) <? 80
  then (after_trafilatura url ++ images_of (extract_images_newspaper W url))%list
  else after_trafilatura url.

(** The images in hand when the chain ends. *)
Definition after_beautifulsoup (url : string) : list Candidate :=
  if best_score_of (after_newspaper url) <? 70
  then (after_newspaper url ++ images_of (extract_images_beautifulsoup W url))%list
  else after_newspaper url.

End Notions.

(** ** Example pages and worlds *)

Definition article_url : string := "https://news.example.com/story.html".
Definition hero_url : string := "https://cdn.example.com/featured-large.jpg".
Definition plain_url : string := "https://cdn.example.com/a.jpg".
Definition pixel_url : string := "https://site.com/assets/fb_pixel_tr.gif".
Definition gif_url : string := "https://site.com/x/y.gif".

(** [<meta key=value content=...>] *)
Definition meta_tag (key value content : string) : Element :=
  mk_Element "meta" [(key, value); ("content", content)] [] [].

(** The [BeautifulSoup] object at the top of every parent chain. *)
Definition document : Element := mk_Element "[document]" [] [] [].

(** [<img src=...>] directly under the document. *)
Definition img_tag (src : string) : Tag :=
  mk_Tag (mk_Element "img" [("src", src)] [] []) [document].

(** [<div class=...><img src=...></div>] under the document. *)
Definition img_in_div (div_class src : string) : Tag :=
  mk_Tag (mk_Element "img" [("src", src)] [] [])
         [ mk_Element "div" [] [div_class] [NTag "img" [("src", src)] [] []];
           document ].

(** [<img src=... width="1" height="1">] directly under the document. *)
Definition tiny_img_tag (src : string) : Tag :=
  mk_Tag (mk_Element "img" [("src", src); ("width", "1"); ("height", "1")]
                     [] [])
         [document].

(** A page whose only image is its [og:image]. *)
Definition og_soup : Soup :=
  mk_Soup (Some (meta_tag "property" "og:image" hero_url)) None [] [] [].

(** A page whose only image is one [img] tag. *)
Definition pixel_soup : Soup := mk_Soup None None [] [img_tag pixel_url] [].

(** Trafilatura and newspaper3k find nothing, the page is served to the
    raw-markup strategy, and every probe of the validator fails. *)
Definition soup_world (s : Soup) : World :=
  mk_World (fun _ => Some None) (fun _ => None)
           (fun u => if String.eqb u article_url
                     then Some (mk_Response true [] s) else None)
           (fun _ => None) (fun _ => None).

(** Trafilatura reports [image] as the main image; nothing else answers. *)
Definition trafilatura_world (image : string) : World :=
  mk_World (fun _ => Some (Some (mk_TrafilaturaDoc (Some (Some image))
                                                   (Some None))))
           (fun _ => None) (fun _ => None) (fun _ => None) (fun _ => None).

(** No network at all. *)
Definition offline : World :=
  mk_World (fun _ => None) (fun _ => None) (fun _ => None)
           (fun _ => None) (fun _ => None).

(** The HEAD answer carries this [content-length]; the GET fails. *)
Definition head_world (content_length : string) : World :=
  mk_World (fun _ => None) (fun _ => None) (fun _ => None)
           (fun _ => Some (Some content_length)) (fun _ => None).

(** No [content-length]; the GET streams these chunks. *)
Definition stream_world (body : list (option (list Byte.byte))) : World :=
  mk_World (fun _ => None) (fun _ => None) (fun _ => None)
           (fun _ => Some None) (fun _ => Some (mk_StreamResponse true body)).

(** A library whose header decoder reads every picture as 50 by 50. *)
Definition thumbnail_lib : PyLib :=
  reference_lib (fun _ => Some (50, 50)) (fun _ => None) (fun _ _ => None)
                (fun _ _ _ => None) (fun _ => None).

(** Two pixels: one fully transparent, one opaque. *)
Definition rgba_image : Image :=
  mk_Image "RGBA" (2, 1) [[10; 20; 30; 0]; [10; 20; 30; 255]].

(** Three pixels of one colour: transparent, half transparent, opaque. *)
Definition rgba_veil : Image :=
  mk_Image "RGBA" (3, 1)
           [[10; 20; 30; 0]; [10; 20; 30; 128]; [10; 20; 30; 255]].

(** A library that decodes every file as [rgba_veil] and encodes every
    picture as the empty file. *)
Definition studio_lib : PyLib :=
  reference_lib (fun _ => None) (fun _ => Some rgba_veil) (fun _ _ => None)
                (fun _ _ _ => Some []) (fun _ => None).

(** Every GET request is answered, with an empty body. *)
Definition image_world : World :=
  mk_World (fun _ => None) (fun _ => None)
           (fun _ => Some (mk_Response true [] (mk_Soup None None [] [] [])))
           (fun _ => None) (fun _ => None).

(** The same URL three times (60, 60, 80) around another one. *)
Definition duplicates : list Candidate :=
  [ mk_Candidate plain_url 60 "trafilatura";
    mk_Candidate gif_url 60 "newspaper";
    mk_Candidate plain_url 60 "soup";
    mk_Candidate plain_url 80 "opengraph";
    mk_Candidate plain_url 80 "schema" ].

(** Three URLs, two of them with the same score. *)
Definition tied : list Candidate :=
  [ mk_Candidate plain_url 60 "soup";
    mk_Candidate hero_url 80 "newspaper";
    mk_Candidate gif_url 60 "soup" ].

(** [tied] by descending score, the two 60s in their order. *)
Definition tied_ranked : list Candidate :=
  [ mk_Candidate hero_url 80 "newspaper";
    mk_Candidate plain_url 60 "soup";
    mk_Candidate gif_url 60 "soup" ].

(** * Further definitions *)

(** ** File names: [sanitize_filename] *)

Module Text.

(** [s.lstrip(chars)] for the characters [p] accepts. *)
Fixpoint lstrip_by (p : ascii -> bool) (s : string) : string :=
  match s with
  | EmptyString => EmptyString
  | String c r => if p c then lstrip_by p r else s
  end.

(** [s.rstrip(chars)] *)
Fixpoint rstrip_by (p : ascii -> bool) (s : string) : string :=
  match s with
  | EmptyString => EmptyString
  | String c r =>
      match rstrip_by p r with
      | EmptyString => if p c then EmptyString else String c EmptyString
      | kept => String c kept
      end
  end.

(** [s.strip(chars)] *)
Definition strip_by (p : ascii -> bool) (s : string) : string :=
  rstrip_by p (lstrip_by p s).

(** [s[:n]] *)
Fixpoint take (n : nat) (s : string) : string :=
  match n, s with
  | O, _ => EmptyString
  | S _, EmptyString => EmptyString
  | S m, String c r => String c (take m r)
  end.

(** [re.sub(r'\s+', ' ', s)]: every run of blanks becomes one space;
    [in_run] tells that the character before was a blank. *)
Fixpoint collapse_blanks (in_run : bool) (s : string) : string :=
  match s with
  | EmptyString => EmptyString
  | String c r =>
      if Str.is_space c then
        if in_run then collapse_blanks true r
        else String " " (collapse_blanks true r)
      else String c (collapse_blanks false r)
  end.

(** [re.sub(class, replacement, s)] for a class of single characters. *)
Fixpoint replace_chars (p : ascii -> bool) (by_char : ascii) (s : string)
  : string :=
  match s with
  | EmptyString => EmptyString
  | String c r =>
      String (if p c then by_char else c) (replace_chars p by_char r)
  end.

(** Every character of [s] passes [p]. *)
Fixpoint every_char (p : ascii -> bool) (s : string) : bool :=
  match s with
  | EmptyString => true
  | String c r => p c && every_char p r
  end.

(** The first character of [s], if any, does not pass [p]. *)
Definition first_not (p : ascii -> bool) (s : string) : bool :=
  match s with
  | EmptyString => true
  | String c _ => negb (p c)
  end.

(** The last character of [s], if any, does not pass [p]. *)
Fixpoint last_not (p : ascii -> bool) (s : string) : bool :=
  match s with
  | EmptyString => true
  | String c EmptyString => negb (p c)
  | String _ r => last_not p r
  end.

(** Blanks are spaces and no two of them are adjacent; [after_blank]
    tells that the character before was one. *)
Fixpoint spaced (after_blank : bool) (s : string) : bool :=
  match s with
  | EmptyString => true
  | String c r =>
      if Str.is_space c
      then Ascii.eqb c " " && negb after_blank && spaced true r
      else spaced false r
  end.

End Text.

(** The double quote. *)
Definition double_quote : ascii := ascii_of_nat 34.

(** The character is an ASCII character: on text made of these, one
    character is one code point, and [\s], [strip()] and [[:100]] of
    Python are what [Str.is_space] and [Text.take] are here. *)
Definition is_ascii (c : ascii) : bool := Nat.ltb (nat_of_ascii c) 128.

(** The character class of the first substitution of [sanitize_filename]:
    the two angle brackets, the colon, the double quote, the slash, the
    backslash, the bar, the question mark and the star. *)
Definition illegal_filename_char (c : ascii) : bool :=
  existsb (Ascii.eqb c)
    [ "<"%char; ">"%char; ":"%char; double_quote; "/"%char; Re.backslash;
      "|"%char; "?"%char; "*"%char ].

(** The characters of [strip('. ')]. *)
Definition dot_or_space (c : ascii) : bool :=
  Ascii.eqb c "." || Ascii.eqb c " ".

(** [sanitize_filename], on ASCII text: there one character is one code
    point, the blanks of [\s] and [strip()] are those of [Str.is_space],
    and [[:100]] keeps the first hundred characters.  (On other text
    Python also takes the Unicode blanks for blanks.) *)
Definition sanitize_filename (filename : string) : string :=
  let filename := Text.replace_chars illegal_filename_char "_" filename in
  let filename :=
    Text.take 100
      (Text.collapse_blanks false (Text.strip_by Str.is_space filename)) in
  let filename := Text.strip_by dot_or_space filename in
  if Str.truthy filename then filename else "unnamed_article".

(** ** Notions used by the further properties *)

(** The strings of [l] in the order of their first appearance, after those
    already in [acc]. *)
Fixpoint first_seen (l acc : list string) : list string :=
  match l with
  | [] => acc
  | u :: rest =>
      first_seen rest (if Str.mem u acc then acc else (acc ++ [u])%list)
  end.

(** No event of [t] has the property [P]. *)
Definition avoids (P : Event -> Prop) (t : list Event) : Prop :=
  forall e, In e t -> ~ P e.

(** The event is the warning of a failed strategy. *)
Definition is_method_failed (e : Event) : Prop :=
  exists method url, e = LogWarning (MethodFailed method url).

(** The event is the warning of the last branch of the selection. *)
Definition is_no_valid_images (e : Event) : Prop :=
  exists url, e = LogWarning (NoValidImages url).

(** One iteration of an extraction loop either leaves the state or appends
    one candidate of source [src] whose URL was not seen before. *)
Definition fresh_step (src : string) (st st' : Found) : Prop :=
  st' = st \/
  exists c,
    cand_source c = src /\ Str.mem (cand_url c) (snd st) = false /\
    st' = add_image st c.

(** The state of a loop that started from the candidates [base]: what was
    appended has source [src] and pairwise distinct URLs that do not occur
    in [base], and every URL in hand is in [seen_urls]. *)
Definition appended_fresh (base : list Candidate) (src : string) (st : Found)
  : Prop :=
  exists found,
    fst st = (base ++ found)%list /\
    Forall (fun c => cand_source c = src) found /\
    NoDup (map cand_url found) /\
    (forall e, In e found -> ~ In (cand_url e) (map cand_url base)) /\
    (forall u, In u (map cand_url (fst st)) -> In u (snd st)).

(** The words a pattern matches in full: the usual reading of regular
    expressions, against which the derivative matcher is checked. *)
Inductive matches (ic : bool) : Re.regex -> string -> Prop :=
| matches_eps : matches ic Re.Eps EmptyString
| matches_chr (d c : ascii) :
    Re.same_char ic d c = true ->
    matches ic (Re.Chr d) (String c EmptyString)
| matches_any (c : ascii) :
    Ascii.eqb c Re.newline = false ->
    matches ic Re.AnyChar (String c EmptyString)
| matches_digit (c : ascii) :
    Re.is_digit c = true -> matches ic Re.Digit (String c EmptyString)
| matches_one_of (cs : list ascii) (c : ascii) :
    existsb (fun d => Re.same_char ic d c) cs = true ->
    matches ic (Re.OneOf cs) (String c EmptyString)
| matches_cat (a b : Re.regex) (u v : string) :
    matches ic a u -> matches ic b v -> matches ic (Re.Cat a b) (u ++ v)
| matches_alt_l (a b : Re.regex) (w : string) :
    matches ic a w -> matches ic (Re.Alt a b) w
| matches_alt_r (a b : Re.regex) (w : string) :
    matches ic b w -> matches ic (Re.Alt a b) w
| matches_star_nil (a : Re.regex) : matches ic (Re.Star a) EmptyString
| matches_star_cons (a : Re.regex) (u v : string) :
    matches ic a u -> matches ic (Re.Star a) v ->
    matches ic (Re.Star a) (u ++ v).

(** The alternatives at the top of a pattern. *)
Fixpoint alternatives (r : Re.regex) : list Re.regex :=
  match r with
  | Re.Alt a b => (alternatives a ++ alternatives b)%list
  | other => [other]
  end.

(** The pattern of a plain word, as [Re.compile] builds it: its characters
    concatenated from the left. *)
Fixpoint literal_from (acc : Re.regex) (t : string) : Re.regex :=
  match t with
  | EmptyString => acc
  | String c r => literal_from (Re.Cat acc (Re.Chr c)) r
  end.

Definition literal (t : string) : Re.regex :=
  match t with
  | EmptyString => Re.Eps
  | String c r => literal_from (Re.Chr c) r
  end.

(** The entries of [exclude_patterns] that are plain words, with their
    escapes removed. *)
Definition exclude_words : list string :=
  [ "logo"; "icon"; "favicon"; "avatar"; "profile";
    "advertisement"; "banner"; "widget";
    "social"; "share"; "button"; "arrow"; "play";
    "facebook.com/tr"; "google-analytics"; "googletagmanager";
    "doubleclick"; "googlesyndication"; "adsystem";
    "pixel?"; "track?"; "beacon?"; "analytics";
    "1x1.gif"; "transparent.gif"; "spacer.gif" ].

(** The filter keeps the URL of the candidate. *)
Definition kept {lib : PyLib} (c : Candidate) : Prop :=
  _should_exclude_image_url (cand_url c) = Some false.

(** ** Articles: [process_article] and [run_pipeline]

    The article level has its own log lines and its own files; the events
    of the image functions are carried along inside [Inner].  The model
    follows the runs that no [KeyboardInterrupt] cuts short. *)

(** What a log line of the article level says.  A title is printed as
    whatever JSON value the article carries. *)
Inductive Notice : Type :=
| NoUrlFound (json_file_path : string)
| Processing (title : Json)
| NoSuitableImage (title : Json)
| DownloadedBest (title : Json) (score : Z)
| FailedToDownload (title : Json)
| Completed (title : Json) (image_score : option Z)
| FailedToProcess (json_file_path : string)
| NoJsonFiles
| FoundJsonFiles (n : Z)
| UnexpectedError (json_file : string)
| PipelineCompleted (successful total : Z).

Inductive Step : Type :=
| Inner (e : Event)
| Info (n : Notice)
| Warning (n : Notice)
| Failure (n : Notice)
| DirEnsured (path : string)                (* [mkdir(exist_ok=True)] returned *)
| JsonSaved (path : string) (data : Json)   (* [json.dump] returned *)
| JsonLeftPartial (path : string).          (* opened for writing, not dumped *)

(** The file system, the clock and [pathlib], through the calls the two
    functions make. *)
Record Files : Type := mk_Files {
  (** [self.output_folder] *)
  output_folder : string;
  (** [self.input_folder.glob('*.json')], listed *)
  glob_json : option (list string);
  (** [path / name] *)
  joinpath : string -> string -> string;
  (** [str(path.relative_to(base))]; [None] is [ValueError]. *)
  relative_to : string -> string -> option string;
  (** [json.load] of the opened file; [None] is any failure to open,
      decode or parse. *)
  json_load : string -> option Json;
  (** [path.mkdir(exist_ok=True)] returns. *)
  mkdir : string -> bool;
  (** Opening [path] for writing and [json.dump] of the data return. *)
  json_dump : string -> Json -> bool;
  (** When they do not both return: [open(path, 'w')] had returned, so
      that the file is left empty or partly written. *)
  json_dump_opened : string -> Json -> bool;
  (** [time.time()] *)
  time_time : Json;
  (** What [scrape_article_images] returns, and logs, for a URL that is a
      true JSON value but not a string: the libraries are then called on
      a value they are not written for, and the strategies catch what
      they raise. *)
  scrape_other : Json -> option Candidate * list Event
}.

(** A computation of the article level. *)
Definition Run (A : Type) : Type := (option A * list Step)%type.

Definition done {A : Type} (a : A) : Run A := (Some a, []).

Definition raised {A : Type} : Run A := (None, []).

Definition and_then {A B : Type} (m : Run A) (f : A -> Run B) : Run B :=
  match m with
  | (Some a, t) => let (r, t') := f a in (r, (t ++ t')%list)
  | (None, t) => (None, t)
  end.

Definition attempt {A : Type} (o : option A) : Run A := (o, []).

Definition note (s : Step) : Run unit := (Some tt, [s]).

(** A call of one of the image functions. *)
Definition lift {A : Type} (m : M A) : Run A :=
  (result m, map Inner (trace m)).

(** [try: body except Exception: handler] *)
Definition guarded {A : Type} (body handler : Run A) : Run A :=
  match body with
  | (Some a, t) => (Some a, t)
  | (None, t) => let (r, t') := handler in (r, (t ++ t')%list)
  end.

Definition outcome {A : Type} (m : Run A) : option A := fst m.
Definition steps {A : Type} (m : Run A) : list Step := snd m.

Declare Scope article_scope.
Delimit Scope article_scope with article.
Notation "x <- m ;; k" := (and_then m (fun x => k))
  (at level 61, m at next level, right associativity) : article_scope.
Notation "m ;; k" := (and_then m (fun _ => k))
  (at level 61, right associativity) : article_scope.

(** [for x in xs: state = body(state, x)] *)
Fixpoint for_all {A S : Type} (xs : list A) (body : S -> A -> Run S) (s : S)
  : Run S :=
  match xs with
  | [] => done s
  | x :: rest => and_then (body s x) (for_all rest body)
  end.

(** [d[key] = v] on a JSON object: a key already there keeps its place. *)
Fixpoint dict_put (key : string) (v : Json) (d : list (string * Json))
  : list (string * Json) :=
  match d with
  | [] => [(key, v)]
  | (k, old) :: rest =>
      if String.eqb k key then (k, v) :: rest
      else (k, old) :: dict_put key v rest
  end.

(** [d.get(key, default)] *)
Definition json_get_default (key : string) (default : Json)
  (d : list (string * Json)) : Json :=
  if json_has key d then json_get key d else default.

(** The [image_info] dictionary of a downloaded image. *)
Definition image_info_of (best_image_data : Candidate) (local_path : string)
  : Json :=
  JDict [ ("url", JStr (cand_url best_image_data));
          ("filename", JStr "image.jpg");
          ("local_path", JStr local_path);
          ("relevance_score", JNum (cand_score best_image_data));
          ("source_method", JStr (cand_source best_image_data)) ].

(** The counters of [run_pipeline]. *)
Record Stats : Type := mk_Stats {
  total : Z;
  successful : Z;
  failed : Z
}.

Section Articles.

Context {lib : PyLib}.
Variable W : World.
Variable F : Files.

Local Open Scope article_scope.

(** [self.scrape_article_images(url)] on the [url] of the article. *)
Definition scrape (url : Json) : Run (option Candidate) :=
  match url with
  | JStr u => lift (scrape_article_images W u)
  | other =>
      let (best_image_data, log) := scrape_other F other in
      (Some best_image_data, map Inner log)
  end.

(** Lines 840-846 and 868-875: the two assignments and the dump.  When
    the dump raises after the file was opened, the file stays behind
    empty or partly written. *)
Definition save_article (article_folder : string)
  (article_data : list (string * Json)) (image_info : Json) : Run unit :=
  let article_data := dict_put "image" image_info article_data in
  let article_data :=
    dict_put "processing_timestamp" (time_time F) article_data in
  let output_json_path := joinpath F article_folder "article_data.json" in
  if json_dump F output_json_path (JDict article_data)
  then note (JsonSaved output_json_path (JDict article_data))
  else if json_dump_opened F output_json_path (JDict article_data)
  then note (JsonLeftPartial output_json_path) ;; raised
  else raised.

(** [process_article]; [.get] raises on a document that is not an object
    and [sanitize_filename] on a title that is not a string. *)
Definition process_article (json_file_path : string) : Run bool :=
  guarded
    (article_data <- attempt (json_load F json_file_path) ;;
     article_data <-
       match article_data with
       | JDict fields => done fields
       | _ => raised
       end ;;
     let title := json_get_default "title" (JStr "Untitled") article_data in
     let url := json_get "url" article_data in
     if negb (json_truthy url) then
       note (Failure (NoUrlFound json_file_path)) ;;
       done false
     else
       note (Info (Processing title)) ;;
       folder_name <-
         match title with
         | JStr s => done (sanitize_filename s)
         | _ => raised
         end ;;
       let article_folder := joinpath F (output_folder F) folder_name in
       (if mkdir F article_folder then note (DirEnsured article_folder)
        else raised) ;;
       best_image_data <- scrape url ;;
       match best_image_data with
       | None =>
           note (Warning (NoSuitableImage title)) ;;
           save_article article_folder article_data JNull ;;
           done true
       | Some best_image_data =>
           let img_filename := "image" in
           let img_path := joinpath F article_folder img_filename in
           downloaded <-
             lift (download_image W (cand_url best_image_data) img_path) ;;
           image_info <-
             (if downloaded : bool then
                local_path <-
                  attempt (relative_to F (joinpath F article_folder "image.jpg")
                             (output_folder F)) ;;
                note (Info (DownloadedBest title (cand_score best_image_data))) ;;
                done (image_info_of best_image_data local_path)
              else
                note (Failure (FailedToDownload title)) ;;
                done JNull) ;;
           save_article article_folder article_data image_info ;;
           note (Info (Completed title
                         (if json_truthy image_info
                          then Some (cand_score best_image_data)
                          else None))) ;;
           done true
       end)
    (note (Failure (FailedToProcess json_file_path)) ;; done false).

(** One turn of the loop of [run_pipeline] on the counters
    [(successful, failed)]. *)
Definition count_article (counters : Z * Z) (json_file : string)
  : Run (Z * Z) :=
  let (successful, failed) := counters in
  guarded
    (ok <- process_article json_file ;;
     if ok : bool then done (successful + 1, failed)
     else done (successful, failed + 1))
    (note (Failure (UnexpectedError json_file)) ;;
     done (successful, failed + 1)).

(** [run_pipeline] *)
Definition run_pipeline : Run Stats :=
  json_files <- attempt (glob_json F) ;;
  match json_files with
  | [] =>
      note (Warning NoJsonFiles) ;;
      done (mk_Stats 0 0 0)
  | _ =>
      let n := Z.of_nat (length json_files) in
      note (Info (FoundJsonFiles n)) ;;
      counters <- for_all json_files count_article (0, 0) ;;
      note (Info (PipelineCompleted (fst counters) n)) ;;
      done (mk_Stats n (fst counters) (snd counters))
  end.

(** The file [path] with the content [data] is the record of the article
    read from [json_file_path]: it lies in the folder named after the
    sanitised title, and it is the article's own object with [image] and
    [processing_timestamp] assigned, the image being null or the
    description of the image the scraper returned. *)
Definition article_record_of (json_file_path path : string) (data : Json)
  : Prop :=
  exists fields s image_info,
    json_load F json_file_path = Some (JDict fields) /\
    json_get_default "title" (JStr "Untitled") fields = JStr s /\
    json_truthy (json_get "url" fields) = true /\
    path = joinpath F (joinpath F (output_folder F) (sanitize_filename s))
             "article_data.json" /\
    data = JDict (dict_put "processing_timestamp" (time_time F)
                    (dict_put "image" image_info fields)) /\
    (image_info = JNull \/
     exists best local_path,
       outcome (scrape (json_get "url" fields)) = Some (Some best) /\
       image_info = image_info_of best local_path).

(** [process_article] returned [True] for the file. *)
Definition processed (json_file : string) : bool :=
  match outcome (process_article json_file) with
  | Some true => true
  | _ => false
  end.

End Articles.

(** The JSON files a run saved, in order. *)
Fixpoint saved_json (t : list Step) : list (string * Json) :=
  match t with
  | [] => []
  | JsonSaved path data :: rest => (path, data) :: saved_json rest
  | _ :: rest => saved_json rest
  end.

(** The JSON files a run left empty or partly written, in order. *)
Fixpoint partial_json (t : list Step) : list string :=
  match t with
  | [] => []
  | JsonLeftPartial path :: rest => path :: partial_json rest
  | _ :: rest => partial_json rest
  end.

(** The run touched no JSON file. *)
Definition silent {A : Type} (m : Run A) : Prop :=
  saved_json (steps m) = [] /\ partial_json (steps m) = [].

(** The run returned [True] after saving one file that [Q] describes and
    leaving none partly written, or it ended otherwise, saved nothing and
    left at most one file partly written, which [P] describes. *)
Definition settles (Q : string -> Json -> Prop) (P : string -> Prop)
  (m : Run bool) : Prop :=
  match outcome m with
  | Some true =>
      partial_json (steps m) = [] /\
      exists path data, saved_json (steps m) = [(path, data)] /\ Q path data
  | _ =>
      saved_json (steps m) = [] /\
      (partial_json (steps m) = [] \/
       exists path, partial_json (steps m) = [path] /\ P path)
  end.

(** ** Example folders

    A folder with one article file; every operation on the disk succeeds,
    paths are joined with a slash, and a path is made relative by dropping
    the base and the slash after it. *)
Definition example_files (doc : Json) : Files :=
  mk_Files "out" (Some ["story.json"])
           (fun path name => path ++ "/" ++ name)
           (fun path base =>
              Some (substring (String.length base + 1)
                              (String.length path) path))
           (fun _ => Some doc) (fun _ => true) (fun _ _ => true)
           (fun _ _ => true) (JNum 0) (fun _ => (None, [])).

(** The same folder on a full disk: the record can be opened for writing
    but not be written out. *)
Definition full_disk (doc : Json) : Files :=
  mk_Files "out" (Some ["story.json"])
           (fun path name => path ++ "/" ++ name)
           (fun path base =>
              Some (substring (String.length base + 1)
                              (String.length path) path))
           (fun _ => Some doc) (fun _ => true) (fun _ _ => false)
           (fun _ _ => true) (JNum 0) (fun _ => (None, [])).

(** An article with a title and the address [url]. *)
Definition example_article (url : Json) : Json :=
  JDict [("title", JStr "A  story: part 1"); ("url", url)].

(** * Proofs *)

(** ** The effect monad *)

Lemma result_bind_some (A B : Type) (m : M A) (f : A -> M B) (b : B) :
  result (bind m f) = Some b ->
  exists a, result m = Some a /\ result (f a) = Some b.
Proof.
  unfold result, bind. destruct m as [[a|] t]; simpl.
  - destruct (f a) as [r t'] eqn:E. simpl. intros ->. exists a. rewrite E. auto.
  - discriminate.
Qed.

Lemma result_bind (A B : Type) (m : M A) (f : A -> M B) (a : A) :
  result m = Some a -> result (bind m f) = result (f a).
Proof.
  unfold result, bind. destruct m as [[x|] t]; simpl; [|discriminate].
  intros [= ->]. destruct (f a); reflexivity.
Qed.

Lemma result_bind_none (A B : Type) (m : M A) (f : A -> M B) :
  result m = None -> result (bind m f) = None.
Proof.
  unfold result, bind. destruct m as [[x|] t]; simpl; [discriminate|auto].
Qed.

Lemma trace_bind (A B : Type) (m : M A) (f : A -> M B) (a : A) :
  result m = Some a -> trace (bind m f) = (trace m ++ trace (f a))%list.
Proof.
  unfold result, trace, bind. destruct m as [[x|] t]; simpl; [|discriminate].
  intros [= ->]. destruct (f a); reflexivity.
Qed.

Lemma trace_bind_none (A B : Type) (m : M A) (f : A -> M B) :
  result m = None -> trace (bind m f) = trace m.
Proof.
  unfold result, trace, bind. destruct m as [[x|] t]; simpl; [discriminate|auto].
Qed.

Lemma result_call (A : Type) (o : option A) : result (call o) = o.
Proof. reflexivity. Qed.

Lemma trace_call (A : Type) (o : option A) : trace (call o) = [].
Proof. reflexivity. Qed.

Lemma result_try_except (A : Type) (body handler : M A) :
  result (try_except body handler) =
  match result body with
  | Some a => Some a
  | None => result handler
  end.
Proof.
  unfold result, try_except. destruct body as [[a|] t]; simpl; auto.
  destruct handler; reflexivity.
Qed.

Lemma trace_try_except (A : Type) (body handler : M A) :
  trace (try_except body handler) =
  match result body with
  | Some _ => trace body
  | None => (trace body ++ trace handler)%list
  end.
Proof.
  unfold result, trace, try_except. destruct body as [[a|] t]; simpl; auto.
  destruct handler; reflexivity.
Qed.

(** A loop keeps what every iteration keeps. *)
Lemma for_each_invariant (A S : Type) (P : S -> Prop) (body : S -> A -> M S)
  (xs : list A) :
  (forall s x s', P s -> result (body s x) = Some s' -> P s') ->
  forall s s', P s -> result (for_each xs body s) = Some s' -> P s'.
Proof.
  intros Hbody. induction xs as [|x rest IH]; simpl; intros s s' Hs Hr.
  - inversion Hr. subst. exact Hs.
  - apply result_bind_some in Hr. destruct Hr as [s1 [H1 H2]].
    eapply IH; [|exact H2]. eapply Hbody; eauto.
Qed.

(** ** The dictionary of the merge *)

Lemma dict_get_set_same (k : string) (v : Candidate) (d : Dict) :
  dict_get k (dict_set k v d) = Some v.
Proof.
  induction d as [|[k' v'] rest IH]; simpl.
  - rewrite String.eqb_refl. reflexivity.
  - destruct (String.eqb k' k) eqn:E; simpl; rewrite E; auto.
Qed.

Lemma dict_get_set_other (k k' : string) (v : Candidate) (d : Dict) :
  k' <> k -> dict_get k' (dict_set k v d) = dict_get k' d.
Proof.
  intros Hne. induction d as [|[k0 v0] rest IH]; simpl.
  - destruct (String.eqb k k') eqn:E; auto.
    apply String.eqb_eq in E. congruence.
  - destruct (String.eqb k0 k) eqn:E; simpl.
    + apply String.eqb_eq in E. subst.
      destruct (String.eqb k k') eqn:E'; auto.
      apply String.eqb_eq in E'. congruence.
    + rewrite IH. reflexivity.
Qed.

Lemma dict_get_none (k : string) (d : Dict) :
  dict_get k d = None <-> ~ In k (map fst d).
Proof.
  induction d as [|[k' v'] rest IH]; simpl.
  - tauto.
  - destruct (String.eqb k' k) eqn:E.
    + apply String.eqb_eq in E. split; [discriminate|]. intros H. exfalso. auto.
    + apply String.eqb_neq in E. rewrite IH. tauto.
Qed.

Lemma dict_get_in (k : string) (v : Candidate) (d : Dict) :
  dict_get k d = Some v -> In (k, v) d.
Proof.
  induction d as [|[k' v'] rest IH]; simpl; [discriminate|].
  destruct (String.eqb k' k) eqn:E.
  - apply String.eqb_eq in E. intros [= ->]. subst. auto.
  - auto.
Qed.

Lemma in_dict_get (k : string) (v : Candidate) (d : Dict) :
  NoDup (map fst d) -> In (k, v) d -> dict_get k d = Some v.
Proof.
  induction d as [|[k' v'] rest IH]; simpl; [tauto|].
  intros Hnd Hin. inversion Hnd as [|? ? Hnot Hnd']. subst.
  destruct Hin as [[= -> ->]|Hin].
  - rewrite String.eqb_refl. reflexivity.
  - destruct (String.eqb k' k) eqn:E; auto.
    apply String.eqb_eq in E. subst. exfalso. apply Hnot.
    change k with (fst (k, v)). apply in_map. exact Hin.
Qed.

Lemma keys_set_present (k : string) (v : Candidate) (d : Dict) :
  dict_get k d <> None -> map fst (dict_set k v d) = map fst d.
Proof.
  induction d as [|[k' v'] rest IH]; simpl; [congruence|].
  destruct (String.eqb k' k) eqn:E; simpl; intros H.
  - reflexivity.
  - rewrite IH; auto.
Qed.

Lemma keys_set_absent (k : string) (v : Candidate) (d : Dict) :
  dict_get k d = None -> map fst (dict_set k v d) = (map fst d ++ [k])%list.
Proof.
  induction d as [|[k' v'] rest IH]; simpl; auto.
  destruct (String.eqb k' k) eqn:E; simpl; [discriminate|].
  intros H. rewrite IH; auto.
Qed.

Lemma first_best_in (v : Candidate) (l : list Candidate) :
  first_best v l -> In v l.
Proof.
  intros [l1 [l2 [-> _]]]. apply in_or_app. right. left. reflexivity.
Qed.

Lemma first_best_max (v e : Candidate) (l : list Candidate) :
  first_best v l -> In e l -> cand_url e = cand_url v ->
  cand_score e <= cand_score v.
Proof.
  intros [l1 [l2 [-> [Hb Ha]]]] Hin Hu.
  apply in_app_or in Hin. destruct Hin as [Hin|[<-|Hin]].
  - specialize (Hb e Hin Hu). lia.
  - lia.
  - auto.
Qed.

Lemma first_best_keep (v x : Candidate) (l : list Candidate) :
  first_best v l ->
  (cand_url x = cand_url v -> cand_score x <= cand_score v) ->
  first_best v (l ++ [x]).
Proof.
  intros [l1 [l2 [-> [Hb Ha]]]] Hx.
  exists l1, (l2 ++ [x])%list. split; [|split]; auto.
  - rewrite <- app_assoc. reflexivity.
  - intros e Hin Hu. apply in_app_or in Hin. destruct Hin as [Hin|[<-|[]]]; auto.
Qed.

Lemma first_best_new (x : Candidate) (l : list Candidate) :
  (forall e, In e l -> cand_url e = cand_url x -> cand_score e < cand_score x) ->
  first_best x (l ++ [x]).
Proof.
  intros H. exists l, []. split; [|split]; auto.
  intros e [].
Qed.

Lemma merged_nil : merged [] [].
Proof.
  constructor; simpl.
  - constructor.
  - discriminate.
  - tauto.
Qed.

Lemma merged_step (l : list Candidate) (d : Dict) (x : Candidate) :
  merged l d -> merged (l ++ [x]) (merge_step d x).
Proof.
  intros [Hnd Hent Hcov]. unfold merge_step.
  destruct (dict_get (cand_url x) d) as [kept|] eqn:Hget.
  - destruct (Hent _ _ Hget) as [Hk Hfb].
    destruct (cand_score x >? cand_score kept) eqn:Hgt.
    + apply Z.gtb_lt in Hgt. constructor.
      * rewrite keys_set_present; [exact Hnd|congruence].
      * intros k v Hkv. destruct (String.eqb_spec k (cand_url x)) as [->|Hne].
        -- rewrite dict_get_set_same in Hkv. inversion Hkv. subst v.
           split; [reflexivity|]. apply first_best_new.
           intros e Hin Hu.
           assert (cand_score e <= cand_score kept)
             by (apply first_best_max with (l := l); [exact Hfb|exact Hin|congruence]).
           lia.
        -- rewrite dict_get_set_other in Hkv by exact Hne.
           destruct (Hent _ _ Hkv) as [Hu Hf]. split; [exact Hu|].
           apply first_best_keep; [exact Hf|]. intros E. congruence.
      * intros e Hin. apply in_app_or in Hin.
        destruct (String.eqb_spec (cand_url e) (cand_url x)) as [->|Hne].
        -- rewrite dict_get_set_same. discriminate.
        -- rewrite dict_get_set_other by exact Hne.
           destruct Hin as [Hin|[<-|[]]]; [auto|congruence].
    + assert (cand_score x <= cand_score kept).
      { destruct (Z.gtb_spec (cand_score x) (cand_score kept)); [discriminate|lia]. }
      constructor.
      * exact Hnd.
      * intros k v Hkv. destruct (Hent _ _ Hkv) as [Hu Hf]. split; [exact Hu|].
        apply first_best_keep; [exact Hf|]. intros E.
        assert (v = kept) by congruence. subst. lia.
      * intros e Hin. apply in_app_or in Hin.
        destruct Hin as [Hin|[<-|[]]]; [auto|congruence].
  - constructor.
    + rewrite keys_set_absent by exact Hget.
      apply NoDup_app; [exact Hnd|constructor; [tauto|constructor]|].
      intros k Hin [<-|[]]. apply dict_get_none in Hget. tauto.
    + intros k v Hkv. destruct (String.eqb_spec k (cand_url x)) as [->|Hne].
      * rewrite dict_get_set_same in Hkv. inversion Hkv. subst v.
        split; [reflexivity|]. apply first_best_new.
        intros e Hin Hu. exfalso. apply (Hcov e Hin). congruence.
      * rewrite dict_get_set_other in Hkv by exact Hne.
        destruct (Hent _ _ Hkv) as [Hu Hf]. split; [exact Hu|].
        apply first_best_keep; [exact Hf|]. intros E. congruence.
    + intros e Hin. apply in_app_or in Hin.
      destruct (String.eqb_spec (cand_url e) (cand_url x)) as [->|Hne].
      * rewrite dict_get_set_same. discriminate.
      * rewrite dict_get_set_other by exact Hne.
        destruct Hin as [Hin|[<-|[]]]; [auto|congruence].
Qed.

Lemma merge_by_url_snoc (l : list Candidate) (x : Candidate) :
  merge_by_url (l ++ [x]) = merge_step (merge_by_url l) x.
Proof. unfold merge_by_url. rewrite fold_left_app. reflexivity. Qed.

Lemma merge_by_url_merged (l : list Candidate) : merged l (merge_by_url l).
Proof.
  induction l as [|x l IH] using rev_ind.
  - exact merged_nil.
  - rewrite merge_by_url_snoc. apply merged_step. exact IH.
Qed.

Lemma merged_keys (l : list Candidate) (d : Dict) :
  merged l d -> map cand_url (dict_values d) = map fst d.
Proof.
  intros [Hnd Hent _]. unfold dict_values. rewrite map_map.
  apply map_ext_in. intros [k v] Hin. simpl.
  apply in_dict_get in Hin; [|exact Hnd]. apply Hent in Hin. tauto.
Qed.

Lemma merged_value (l : list Candidate) (d : Dict) (e : Candidate) :
  merged l d -> In e (dict_values d) -> first_best e l.
Proof.
  intros Hm Hin. unfold dict_values in Hin. apply in_map_iff in Hin.
  destruct Hin as [[k v] [<- Hin]]. simpl.
  apply in_dict_get in Hin; [|apply (@merged_nodup _ _ Hm)].
  apply (@merged_entry _ _ Hm) in Hin. tauto.
Qed.

(** ** The sort *)

Lemma insert_by_score_perm (c : Candidate) (s : list Candidate) :
  Permutation (c :: s) (insert_by_score c s).
Proof.
  induction s as [|d rest IH]; simpl.
  - apply Permutation_refl.
  - destruct (cand_score d >? cand_score c).
    + eapply Permutation_trans; [apply perm_swap|]. apply perm_skip. exact IH.
    + apply Permutation_refl.
Qed.

Lemma sort_by_score_perm (l : list Candidate) :
  Permutation l (sort_by_score l).
Proof.
  induction l as [|c rest IH]; simpl.
  - apply Permutation_refl.
  - eapply Permutation_trans; [apply perm_skip; exact IH|].
    apply insert_by_score_perm.
Qed.

Lemma insert_by_score_descending (c : Candidate) (s : list Candidate) :
  descending s -> descending (insert_by_score c s).
Proof.
  unfold descending. induction s as [|d rest IH]; simpl; intros Hs.
  - constructor; constructor.
  - apply StronglySorted_inv in Hs. destruct Hs as [Hrest Hd].
    destruct (Z.gtb_spec (cand_score d) (cand_score c)) as [Hgt|Hle].
    + constructor; [apply IH; exact Hrest|].
      apply Forall_forall. intros e He.
      apply (Permutation_in _ (Permutation_sym (insert_by_score_perm c rest))) in He.
      destruct He as [<-|He]; [lia|].
      rewrite Forall_forall in Hd. auto.
    + constructor; [constructor; assumption|].
      constructor; [lia|].
      eapply Forall_impl; [|exact Hd]. simpl. intros e He. lia.
Qed.

Lemma sort_by_score_descending (l : list Candidate) :
  descending (sort_by_score l).
Proof.
  induction l as [|c rest IH]; simpl.
  - constructor.
  - apply insert_by_score_descending. exact IH.
Qed.

Lemma filter_insert_by_score (k : Z) (c : Candidate) (s : list Candidate) :
  filter (score_is k) (insert_by_score c s) = filter (score_is k) (c :: s).
Proof.
  induction s as [|d rest IH]; simpl; [reflexivity|].
  destruct (Z.gtb_spec (cand_score d) (cand_score c)) as [Hgt|Hle]; simpl.
  - rewrite IH. simpl. unfold score_is.
    destruct (Z.eqb_spec (cand_score d) k), (Z.eqb_spec (cand_score c) k);
      try reflexivity.
    lia.
  - reflexivity.
Qed.

Lemma sort_by_score_stable (k : Z) (l : list Candidate) :
  filter (score_is k) (sort_by_score l) = filter (score_is k) l.
Proof.
  induction l as [|c rest IH]; simpl; [reflexivity|].
  rewrite filter_insert_by_score. simpl. rewrite IH. reflexivity.
Qed.

Lemma sort_by_score_stable_descending (l : list Candidate) :
  stable_descending l (sort_by_score l).
Proof.
  split; [apply sort_by_score_perm|].
  split; [apply sort_by_score_descending|].
  intros k. apply sort_by_score_stable.
Qed.

(** Two descending lists with the same candidates and the same order
    within every score are the same list. *)
Lemma descending_same_filters (s1 : list Candidate) :
  forall s2,
    descending s1 -> descending s2 -> Permutation s1 s2 ->
    (forall k, filter (score_is k) s1 = filter (score_is k) s2) ->
    s1 = s2.
Proof.
  unfold descending.
  induction s1 as [|a r1 IH]; intros s2 H1 H2 Hp Hf.
  - apply Permutation_nil in Hp. auto.
  - destruct s2 as [|b r2].
    + apply Permutation_sym, Permutation_nil in Hp. discriminate.
    + apply StronglySorted_inv in H1. destruct H1 as [Hr1 Ha].
      apply StronglySorted_inv in H2. destruct H2 as [Hr2 Hb].
      rewrite Forall_forall in Ha, Hb.
      assert (Hab : cand_score a = cand_score b).
      { assert (In a (b :: r2)) as [<-|Hin]
          by (apply (Permutation_in _ Hp); left; reflexivity); [reflexivity|].
        assert (In b (a :: r1)) as [<-|Hin']
          by (apply (Permutation_in _ (Permutation_sym Hp)); left; reflexivity);
          [reflexivity|].
        specialize (Ha _ Hin'). specialize (Hb _ Hin). lia. }
      assert (Heq : a = b).
      { specialize (Hf (cand_score a)). simpl in Hf. unfold score_is in Hf.
        rewrite Z.eqb_refl in Hf. rewrite <- Hab, Z.eqb_refl in Hf.
        congruence. }
      subst b. f_equal. apply IH; auto.
      * eapply Permutation_cons_inv. exact Hp.
      * intros k. specialize (Hf k). simpl in Hf.
        destruct (score_is k a); congruence.
Qed.

Lemma stable_descending_unique (l s1 s2 : list Candidate) :
  stable_descending l s1 -> stable_descending l s2 -> s1 = s2.
Proof.
  intros [P1 [D1 F1]] [P2 [D2 F2]].
  apply descending_same_filters; auto.
  - eapply Permutation_trans; [apply Permutation_sym; exact P1|exact P2].
  - intros k. rewrite F1, F2. reflexivity.
Qed.

(** ** The fallback chain's running maximum *)

Lemma fold_left_max_ge (l : list Z) (a : Z) : a <= fold_left Z.max l a.
Proof.
  revert a. induction l as [|x r IH]; simpl; intros a; [lia|].
  specialize (IH (Z.max a x)). lia.
Qed.

Lemma fold_left_max_mono (l : list Z) (a b : Z) :
  a <= b -> fold_left Z.max l a <= fold_left Z.max l b.
Proof.
  revert a b. induction l as [|x r IH]; simpl; intros a b H; [lia|].
  apply IH. lia.
Qed.

Lemma fold_left_max_in (l : list Z) (a x : Z) :
  In x l -> x <= fold_left Z.max l a.
Proof.
  revert a. induction l as [|y r IH]; simpl; intros a; [tauto|].
  intros [->|Hin]; [|auto].
  pose proof (fold_left_max_ge r (Z.max a x)). lia.
Qed.

Lemma best_score_of_app (a b : list Candidate) :
  a <> [] -> best_score_of a <= best_score_of (a ++ b).
Proof.
  unfold best_score_of. destruct a as [|x r]; [congruence|]. intros _.
  simpl. rewrite map_app, fold_left_app. apply fold_left_max_ge.
Qed.

Lemma best_score_of_in (l : list Candidate) (c : Candidate) :
  In c l -> cand_score c <= best_score_of l.
Proof.
  unfold best_score_of. destruct l as [|x r]; simpl; [tauto|].
  intros [<-|Hin].
  - apply fold_left_max_ge.
  - apply fold_left_max_in. apply in_map. exact Hin.
Qed.

(** ** The scorer *)

Section ScorerFacts.

Context {lib : PyLib}.

Lemma score_image_relevance_range (u : string) (t : option Tag)
  (s a : string) (v : Z) :
  score_image_relevance u t s a = Some v -> 0 <= v <= 100.
Proof.
  unfold score_image_relevance. destruct (urlparse u); [|discriminate].
  intros [= <-]. lia.
Qed.

Lemma score_image_relevance_prior (u : string) (t : option Tag)
  (s s' a : string) :
  source_prior s = source_prior s' ->
  score_image_relevance u t s a = score_image_relevance u t s' a.
Proof.
  intros H. unfold score_image_relevance, unclamped_score. rewrite H.
  reflexivity.
Qed.

Lemma scored_range (c : Candidate) :
  scored c ->
  bonus_of (cand_source c) <= cand_score c <= 100 + bonus_of (cand_source c).
Proof.
  intros [t [v [Hs ->]]]. apply score_image_relevance_range in Hs. lia.
Qed.

End ScorerFacts.

(** Unfolds one monadic step of a hypothesis [result (...) = Some _]. *)
Tactic Notation "mstep" hyp(H) "as" ident(a) ident(Ha) :=
  apply result_bind_some in H; destruct H as [a [Ha H]];
  try (rewrite result_call in Ha).

Ltac msimpl H := unfold result, ret, raise, emit, call in H; simpl in H.

(** ** The extractors *)

Section ExtractorFacts.

Context {lib : PyLib}.
Variable W : World.

Lemma add_image_scored (st : Found) (c : Candidate) :
  all_scored st -> scored c -> all_scored (add_image st c).
Proof.
  unfold all_scored, add_image. simpl. intros H Hc.
  apply Forall_app. split; [exact H|]. constructor; [exact Hc|constructor].
Qed.

Lemma scored_plain (u : string) (t : option Tag) (s : string) (v : Z) :
  bonus_of s = 0 ->
  score_image_relevance u t s "" = Some v ->
  scored (mk_Candidate u v s).
Proof.
  intros Hb Hs. exists t, v. simpl. rewrite Hb. split; [exact Hs|lia].
Qed.

Lemma trafilatura_img_scored (url : string) (st st' : Found) (img : Tag) :
  all_scored st -> result (trafilatura_img url st img) = Some st' ->
  all_scored st'.
Proof.
  intros Hst H. unfold trafilatura_img in H.
  destruct (src_or_data_src (tag_el img)) as [src|]; [|msimpl H; congruence].
  destruct (Str.truthy src); [|msimpl H; congruence].
  mstep H as full_url Hu. destruct (Str.mem full_url (snd st)); [msimpl H; congruence|].
  mstep H as v Hv. msimpl H. inversion H. subst st'.
  apply add_image_scored; [exact Hst|].
  eapply scored_plain; [reflexivity|exact Hv].
Qed.

Lemma newspaper_img_scored (url : string) (st st' : Found) (img_url : string) :
  all_scored st -> result (newspaper_img url st img_url) = Some st' ->
  all_scored st'.
Proof.
  intros Hst H. unfold newspaper_img in H.
  mstep H as full_url Hu. destruct (Str.mem full_url (snd st)); [msimpl H; congruence|].
  mstep H as v Hv. msimpl H. inversion H. subst st'.
  apply add_image_scored; [exact Hst|].
  eapply scored_plain; [reflexivity|exact Hv].
Qed.

Lemma soup_img_scored (url : string) (st st' : Found) (img : Tag) :
  all_scored st -> result (soup_img url st img) = Some st' ->
  all_scored st'.
Proof.
  intros Hst H. unfold soup_img in H.
  destruct (any_src (tag_el img)) as [src|]; [|msimpl H; congruence].
  destruct (Str.truthy src); [|msimpl H; congruence].
  mstep H as full_url Hu. mstep H as excluded He.
  destruct excluded; [msimpl H; congruence|].
  destruct (Str.mem full_url (snd st)); [msimpl H; congruence|].
  mstep H as v Hv. msimpl H. inversion H. subst st'.
  apply add_image_scored; [exact Hst|].
  eapply scored_plain; [reflexivity|exact Hv].
Qed.

Lemma soup_source_scored (url : string) (st st' : Found) (source : Element) :
  all_scored st -> result (soup_source url st source) = Some st' ->
  all_scored st'.
Proof.
  intros Hst H. unfold soup_source in H.
  destruct (Dom.get "srcset" (el_attrs source)) as [srcset|];
    [|msimpl H; congruence].
  destruct (Str.truthy srcset); [|msimpl H; congruence].
  mstep H as full_url Hu. mstep H as excluded He.
  destruct (negb excluded && negb (Str.mem full_url (snd st)));
    [|msimpl H; congruence].
  mstep H as v Hv. msimpl H. inversion H. subst st'.
  apply add_image_scored; [exact Hst|].
  eapply scored_plain; [reflexivity|exact Hv].
Qed.

Lemma meta_scored_scored (c : Candidate) : meta_scored c -> scored c.
Proof. intros [_ [v H]]. exists None, v. exact H. Qed.

Lemma meta_candidate_scored (url : string) (tag : option Element)
  (method : string) (bonus : Z) (cs : list Candidate) :
  In method ["opengraph"; "twitter_card"; "schema"] ->
  bonus_of method = bonus ->
  result (meta_candidate url tag method bonus) = Some cs ->
  Forall meta_scored cs.
Proof.
  intros Hm Hb H. unfold meta_candidate in H.
  destruct tag as [t|]; [|msimpl H; inversion H; constructor].
  destruct (Dom.get "content" (el_attrs t)) as [c|];
    [|msimpl H; inversion H; constructor].
  destruct (Str.truthy c); [|msimpl H; inversion H; constructor].
  mstep H as img_url Hu. mstep H as excluded He.
  destruct excluded; [msimpl H; inversion H; constructor|].
  mstep H as v Hv. msimpl H. inversion H. subst cs.
  constructor; [|constructor]. split; [exact Hm|].
  exists v. simpl. rewrite Hb. auto.
Qed.

Lemma schema_script_scored (url : string) (s : option string) (c : Candidate) :
  schema_script url s = StepAdd c -> meta_scored c.
Proof.
  unfold schema_script. destruct s as [text|]; [|discriminate].
  destruct (json_loads text) as [[ | | | | |d]|]; try discriminate.
  destruct (json_truthy (json_get "image" d)); [|discriminate].
  destruct (schema_image_string (json_get "image" d)) as [s|]; [|discriminate].
  destruct (urljoin url s) as [img_url|]; [|discriminate].
  destruct (_should_exclude_image_url img_url) as [[|]|]; try discriminate.
  destruct (score_image_relevance img_url None "schema" "") as [v|] eqn:Hs;
    [|discriminate].
  intros [= <-]. split; [simpl; tauto|].
  exists v. simpl. split; [exact Hs|reflexivity].
Qed.

Lemma schema_loop_scored (url : string) (scripts : list (option string)) :
  forall images,
    Forall meta_scored images ->
    Forall meta_scored (schema_loop url scripts images).
Proof.
  induction scripts as [|s rest IH]; simpl; intros images Hi; [exact Hi|].
  destruct (schema_script url s) as [|c|] eqn:E.
  - apply IH. exact Hi.
  - apply IH. apply Forall_app. split; [exact Hi|].
    constructor; [|constructor]. eapply schema_script_scored. exact E.
  - exact Hi.
Qed.

Lemma extract_opengraph_images_scored (soup : Soup) (url : string)
  (cs : list Candidate) :
  result (extract_opengraph_images soup url) = Some cs ->
  Forall meta_scored cs.
Proof.
  intros H. unfold extract_opengraph_images in H.
  mstep H as og Hog. mstep H as tw Htw. msimpl H. inversion H. subst cs.
  apply schema_loop_scored. apply Forall_app. split.
  - eapply meta_candidate_scored; [| |exact Hog]; simpl; auto.
  - eapply meta_candidate_scored; [| |exact Htw]; simpl; auto.
Qed.

Lemma for_each_scored (A : Type) (body : Found -> A -> M Found)
  (xs : list A) (st st' : Found) :
  (forall s x s', all_scored s -> result (body s x) = Some s' -> all_scored s') ->
  all_scored st -> result (for_each xs body st) = Some st' -> all_scored st'.
Proof. intros Hb. apply for_each_invariant. exact Hb. Qed.

Lemma extract_images_trafilatura_scored (url : string) :
  Forall scored (images_of (extract_images_trafilatura W url)).
Proof.
  unfold images_of. destruct (result (extract_images_trafilatura W url))
    as [cs|] eqn:H; [|constructor].
  unfold extract_images_trafilatura in H. rewrite result_try_except in H.
  match type of H with
  | match result ?b with _ => _ end = _ => destruct (result b) as [cs'|] eqn:Hb
  end.
  2:{ msimpl H. inversion H. constructor. }
  inversion H. subst cs'. clear H.
  mstep Hb as u Hlog. mstep Hb as downloaded Hd.
  destruct downloaded as [doc|]; [|msimpl Hb; inversion Hb; constructor].
  mstep Hb as image Himage. mstep Hb as images Himages.
  assert (Hmain : Forall scored images).
  { destruct image as [image|]; [|msimpl Himages; inversion Himages; constructor].
    destruct (Str.truthy image);
      [|msimpl Himages; inversion Himages; constructor].
    mstep Himages as main_img_url Hu. mstep Himages as v Hv.
    mstep Himages as u' Hlog'. msimpl Himages. inversion Himages.
    constructor; [|constructor].
    eapply scored_plain; [reflexivity|exact Hv]. }
  mstep Hb as content Hcontent.
  destruct content as [tags|]; [|msimpl Hb; inversion Hb; subst; exact Hmain].
  mstep Hb as st Hst. msimpl Hb. inversion Hb. subst cs.
  eapply for_each_scored with (st := (images, map cand_url images));
    [|exact Hmain|exact Hst].
  intros. eapply trafilatura_img_scored; eauto.
Qed.

Lemma extract_images_newspaper_scored (url : string) :
  Forall scored (images_of (extract_images_newspaper W url)).
Proof.
  unfold images_of. destruct (result (extract_images_newspaper W url))
    as [cs|] eqn:H; [|constructor].
  unfold extract_images_newspaper in H. rewrite result_try_except in H.
  match type of H with
  | match result ?b with _ => _ end = _ => destruct (result b) as [cs'|] eqn:Hb
  end.
  2:{ msimpl H. inversion H. constructor. }
  inversion H. subst cs'. clear H.
  mstep Hb as u Hlog. mstep Hb as article Harticle. mstep Hb as st0 Hst0.
  assert (Htop : all_scored st0).
  { destruct (Str.truthy (top_image article)).
    - mstep Hst0 as full_url Hu. mstep Hst0 as v Hv. mstep Hst0 as u' Hlog'.
      msimpl Hst0. inversion Hst0.
      apply add_image_scored; [constructor|].
      eapply scored_plain; [reflexivity|exact Hv].
    - msimpl Hst0. inversion Hst0. constructor. }
  mstep Hb as st Hst. msimpl Hb. inversion Hb. subst cs.
  eapply for_each_scored; [|exact Htop|exact Hst].
  intros. eapply newspaper_img_scored; eauto.
Qed.

Lemma extract_images_beautifulsoup_scored (url : string) :
  Forall scored (images_of (extract_images_beautifulsoup W url)).
Proof.
  unfold images_of. destruct (result (extract_images_beautifulsoup W url))
    as [cs|] eqn:H; [|constructor].
  unfold extract_images_beautifulsoup in H. rewrite result_try_except in H.
  match type of H with
  | match result ?b with _ => _ end = _ => destruct (result b) as [cs'|] eqn:Hb
  end.
  2:{ msimpl H. inversion H. constructor. }
  inversion H. subst cs'. clear H.
  mstep Hb as u Hlog. mstep Hb as response Hresp. mstep Hb as u' Hstatus.
  mstep Hb as meta_images Hmi. mstep Hb as st1 Hst1. mstep Hb as st2 Hst2.
  msimpl Hb. inversion Hb. subst cs.
  assert (Hmeta : all_scored (meta_images, map cand_url meta_images)).
  { unfold all_scored. simpl.
    eapply Forall_impl; [|eapply extract_opengraph_images_scored; exact Hmi].
    intros c. apply meta_scored_scored. }
  assert (Himg : all_scored st1).
  { eapply for_each_scored; [|exact Hmeta|exact Hst1].
    intros. eapply soup_img_scored; eauto. }
  eapply for_each_scored; [|exact Himg|exact Hst2].
  intros s sources s' Hs Hr.
  eapply for_each_scored; [|exact Hs|exact Hr].
  intros. eapply soup_source_scored; eauto.
Qed.

(** An extractor never lets an exception out. *)
Lemma extractor_returns (A : Type) (body : M (list A)) (e : Event) :
  exists cs, result (try_except body (emit e ;; ret [])) = Some cs.
Proof.
  rewrite result_try_except.
  destruct (result body) as [cs|]; [eauto|exists []; reflexivity].
Qed.

End ExtractorFacts.

(** ** The validator *)

Section ValidatorFacts.

Context {lib : PyLib}.
Variable W : World.

Lemma validate_image_size_returns (u : string) :
  exists b, result (validate_image_size W u) = Some b.
Proof.
  unfold validate_image_size. rewrite result_try_except.
  match goal with
  | |- exists b, match result ?m with _ => _ end = _ =>
      destruct (result m) as [b|]
  end.
  - exists b. reflexivity.
  - exists true. reflexivity.
Qed.

Lemma size_mb_exceeds_true (n : Z) :
  size_mb_exceeds n = Some true -> n > 10 * (1024 * 1024).
Proof.
  unfold size_mb_exceeds, max_file_size_mb.
  destruct (Z.abs n >=? true_div_overflow); [discriminate|].
  intros [= H]. apply Z.gtb_lt in H. lia.
Qed.

Lemma too_large_some (cl : option string) (n : Z) :
  result (too_large cl) = Some (Some n) ->
  exists text, cl = Some text /\ py_int text = Some n /\
               n > 10 * (1024 * 1024).
Proof.
  intros H. unfold too_large in H.
  destruct cl as [text|]; [|msimpl H; discriminate].
  destruct (Str.truthy text); [|msimpl H; discriminate].
  mstep H as m Hm. mstep H as ex Hex. msimpl H.
  destruct ex; [|discriminate]. inversion H. subst m.
  exists text. split; [reflexivity|]. split; [exact Hm|].
  apply size_mb_exceeds_true. exact Hex.
Qed.

Lemma validate_image_size_rejects (u : string) :
  result (validate_image_size W u) = Some false ->
  head_too_large W u \/ decoded_too_small W u.
Proof.
  unfold validate_image_size. rewrite result_try_except.
  match goal with
  | |- match result ?m with _ => _ end = _ -> _ =>
      destruct (result m) as [b|] eqn:Hb
  end.
  2:{ discriminate. }
  intros [= ->].
  mstep Hb as cl Hcl. mstep Hb as large Hlarge.
  destruct large as [n|].
  - left. apply too_large_some in Hlarge.
    destruct Hlarge as [text [-> [Hint Hn]]]. exists text, n. auto.
  - right. mstep Hb as response Hresp. mstep Hb as u' Hstatus.
    mstep Hb as data Hdata.
    destruct (stream_status_ok response) eqn:Hok; [|discriminate].
    destruct (pil_open_size data) as [[width height]|] eqn:Hsize;
      [|discriminate].
    destruct ((width <? fst min_image_size) || (height <? snd min_image_size))
      eqn:Hsmall; [|discriminate].
    exists response, data, width, height.
    repeat (split; [assumption|]).
    apply orb_true_iff in Hsmall. simpl in Hsmall.
    destruct Hsmall as [H|H]; apply Z.ltb_lt in H; auto.
Qed.

Lemma validate_image_size_accepts (u : string) :
  ~ head_too_large W u -> ~ decoded_too_small W u ->
  result (validate_image_size W u) = Some true.
Proof.
  intros HA HB. destruct (validate_image_size_returns u) as [[|] Hb].
  - exact Hb.
  - apply validate_image_size_rejects in Hb. tauto.
Qed.

Lemma validates_spec (u : string) :
  result (validate_image_size W u) = Some (validates W u).
Proof.
  unfold validates. destruct (validate_image_size_returns u) as [[|] ->];
    reflexivity.
Qed.

(** ** The selection *)

Lemma first_acceptable_result (l : list Candidate) :
  result (first_acceptable W l) = Some (find (acceptable W) l).
Proof.
  induction l as [|c rest IH]; simpl; [reflexivity|].
  unfold acceptable at 1.
  destruct (cand_score c >=? MIN_ACCEPTABLE_SCORE); simpl; [|exact IH].
  erewrite result_bind; [|apply (validates_spec (cand_url c))].
  destruct (validates W (cand_url c)); [reflexivity|exact IH].
Qed.

Lemma select_image_result (url : string) (all_images : list Candidate) :
  result (select_image W url all_images) =
  Some (find (acceptable W)
          (sort_by_score (dict_values (merge_by_url all_images)))).
Proof.
  unfold select_image. destruct all_images as [|c rest]; [reflexivity|].
  set (s := sort_by_score (dict_values (merge_by_url (c :: rest)))).
  erewrite result_bind; [|apply (first_acceptable_result s)].
  destruct (find (acceptable W) s); [reflexivity|].
  destruct s; reflexivity.
Qed.

Lemma images_of_result (m : M (list Candidate)) :
  (exists cs, result m = Some cs) -> result m = Some (images_of m).
Proof. unfold images_of. intros [cs ->]. reflexivity. Qed.

Lemma extract_images_trafilatura_result (url : string) :
  result (extract_images_trafilatura W url) = Some (after_trafilatura W url).
Proof. apply images_of_result. apply extractor_returns. Qed.

Lemma extract_images_newspaper_result (url : string) :
  result (extract_images_newspaper W url) =
  Some (images_of (extract_images_newspaper W url)).
Proof. apply images_of_result. apply extractor_returns. Qed.

Lemma extract_images_beautifulsoup_result (url : string) :
  result (extract_images_beautifulsoup W url) =
  Some (images_of (extract_images_beautifulsoup W url)).
Proof. apply images_of_result. apply extractor_returns. Qed.

Lemma collect_images_result (url : string) :
  result (collect_images W url) = Some (after_beautifulsoup W url).
Proof.
  unfold collect_images.
  erewrite result_bind; [|apply (extract_images_trafilatura_result url)].
  assert (H1 : result
            (if best_score_of (after_trafilatura W url) <? 80
             then images <- extract_images_newspaper W url ;;
                  ret (after_trafilatura W url ++ images)%list
             else ret (after_trafilatura W url)) = Some (after_newspaper W url)).
  { unfold after_newspaper.
    destruct (best_score_of (after_trafilatura W url) <? 80); [|reflexivity].
    erewrite result_bind; [|apply (extract_images_newspaper_result url)]. reflexivity. }
  erewrite result_bind; [|exact H1]. unfold after_beautifulsoup.
  destruct (best_score_of (after_newspaper W url) <? 70); [|reflexivity].
  erewrite result_bind; [|apply (extract_images_beautifulsoup_result url)]. reflexivity.
Qed.

Lemma scrape_article_images_result (url : string) :
  result (scrape_article_images W url) =
  Some (find (acceptable W)
          (sort_by_score (dict_values (merge_by_url (after_beautifulsoup W url))))).
Proof.
  unfold scrape_article_images.
  erewrite result_bind; [|apply (collect_images_result url)].
  apply select_image_result.
Qed.

End ValidatorFacts.

(** ** Traces: where the first log line of a strategy can come from *)

Lemma no_trying_nil : no_trying [].
Proof. intros m u []. Qed.

Lemma no_trying_app (t1 t2 : list Event) :
  no_trying t1 -> no_trying t2 -> no_trying (t1 ++ t2).
Proof.
  intros H1 H2 m u Hin. apply in_app_or in Hin.
  destruct Hin; [eapply H1|eapply H2]; eauto.
Qed.

Lemma no_trying_bind (A B : Type) (m : M A) (f : A -> M B) :
  no_trying (trace m) -> (forall a, no_trying (trace (f a))) ->
  no_trying (trace (bind m f)).
Proof.
  intros Hm Hf. destruct (result m) as [a|] eqn:E.
  - rewrite (@trace_bind _ _ m f a E). apply no_trying_app; auto.
  - rewrite (@trace_bind_none _ _ m f E). exact Hm.
Qed.

Lemma no_trying_try_except (A : Type) (body handler : M A) :
  no_trying (trace body) -> no_trying (trace handler) ->
  no_trying (trace (try_except body handler)).
Proof.
  intros Hb Hh. rewrite trace_try_except.
  destruct (result body); [exact Hb|]. apply no_trying_app; auto.
Qed.

Lemma no_trying_for_each (A S : Type) (body : S -> A -> M S) (xs : list A) :
  (forall s x, no_trying (trace (body s x))) ->
  forall s, no_trying (trace (for_each xs body s)).
Proof.
  intros Hb. induction xs as [|x rest IH]; simpl; intros s.
  - apply no_trying_nil.
  - apply no_trying_bind; auto.
Qed.

Lemma no_trying_single (e : Event) :
  (forall m u, e <> LogInfo (Trying m u)) -> no_trying [e].
Proof. intros H m u [Hin|[]]. apply (H m u). exact Hin. Qed.

(** Settles [no_trying] for code built from calls, plain log lines,
    branches and loops. *)
Ltac quiet :=
  repeat (intros; cbv beta iota;
    match goal with
    | |- no_trying (trace (bind _ _)) => apply no_trying_bind
    | |- no_trying (trace (call _)) => apply no_trying_nil
    | |- no_trying (trace (ret _)) => apply no_trying_nil
    | |- no_trying (trace raise) => apply no_trying_nil
    | |- no_trying (trace (emit _)) =>
        apply no_trying_single; intros; discriminate
    | |- no_trying (trace (for_each _ _ _)) => apply no_trying_for_each
    | |- no_trying (trace (try_except _ _)) => apply no_trying_try_except
    | |- no_trying (trace (if ?b then _ else _)) => destruct b
    | |- no_trying (trace (match ?x with _ => _ end)) => destruct x
    end).

Section TraceFacts.

Context {lib : PyLib}.
Variable W : World.

Lemma trace_announced (A : Type) (e : Event) (k handler : M A) :
  no_trying (trace k) -> no_trying (trace handler) ->
  exists t, trace (try_except (emit e ;; k) handler) = e :: t /\ no_trying t.
Proof.
  intros Hk Hh. rewrite trace_try_except.
  assert (Ht : trace (emit e ;; k) = e :: trace k).
  { erewrite trace_bind; reflexivity. }
  rewrite Ht. destruct (result (emit e ;; k)).
  - exists (trace k). auto.
  - exists (trace k ++ trace handler)%list. split; [reflexivity|].
    apply no_trying_app; auto.
Qed.

Lemma extract_images_trafilatura_trace (url : string) :
  exists t, trace (extract_images_trafilatura W url)
            = LogInfo (Trying "trafilatura" url) :: t /\ no_trying t.
Proof.
  unfold extract_images_trafilatura. apply trace_announced.
  - unfold trafilatura_img. quiet.
  - quiet.
Qed.

Lemma extract_images_newspaper_trace (url : string) :
  exists t, trace (extract_images_newspaper W url)
            = LogInfo (Trying "newspaper3k" url) :: t /\ no_trying t.
Proof.
  unfold extract_images_newspaper. apply trace_announced.
  - unfold newspaper_img. quiet.
  - quiet.
Qed.

Lemma extract_images_beautifulsoup_trace (url : string) :
  exists t, trace (extract_images_beautifulsoup W url)
            = LogInfo (Trying "BeautifulSoup" url) :: t /\ no_trying t.
Proof.
  unfold extract_images_beautifulsoup. apply trace_announced.
  - unfold extract_opengraph_images, meta_candidate, soup_img, soup_source.
    quiet.
  - quiet.
Qed.

Lemma validate_image_size_trace (u : string) :
  no_trying (trace (validate_image_size W u)).
Proof. unfold validate_image_size, too_large. quiet. Qed.

Lemma first_acceptable_trace (l : list Candidate) :
  no_trying (trace (first_acceptable W l)).
Proof.
  induction l as [|c rest IH]; simpl.
  - apply no_trying_nil.
  - destruct (cand_score c >=? MIN_ACCEPTABLE_SCORE); [|exact IH].
    apply no_trying_bind; [apply validate_image_size_trace|].
    intros [|]; [|exact IH].
    apply no_trying_single. intros; discriminate.
Qed.

Lemma select_image_trace (url : string) (all_images : list Candidate) :
  no_trying (trace (select_image W url all_images)).
Proof.
  unfold select_image. destruct all_images; [quiet|].
  apply no_trying_bind; [apply first_acceptable_trace|]. quiet.
Qed.

Lemma collect_images_trace (url : string) :
  trace (collect_images W url) =
  (trace (extract_images_trafilatura W url)
   ++ (if best_score_of (after_trafilatura W url) <? 80
       then trace (extract_images_newspaper W url) else [])
   ++ (if best_score_of (after_newspaper W url) <? 70
       then trace (extract_images_beautifulsoup W url) else []))%list.
Proof.
  unfold collect_images.
  erewrite trace_bind; [|apply extract_images_trafilatura_result].
  f_equal.
  assert (H1 : result
            (if best_score_of (after_trafilatura W url) <? 80
             then images <- extract_images_newspaper W url ;;
                  ret (after_trafilatura W url ++ images)%list
             else ret (after_trafilatura W url)) = Some (after_newspaper W url)).
  { unfold after_newspaper.
    destruct (best_score_of (after_trafilatura W url) <? 80); [|reflexivity].
    erewrite result_bind; [|apply extract_images_newspaper_result]. reflexivity. }
  erewrite trace_bind; [|exact H1]. f_equal.
  - destruct (best_score_of (after_trafilatura W url) <? 80); [|reflexivity].
    erewrite trace_bind; [|apply extract_images_newspaper_result].
    apply app_nil_r.
  - destruct (best_score_of (after_newspaper W url) <? 70); [|reflexivity].
    erewrite trace_bind; [|apply extract_images_beautifulsoup_result].
    apply app_nil_r.
Qed.

Lemma scrape_article_images_trace (url : string) :
  exists t1 t2 t3 t4,
    trace (scrape_article_images W url) =
    ((LogInfo (Trying "trafilatura" url) :: t1)
     ++ (if best_score_of (after_trafilatura W url) <? 80
         then LogInfo (Trying "newspaper3k" url) :: t2 else [])
     ++ (if best_score_of (after_newspaper W url) <? 70
         then LogInfo (Trying "BeautifulSoup" url) :: t3 else [])
     ++ t4)%list
    /\ no_trying t1 /\ no_trying t2 /\ no_trying t3 /\ no_trying t4.
Proof.
  destruct (extract_images_trafilatura_trace url) as [t1 [E1 N1]].
  destruct (extract_images_newspaper_trace url) as [t2 [E2 N2]].
  destruct (extract_images_beautifulsoup_trace url) as [t3 [E3 N3]].
  exists t1, t2, t3, (trace (select_image W url (after_beautifulsoup W url))).
  split; [|repeat split; auto using select_image_trace].
  unfold scrape_article_images.
  erewrite trace_bind; [|apply collect_images_result].
  rewrite collect_images_trace, E1, E2, E3.
  rewrite <- !app_assoc. reflexivity.
Qed.

End TraceFacts.

(** ** The normaliser *)

Lemma paste_pixels_length (lib : PyLib) (m : string)
  (current pasted : list (list Z)) :
  length (Pil.paste_pixels current m pasted) = length current.
Proof.
  revert pasted. induction current as [|c cs IH]; intros [|p ps]; simpl;
    try reflexivity.
  rewrite IH. reflexivity.
Qed.

Section NormaliserFacts.

Context {lib : PyLib}.
Variable W : World.

Lemma paste_pixels_nth (mode : string) (current pasted : list (list Z)) :
  forall (i : nat) (c p : list Z),
    nth_error current i = Some c ->
    nth_error pasted i = Some p ->
    nth_error (Pil.paste_pixels current mode pasted) i
    = Some (Pil.paste_pixel c (Pil.rgb_of mode p) (Pil.last_band p)).
Proof.
  revert pasted. induction current as [|c0 cs IH]; intros pasted i c p Hc Hp.
  - destruct i; discriminate.
  - destruct pasted as [|p0 ps]; [destruct i; discriminate|].
    destruct i as [|i]; simpl in *.
    + inversion Hc. inversion Hp. reflexivity.
    + apply IH; assumption.
Qed.

Lemma new_rgb_nth (size : Z * Z) (color : list Z) (i : nat) :
  Z.of_nat i < fst size * snd size ->
  nth_error (pixels (Pil.new_rgb size color)) i = Some color.
Proof.
  intros H. unfold Pil.new_rgb. simpl.
  rewrite nth_error_repeat; [reflexivity|]. lia.
Qed.

Lemma paste_pixels_nth_none (mode : string)
  (current pasted : list (list Z)) :
  forall (i : nat) (c : list Z),
    nth_error current i = Some c ->
    nth_error pasted i = None ->
    nth_error (Pil.paste_pixels current mode pasted) i = Some c.
Proof.
  revert pasted. induction current as [|c0 cs IH]; intros pasted i c Hc Hp.
  - destruct i; discriminate.
  - destruct pasted as [|p0 ps]; [exact Hc|].
    destruct i as [|i]; simpl in *; [discriminate|].
    apply IH; assumption.
Qed.

Lemma paste_with_alpha_composited (size : Z * Z) (img : Image) :
  composited_onto_white size img
    (Pil.paste_with_alpha (Pil.new_rgb size Pil.white) img).
Proof.
  split; [reflexivity|]. split; [reflexivity|]. split.
  - unfold Pil.paste_with_alpha. cbn [pixels].
    rewrite paste_pixels_length. unfold Pil.new_rgb. cbn [pixels].
    rewrite repeat_length. lia.
  - intros i Hi. unfold Pil.paste_with_alpha. cbn [pixels]. split.
    + intros Hnone. apply paste_pixels_nth_none;
        [apply new_rgb_nth; exact Hi|exact Hnone].
    + intros px Hpx.
      erewrite paste_pixels_nth; [|apply new_rgb_nth; exact Hi|exact Hpx].
      unfold Pil.paste_pixel. repeat split.
      * intros ->. reflexivity.
      * intros ->. reflexivity.
      * intros H0 H255.
        destruct (Z.eqb_spec (Pil.last_band px) 0); [contradiction|].
        destruct (Z.eqb_spec (Pil.last_band px) 255); [contradiction|].
        reflexivity.
Qed.

Lemma mem_alpha_modes (m : string) :
  Str.mem m ["RGBA"; "LA"] = true <-> m = "RGBA" \/ m = "LA".
Proof.
  unfold Str.mem. simpl. rewrite !orb_true_iff, !String.eqb_eq.
  split; [intros [H|[H|H]]|intros [H|H]]; auto; discriminate.
Qed.

Lemma convert_for_jpeg_alpha (img : Image) :
  mode img = "RGBA" \/ mode img = "LA" ->
  exists out,
    convert_for_jpeg img = Some out /\
    composited_onto_white (size img) img out.
Proof.
  intros Hm. unfold convert_for_jpeg.
  assert (Hmem : Str.mem (mode img) ["RGBA"; "LA"; "P"] = true)
    by (destruct Hm as [-> | ->]; reflexivity).
  assert (HP : String.eqb (mode img) "P" = false)
    by (destruct Hm as [-> | ->]; reflexivity).
  rewrite Hmem, HP. apply mem_alpha_modes in Hm. rewrite Hm.
  eexists. split; [reflexivity|]. apply paste_with_alpha_composited.
Qed.

Lemma convert_for_jpeg_palette (img : Image) :
  mode img = "P" ->
  (forall rgba,
     pil_convert "RGBA" img = Some rgba ->
     mode rgba = "RGBA" \/ mode rgba = "LA" ->
     exists out,
       convert_for_jpeg img = Some out /\
       composited_onto_white (size img) rgba out) /\
  (pil_convert "RGBA" img = None -> convert_for_jpeg img = None).
Proof.
  intros Hm. unfold convert_for_jpeg. rewrite Hm.
  change (Str.mem "P" ["RGBA"; "LA"; "P"]) with true.
  change (String.eqb "P" "P") with true. cbv beta iota. split.
  - intros rgba Hc Hr. rewrite Hc. apply mem_alpha_modes in Hr. rewrite Hr.
    eexists. split; [reflexivity|]. apply paste_with_alpha_composited.
  - intros Hc. rewrite Hc. reflexivity.
Qed.

Lemma convert_for_jpeg_rgb (img : Image) :
  mode img = "RGB" -> convert_for_jpeg img = Some img.
Proof. intros Hm. unfold convert_for_jpeg. rewrite Hm. reflexivity. Qed.

Lemma convert_for_jpeg_other (img : Image) :
  ~ In (mode img) ["RGBA"; "LA"; "P"; "RGB"] ->
  convert_for_jpeg img = pil_convert "RGB" img.
Proof.
  intros Hm. unfold convert_for_jpeg, Str.mem. cbn [existsb].
  destruct (String.eqb_spec (mode img) "RGBA") as [E|_];
    [exfalso; apply Hm; rewrite E; simpl; auto|].
  destruct (String.eqb_spec (mode img) "LA") as [E|_];
    [exfalso; apply Hm; rewrite E; simpl; auto|].
  destruct (String.eqb_spec (mode img) "P") as [E|_];
    [exfalso; apply Hm; rewrite E; simpl; auto|].
  destruct (String.eqb_spec (mode img) "RGB") as [E|_];
    [exfalso; apply Hm; rewrite E; simpl; auto|].
  reflexivity.
Qed.

Lemma download_image_succeeds (img_url output_path : string)
  (response : Response) (saved_path : string) (img out : Image)
  (data : list Byte.byte) :
  session_get W img_url = Some response ->
  status_ok response = true ->
  with_suffix output_path ".jpg" = Some saved_path ->
  pil_open (content response) = Some img ->
  convert_for_jpeg img = Some out ->
  jpeg_encode out 90 true = Some data ->
  download_image W img_url output_path
  = (Some true,
     [FileSaved saved_path data; LogInfo (Downloaded (path_name saved_path))]).
Proof.
  intros Hresp Hstatus Hpath Himg Hout Hdata.
  unfold download_image, try_except, bind, call, ret, emit.
  rewrite Hresp, Hstatus, Hpath, Himg, Hout, Hdata. reflexivity.
Qed.

Lemma download_image_cases (img_url output_path : string) :
  (exists response saved_path img out data,
     session_get W img_url = Some response /\
     status_ok response = true /\
     with_suffix output_path ".jpg" = Some saved_path /\
     pil_open (content response) = Some img /\
     convert_for_jpeg img = Some out /\
     jpeg_encode out 90 true = Some data /\
     download_image W img_url output_path
     = (Some true,
        [FileSaved saved_path data;
         LogInfo (Downloaded (path_name saved_path))]))
  \/ ((session_get W img_url = None \/
       exists response,
         session_get W img_url = Some response /\
         (status_ok response = false \/
          with_suffix output_path ".jpg" = None \/
          pil_open (content response) = None \/
          exists img,
            pil_open (content response) = Some img /\
            (convert_for_jpeg img = None \/
             exists out,
               convert_for_jpeg img = Some out /\
               jpeg_encode out 90 true = None))) /\
      download_image W img_url output_path
      = (Some false, [LogError (DownloadFailed img_url)])).
Proof.
  unfold download_image, try_except, bind, call, ret, raise, emit.
  destruct (session_get W img_url) as [response|];
    [|right; split; [left|]; reflexivity].
  destruct (status_ok response) eqn:Hstatus;
    [|right; split; [right; exists response; auto|reflexivity]].
  destruct (with_suffix output_path ".jpg") as [saved|] eqn:Hpath;
    [|right; split; [right; exists response; auto|reflexivity]].
  destruct (pil_open (content response)) as [img|] eqn:Himg;
    [|right; split; [right; exists response; auto|reflexivity]].
  destruct (convert_for_jpeg img) as [out|] eqn:Hout;
    [|right; split;
      [right; exists response; split; [first [assumption|reflexivity]|];
       right; right; right; exists img; auto|reflexivity]].
  destruct (jpeg_encode out 90 true) as [data|] eqn:Hdata;
    [|right; split;
      [right; exists response; split; [first [assumption|reflexivity]|];
       right; right; right; exists img; split; [first [assumption|reflexivity]|];
       right; exists out; auto|reflexivity]].
  left. exists response, saved, img, out, data.
  repeat (split; [first [assumption|reflexivity]|]). reflexivity.
Qed.

Lemma download_image_saved (img_url output_path : string) :
  result (download_image W img_url output_path) = Some true ->
  exists response saved_path img out data,
    session_get W img_url = Some response /\
    status_ok response = true /\
    with_suffix output_path ".jpg" = Some saved_path /\
    pil_open (content response) = Some img /\
    convert_for_jpeg img = Some out /\
    jpeg_encode out 90 true = Some data /\
    trace (download_image W img_url output_path)
    = [FileSaved saved_path data; LogInfo (Downloaded (path_name saved_path))].
Proof.
  intros H.
  destruct (download_image_cases img_url output_path)
    as [[response [saved [img [out [data [H1 [H2 [H3 [H4 [H5 [H6 E]]]]]]]]]]]
       |[_ E]].
  - exists response, saved, img, out, data.
    repeat (split; [assumption|]). rewrite E. reflexivity.
  - rewrite E in H. discriminate.
Qed.

End NormaliserFacts.

(** * The claims *)

(** ** C1: range of the stored scores *)

(** C1, as stated, fails: the raw-markup strategy returns an [og:image]
    candidate whose stored score is 112, the scorer's 87 plus the bonus of
    25, outside [0,100]. *)
Lemma opengraph_candidate_scores_112 :
  exists c,
    In c (images_of (extract_images_beautifulsoup (lib := plain_lib)
                       (soup_world og_soup) article_url)) /\
    cand_source c = "opengraph" /\
    ~ (0 <= cand_score c <= 100).
Proof.
  exists (mk_Candidate hero_url 112 "opengraph").
  split; [vm_compute; auto|]. split; [reflexivity|].
  simpl. lia.
Qed.

(** C1 (amended): every candidate a strategy returns carries the scorer's
    clamped value plus the fixed bonus of its source method, so its score
    lies in [bonus, 100 + bonus]: [0,100] for every source method but
    [opengraph] (25..125), [twitter_card] (20..120) and [schema]
    (22..122). *)
Theorem candidate_score_bounds (lib : PyLib) (W : World) (url : string)
  (c : Candidate) :
  In c (images_of (extract_images_trafilatura W url)) \/
  In c (images_of (extract_images_newspaper W url)) \/
  In c (images_of (extract_images_beautifulsoup W url)) ->
  bonus_of (cand_source c) <= cand_score c <= 100 + bonus_of (cand_source c)
  /\ (bonus_of (cand_source c) = 0 -> 0 <= cand_score c <= 100).
Proof.
  intros H.
  assert (Hs : scored c).
  { destruct H as [H|[H|H]].
    - pose proof (extract_images_trafilatura_scored W url) as F.
      rewrite Forall_forall in F. auto.
    - pose proof (extract_images_newspaper_scored W url) as F.
      rewrite Forall_forall in F. auto.
    - pose proof (extract_images_beautifulsoup_scored W url) as F.
      rewrite Forall_forall in F. auto. }
  apply scored_range in Hs. split; [exact Hs|]. intros E. lia.
Qed.

Lemma candidate_score_bounds_witness :
  let c := mk_Candidate hero_url 112 "opengraph" in
  In c (images_of (extract_images_beautifulsoup (lib := plain_lib)
                     (soup_world og_soup) article_url)) /\
  25 <= cand_score c <= 125.
Proof.
  intros c.
  assert (H : In c (images_of (extract_images_beautifulsoup (lib := plain_lib)
                                 (soup_world og_soup) article_url)))
    by (vm_compute; auto).
  split; [exact H|].
  exact (proj1 (@candidate_score_bounds plain_lib (soup_world og_soup)
                  article_url c (or_intror (or_intror H)))).
Defined.

(** ** C2: where the bonus is added *)

(** C2, as stated, fails: for [opengraph] the scorer returns what it
    returns for an unrecognised source method, not that plus 25. *)
Lemma scorer_adds_no_opengraph_bonus :
  score_image_relevance (lib := plain_lib) plain_url None "opengraph" ""
  = Some 55 /\
  score_image_relevance (lib := plain_lib) plain_url None "unrecognised" ""
  = Some 55 /\
  ~ (score_image_relevance (lib := plain_lib) plain_url None "opengraph" ""
     = option_map (fun v => v + 25)
         (score_image_relevance (lib := plain_lib) plain_url None
            "unrecognised" "")).
Proof.
  split; [vm_compute; reflexivity|]. split; [vm_compute; reflexivity|].
  vm_compute. discriminate.
Qed.

(** C2 (amended): the scorer has no prior for [opengraph], [twitter_card]
    and [schema] and scores them like any unrecognised source method; the
    bonus of +25/+20/+22 is added by [extract_opengraph_images], once, to
    the value the scorer returned for the candidate. *)
Theorem bonus_added_once_by_extractor (lib : PyLib) (soup : Soup)
  (url : string) (cs : list Candidate) (c : Candidate) :
  result (extract_opengraph_images soup url) = Some cs ->
  In c cs ->
  In (cand_source c, bonus_of (cand_source c))
     [("opengraph", 25); ("twitter_card", 20); ("schema", 22)] /\
  exists v,
    score_image_relevance (cand_url c) None (cand_source c) "" = Some v /\
    (forall m, source_prior m = 0 ->
               score_image_relevance (cand_url c) None m "" = Some v) /\
    cand_score c = v + bonus_of (cand_source c).
Proof.
  intros Hr Hin. apply extract_opengraph_images_scored in Hr.
  rewrite Forall_forall in Hr. destruct (Hr c Hin) as [Hsrc [v [Hv Hsc]]].
  split.
  - simpl in Hsrc. destruct Hsrc as [<-|[<-|[<-|[]]]]; simpl; auto.
  - exists v. split; [exact Hv|]. split; [|exact Hsc].
    intros m Hm. rewrite <- Hv. apply score_image_relevance_prior.
    rewrite Hm. simpl in Hsrc.
    destruct Hsrc as [<-|[<-|[<-|[]]]]; reflexivity.
Qed.

Lemma bonus_added_once_by_extractor_witness :
  let c := mk_Candidate hero_url 112 "opengraph" in
  result (extract_opengraph_images (lib := plain_lib) og_soup article_url)
  = Some [c] /\
  exists v,
    score_image_relevance (lib := plain_lib) hero_url None "opengraph" ""
    = Some v /\
    (forall m, source_prior m = 0 ->
               score_image_relevance (lib := plain_lib) hero_url None m ""
               = Some v) /\
    112 = v + 25.
Proof.
  intros c.
  assert (H : result (extract_opengraph_images (lib := plain_lib) og_soup
                        article_url) = Some [c]) by (vm_compute; reflexivity).
  split; [exact H|].
  exact (proj2 (@bonus_added_once_by_extractor plain_lib og_soup article_url
                  [c] c H (or_introl eq_refl))).
Defined.

(** ** C3: the tracking-pixel scenario *)

Lemma source_prior_range (s : string) : 0 <= source_prior s <= 30.
Proof.
  unfold source_prior.
  repeat match goal with
         | |- context [if ?b then _ else _] => destruct b
         end; lia.
Qed.

Lemma select_image_single (lib : PyLib) (W : World) (url : string)
  (c : Candidate) :
  result (select_image W url [c])
  = Some (if acceptable W c then Some c else None).
Proof. rewrite select_image_result. reflexivity. Qed.

(** C3, as stated, fails: the filter lets the URL through, the scorer
    gives it 50 as an [img] tag of the page, and as the only candidate of
    the article it is the image selected. *)
Lemma pixel_url_is_selected :
  _should_exclude_image_url (lib := plain_lib) pixel_url = Some false /\
  _should_exclude_image (lib := plain_lib) (img_tag pixel_url) pixel_url
  = Some false /\
  score_image_relevance (lib := plain_lib) pixel_url
    (Some (img_tag pixel_url)) "soup" "" = Some 50 /\
  result (scrape_article_images (lib := plain_lib) (soup_world pixel_soup)
            article_url)
  = Some (Some (mk_Candidate pixel_url 50 "soup")).
Proof. repeat split; vm_compute; reflexivity. Qed.

(** C3 (amended): the URL matches no exclusion rule, so the URL filter
    keeps it, and the tag filter excludes it only for what the tag says:
    an [alt] text or a class that matches the exclusion pattern, or
    declared [width] and [height] attributes that both read as integers
    with one of them under 100.  The scorer gives it 45 plus the
    prior of the source method, plus what the tag and its parents add or
    take away, clamped to 0-100: without a tag that is between 45 and 75,
    never 0.  As the only candidate it is selected when its stored score
    is at least 40 and the validator accepts it, and the outcome is
    "no image" otherwise. *)
Theorem pixel_url_kept_and_scored
  (open_size : list Byte.byte -> option (Z * Z))
  (open_image : list Byte.byte -> option Image)
  (convert : string -> Image -> option Image)
  (encode : Image -> Z -> bool -> option (list Byte.byte))
  (loads : string -> option Json)
  (W : World) (url : string) (c : Candidate) :
  let lib := reference_lib open_size open_image convert encode loads in
  cand_url c = pixel_url ->
  _should_exclude_image_url pixel_url = Some false /\
  (forall t,
     _should_exclude_image t pixel_url
     = Some (exclude_regex_search
               (Str.lower (Dom.get_or_empty "alt" (tag_el t)))
             || exclude_regex_search (Dom.class_string (tag_el t))
             || declared_too_small (tag_el t))) /\
  (forall t s a,
     score_image_relevance pixel_url t s a
     = Some (Z.max 0 (Z.min 100
               (45 + source_prior s + tag_signals t
                + analyze_image_context t a)))) /\
  (forall s a,
     score_image_relevance pixel_url None s a = Some (45 + source_prior s) /\
     45 <= 45 + source_prior s <= 75) /\
  result (select_image W url [c])
  = Some (if (cand_score c >=? 40) && validates W pixel_url
          then Some c else None).
Proof.
  intros lib Hc.
  assert (Hkeep : _should_exclude_image_url pixel_url = Some false)
    by (vm_compute; reflexivity).
  assert (Hscore : forall t s a,
             score_image_relevance pixel_url t s a
             = Some (Z.max 0 (Z.min 100
                       (45 + source_prior s + tag_signals t
                        + analyze_image_context t a)))).
  { intros t s a. unfold score_image_relevance.
    change (urlparse pixel_url) with (PyRef.urlparse pixel_url).
    replace (PyRef.urlparse pixel_url)
      with (Some (mk_ParseResult "https" "site.com"
                    "/assets/fb_pixel_tr.gif" "" "" ""))
      by (vm_compute; reflexivity).
    unfold unclamped_score.
    replace (url_signals (Str.lower pixel_url)) with 0
      by (vm_compute; reflexivity).
    replace (extension_signal (Str.lower pixel_url)) with (-5)
      by (vm_compute; reflexivity).
    do 3 f_equal. lia. }
  split; [exact Hkeep|]. split; [|split; [exact Hscore|split]].
  - intros t. unfold _should_exclude_image. rewrite Hkeep.
    destruct (exclude_regex_search
                (Str.lower (Dom.get_or_empty "alt" (tag_el t))));
      [reflexivity|].
    destruct (exclude_regex_search (Dom.class_string (tag_el t)));
      reflexivity.
  - intros s a. pose proof (source_prior_range s) as Hp.
    split; [|lia]. rewrite Hscore. cbn [tag_signals analyze_image_context].
    f_equal. lia.
  - rewrite select_image_single. unfold acceptable. rewrite Hc. reflexivity.
Qed.

Lemma pixel_url_kept_and_scored_witness :
  cand_url (mk_Candidate pixel_url 50 "soup") = pixel_url /\
  _should_exclude_image (lib := plain_lib) (tiny_img_tag pixel_url) pixel_url
  = Some true /\
  score_image_relevance (lib := plain_lib) pixel_url
    (Some (img_tag pixel_url)) "soup" "" = Some 50 /\
  score_image_relevance (lib := plain_lib) pixel_url
    (Some (img_in_div "article-body" pixel_url)) "soup" "" = Some 75 /\
  score_image_relevance (lib := plain_lib) pixel_url
    (Some (img_in_div "sidebar" pixel_url)) "soup" "" = Some 35 /\
  score_image_relevance (lib := plain_lib) pixel_url None "opengraph" ""
  = Some 45 /\
  result (select_image (lib := plain_lib) offline article_url
            [mk_Candidate pixel_url 50 "soup"])
  = Some (Some (mk_Candidate pixel_url 50 "soup")).
Proof.
  pose proof (@pixel_url_kept_and_scored (fun _ => None) (fun _ => None)
                (fun _ _ => None) (fun _ _ _ => None) (fun _ => None)
                offline article_url (mk_Candidate pixel_url 50 "soup")
                eq_refl) as [_ [Hx [Hs [Hn Hsel]]]].
  split; [reflexivity|]. split; [exact (Hx (tiny_img_tag pixel_url))|].
  split; [exact (Hs (Some (img_tag pixel_url)) "soup" "")|].
  split; [exact (Hs (Some (img_in_div "article-body" pixel_url)) "soup" "")|].
  split; [exact (Hs (Some (img_in_div "sidebar" pixel_url)) "soup" "")|].
  split; [exact (proj1 (Hn "opengraph" ""))|exact Hsel].
Defined.

(** ** C4 and C10: the merge by URL *)

(** C4: the merge keeps exactly one entry per distinct URL, and the entry
    kept for a URL has the highest score any entry of that URL has. *)
Theorem merge_keeps_one_best_entry_per_url (all_images : list Candidate) :
  let unique_images := dict_values (merge_by_url all_images) in
  NoDup (map cand_url unique_images) /\
  (forall u, In u (map cand_url unique_images)
             <-> In u (map cand_url all_images)) /\
  (forall e, In e unique_images ->
     In e all_images /\
     forall e', In e' all_images -> cand_url e' = cand_url e ->
                cand_score e' <= cand_score e).
Proof.
  intros unique_images. pose proof (merge_by_url_merged all_images) as Hm.
  unfold unique_images. rewrite (@merged_keys all_images _ Hm). split; [|split].
  - apply (@merged_nodup _ _ Hm).
  - intros u. split.
    + intros Hin. apply in_map_iff in Hin. destruct Hin as [[k v] [<- Hin]].
      apply in_dict_get in Hin; [|apply (@merged_nodup _ _ Hm)].
      apply (@merged_entry _ _ Hm) in Hin. destruct Hin as [<- Hfb]. simpl.
      apply in_map. apply first_best_in. exact Hfb.
    + intros Hin. apply in_map_iff in Hin. destruct Hin as [e [<- Hin]].
      destruct (in_dec string_dec (cand_url e)
                  (map fst (merge_by_url all_images))) as [H|H]; [exact H|].
      apply dict_get_none in H. exfalso.
      exact (@merged_covers _ _ Hm e Hin H).
  - intros e Hin. pose proof (@merged_value all_images _ e Hm Hin) as Hfb.
    split; [apply first_best_in; exact Hfb|].
    intros e' Hin' Hu. apply first_best_max with (l := all_images); auto.
Qed.

Lemma merge_keeps_one_best_entry_per_url_witness :
  dict_values (merge_by_url duplicates)
  = [mk_Candidate plain_url 80 "opengraph"; mk_Candidate gif_url 60 "newspaper"]
  /\ NoDup (map cand_url (dict_values (merge_by_url duplicates)))
  /\ (In (mk_Candidate plain_url 60 "soup") duplicates ->
      60 <= cand_score (mk_Candidate plain_url 80 "opengraph")).
Proof.
  destruct (merge_keeps_one_best_entry_per_url duplicates) as [Hnd [_ Hmax]].
  split; [vm_compute; reflexivity|]. split; [exact Hnd|].
  intros Hin.
  exact (proj2 (Hmax (mk_Candidate plain_url 80 "opengraph")
                  (or_introl eq_refl))
           (mk_Candidate plain_url 60 "soup") Hin eq_refl).
Defined.

(** C10: the comparison of the merge is strict.  A duplicate whose score
    equals the kept one leaves the dictionary as it is, and the entry kept
    for a URL is the first of its best-scoring entries: every earlier
    entry of that URL scores strictly less. *)
Theorem merge_keeps_first_seen_on_ties :
  (forall (seen_urls : Dict) (img kept : Candidate),
     dict_get (cand_url img) seen_urls = Some kept ->
     cand_score img = cand_score kept ->
     merge_step seen_urls img = seen_urls) /\
  (forall (all_images : list Candidate) (e : Candidate),
     In e (dict_values (merge_by_url all_images)) ->
     exists before after,
       all_images = (before ++ e :: after)%list /\
       (forall e', In e' before -> cand_url e' = cand_url e ->
                   cand_score e' < cand_score e) /\
       (forall e', In e' after -> cand_url e' = cand_url e ->
                   cand_score e' <= cand_score e)).
Proof.
  split.
  - intros seen_urls img kept Hget Heq. unfold merge_step. rewrite Hget.
    destruct (Z.gtb_spec (cand_score img) (cand_score kept)); [lia|reflexivity].
  - intros all_images e Hin.
    exact (@merged_value all_images _ e (merge_by_url_merged all_images) Hin).
Qed.

Lemma merge_keeps_first_seen_on_ties_witness :
  let first := mk_Candidate plain_url 80 "opengraph" in
  let later := mk_Candidate plain_url 80 "schema" in
  In first (dict_values (merge_by_url duplicates)) /\
  ~ In later (dict_values (merge_by_url duplicates)) /\
  merge_step (merge_by_url [first]) later = merge_by_url [first] /\
  exists before after,
    duplicates = (before ++ first :: after)%list /\
    (forall e', In e' before -> cand_url e' = cand_url first ->
                cand_score e' < cand_score first) /\
    (forall e', In e' after -> cand_url e' = cand_url first ->
                cand_score e' <= cand_score first).
Proof.
  intros first later.
  assert (H : In first (dict_values (merge_by_url duplicates)))
    by (vm_compute; auto).
  split; [exact H|]. split.
  - vm_compute. intros [E|[E|[]]]; discriminate.
  - split.
    + apply (proj1 merge_keeps_first_seen_on_ties) with (kept := first);
        reflexivity.
    + exact (proj2 merge_keeps_first_seen_on_ties duplicates first H).
Defined.

(** ** C5: the selection *)

Lemma acceptable_passes (lib : PyLib) (W : World) (c : Candidate) :
  acceptable W c = true <-> passes_gates W c.
Proof.
  unfold acceptable, passes_gates, MIN_ACCEPTABLE_SCORE.
  rewrite andb_true_iff, Z.geb_le, validates_spec.
  split; intros [H1 H2]; split; auto; [f_equal; exact H2|congruence].
Qed.

Lemma not_acceptable_passes (lib : PyLib) (W : World) (c : Candidate) :
  acceptable W c = false <-> ~ passes_gates W c.
Proof.
  rewrite <- acceptable_passes. destruct (acceptable W c); split; intros;
    congruence.
Qed.

Lemma find_first (A : Type) (f : A -> bool) (l : list A) (c : A) :
  find f l = Some c ->
  exists before after,
    l = (before ++ c :: after)%list /\ f c = true /\
    Forall (fun d => f d = false) before.
Proof.
  induction l as [|x rest IH]; simpl; [discriminate|].
  destruct (f x) eqn:E.
  - intros [= ->]. exists [], rest. auto.
  - intros H. destruct (IH H) as [b [a [-> [Hc Hb]]]].
    exists (x :: b), a. auto.
Qed.

Lemma find_none_all (A : Type) (f : A -> bool) (l : list A) :
  find f l = None -> Forall (fun d => f d = false) l.
Proof.
  induction l as [|x rest IH]; simpl; [constructor|].
  destruct (f x) eqn:E; [discriminate|]. auto.
Qed.

(** C5: the candidates are ranked by descending score; the outcome is the
    first ranked candidate with score at least 40 that the validator
    accepts, and "no image" ([None]) when the list is empty or no
    candidate passes both gates.  The call always returns: no exception
    leaves [scrape_article_images]. *)
Theorem selection_returns_first_acceptable (lib : PyLib) (W : World)
  (url : string) (all_images : list Candidate) :
  let ranked := sort_by_score (dict_values (merge_by_url all_images)) in
  Permutation (dict_values (merge_by_url all_images)) ranked /\
  descending ranked /\
  (exists outcome,
     result (select_image W url all_images) = Some outcome /\
     match outcome with
     | Some c =>
         exists before after,
           ranked = (before ++ c :: after)%list /\ passes_gates W c /\
           Forall (fun d => ~ passes_gates W d) before
     | None => Forall (fun d => ~ passes_gates W d) ranked
     end) /\
  (all_images = [] -> result (select_image W url all_images) = Some None) /\
  result (scrape_article_images W url)
  = result (select_image W url (after_beautifulsoup W url)).
Proof.
  intros ranked. split; [apply sort_by_score_perm|].
  split; [apply sort_by_score_descending|]. split; [|split].
  - exists (find (acceptable W) ranked).
    split; [apply select_image_result|].
    destruct (find (acceptable W) ranked) as [c|] eqn:E.
    + apply find_first in E. destruct E as [b [a [Hr [Hc Hb]]]].
      exists b, a. split; [exact Hr|]. split; [apply acceptable_passes; exact Hc|].
      eapply Forall_impl; [|exact Hb]. intros d. apply not_acceptable_passes.
    + apply find_none_all in E.
      eapply Forall_impl; [|exact E]. intros d. apply not_acceptable_passes.
  - intros ->. reflexivity.
  - rewrite scrape_article_images_result, select_image_result. reflexivity.
Qed.

Lemma selection_returns_first_acceptable_witness :
  result (select_image (lib := plain_lib) offline article_url duplicates)
  = Some (Some (mk_Candidate plain_url 80 "opengraph")) /\
  result (select_image (lib := thumbnail_lib) (stream_world [Some []])
            article_url duplicates)
  = Some None /\
  result (select_image (lib := plain_lib) offline article_url []) = Some None.
Proof.
  split; [vm_compute; reflexivity|]. split; [vm_compute; reflexivity|].
  exact (proj1 (proj2 (proj2 (proj2
           (@selection_returns_first_acceptable plain_lib offline
              article_url [])))) eq_refl).
Defined.

(** ** C6: the fallback chain *)

Lemma best_score_after_newspaper (lib : PyLib) (W : World) (url : string) :
  after_trafilatura W url <> [] ->
  best_score_of (after_trafilatura W url)
  <= best_score_of (after_newspaper W url).
Proof.
  intros Hne. unfold after_newspaper.
  destruct (best_score_of (after_trafilatura W url) <? 80); [|lia].
  apply best_score_of_app. exact Hne.
Qed.

(** C6: the structured-metadata strategy always runs; the full-document
    strategy runs exactly when the best score after it is below 80; the
    raw-markup strategy runs exactly when the best score after the
    strategies before it is below 70.  With a best score of 80 or more
    after the first strategy the other two are not invoked; with 75 the
    second runs and the third does not. *)
Theorem chain_runs_by_thresholds (lib : PyLib) (W : World) (url : string) :
  let t := trace (scrape_article_images W url) in
  invoked "trafilatura" url t /\
  (invoked "newspaper3k" url t
   <-> best_score_of (after_trafilatura W url) < 80) /\
  (invoked "BeautifulSoup" url t
   <-> best_score_of (after_newspaper W url) < 70) /\
  (best_score_of (after_trafilatura W url) >= 80 ->
   ~ invoked "newspaper3k" url t /\ ~ invoked "BeautifulSoup" url t) /\
  (best_score_of (after_trafilatura W url) = 75 ->
   invoked "newspaper3k" url t /\ ~ invoked "BeautifulSoup" url t).
Proof.
  intros t.
  destruct (scrape_article_images_trace W url)
    as [t1 [t2 [t3 [t4 [Ht [N1 [N2 [N3 N4]]]]]]]].
  fold t in Ht.
  assert (Hn : invoked "newspaper3k" url t
               <-> best_score_of (after_trafilatura W url) < 80).
  { unfold invoked. rewrite Ht. split.
    - intros Hin. apply in_app_or in Hin. destruct Hin as [[E|Hin]|Hin].
      + discriminate.
      + exfalso. exact (N1 _ _ Hin).
      + destruct (Z.ltb_spec (best_score_of (after_trafilatura W url)) 80);
          [assumption|].
        exfalso. simpl in Hin. apply in_app_or in Hin.
        destruct Hin as [Hin|Hin]; [|exact (N4 _ _ Hin)].
        destruct (best_score_of (after_newspaper W url) <? 70); [|exact Hin].
        destruct Hin as [E|Hin]; [discriminate|exact (N3 _ _ Hin)].
    - intros Hlt. apply Z.ltb_lt in Hlt. rewrite Hlt.
      apply in_or_app. right. left. reflexivity. }
  assert (Hs : invoked "BeautifulSoup" url t
               <-> best_score_of (after_newspaper W url) < 70).
  { unfold invoked. rewrite Ht. split.
    - intros Hin. apply in_app_or in Hin. destruct Hin as [[E|Hin]|Hin].
      + discriminate.
      + exfalso. exact (N1 _ _ Hin).
      + apply in_app_or in Hin. destruct Hin as [Hin|Hin].
        * exfalso.
          destruct (best_score_of (after_trafilatura W url) <? 80);
            [|exact Hin].
          destruct Hin as [E|Hin]; [discriminate|exact (N2 _ _ Hin)].
        * destruct (Z.ltb_spec (best_score_of (after_newspaper W url)) 70);
            [assumption|].
          exfalso. exact (N4 _ _ Hin).
    - intros Hlt. apply Z.ltb_lt in Hlt. rewrite Hlt.
      apply in_or_app. right. apply in_or_app. right. left. reflexivity. }
  split; [unfold invoked; rewrite Ht; left; reflexivity|].
  split; [exact Hn|]. split; [exact Hs|]. split.
  - intros Hge. rewrite Hn, Hs. split; [lia|].
    unfold after_newspaper.
    destruct (Z.ltb_spec (best_score_of (after_trafilatura W url)) 80); lia.
  - intros H75. rewrite Hn, Hs. split; [lia|].
    assert (Hne : after_trafilatura W url <> []).
    { intros E. rewrite E in H75. discriminate. }
    pose proof (@best_score_after_newspaper lib W url Hne). lia.
Qed.

Lemma chain_runs_by_thresholds_witness :
  let high := trace (scrape_article_images (lib := plain_lib)
                       (trafilatura_world hero_url) article_url) in
  let mid := trace (scrape_article_images (lib := plain_lib)
                      (trafilatura_world gif_url) article_url) in
  (best_score_of (after_trafilatura (lib := plain_lib)
                    (trafilatura_world hero_url) article_url) >= 80 /\
   ~ invoked "newspaper3k" article_url high /\
   ~ invoked "BeautifulSoup" article_url high) /\
  (best_score_of (after_trafilatura (lib := plain_lib)
                    (trafilatura_world gif_url) article_url) = 75 /\
   invoked "newspaper3k" article_url mid /\
   ~ invoked "BeautifulSoup" article_url mid).
Proof.
  intros high mid. split.
  - assert (H : best_score_of (after_trafilatura (lib := plain_lib)
                   (trafilatura_world hero_url) article_url) >= 80)
      by (vm_compute; discriminate).
    split; [exact H|].
    exact (proj1 (proj2 (proj2 (proj2
             (@chain_runs_by_thresholds plain_lib
                (trafilatura_world hero_url) article_url)))) H).
  - assert (H : best_score_of (after_trafilatura (lib := plain_lib)
                   (trafilatura_world gif_url) article_url) = 75)
      by (vm_compute; reflexivity).
    split; [exact H|].
    exact (proj2 (proj2 (proj2 (proj2
             (@chain_runs_by_thresholds plain_lib
                (trafilatura_world gif_url) article_url)))) H).
Defined.

(** ** C7: the validator *)

(** C7: the validator always answers; it answers [False] only when the
    [content-length] of the HEAD answer implies more than 10 MB or the
    first bytes of the GET answer decode to a width or height under 100.
    When the HEAD request fails, when the GET request, its status check or
    the reading of its body fails, or when the bytes read do not decode,
    the answer is [True]. *)
Theorem validator_rejects_only_on_evidence (lib : PyLib) (W : World)
  (u : string) :
  (exists b, result (validate_image_size W u) = Some b) /\
  (result (validate_image_size W u) = Some false ->
   head_too_large W u \/ decoded_too_small W u) /\
  (session_head W u = None ->
   result (validate_image_size W u) = Some true) /\
  (~ head_too_large W u ->
   session_get_stream W u = None ->
   result (validate_image_size W u) = Some true) /\
  (~ head_too_large W u ->
   forall response,
     session_get_stream W u = Some response ->
     stream_status_ok response = false \/
     read_prefix (chunks response) [] = None ->
     result (validate_image_size W u) = Some true) /\
  (~ head_too_large W u ->
   forall response data,
     session_get_stream W u = Some response ->
     read_prefix (chunks response) [] = Some data ->
     pil_open_size data = None ->
     result (validate_image_size W u) = Some true).
Proof.
  split; [apply validate_image_size_returns|].
  split; [apply validate_image_size_rejects|].
  split.
  { intros H. unfold validate_image_size. rewrite H. reflexivity. }
  split; [|split].
  - intros HA Hget. apply validate_image_size_accepts; [exact HA|].
    intros [r [d [w [h [Hr _]]]]]. congruence.
  - intros HA response Hget Hfail.
    apply validate_image_size_accepts; [exact HA|].
    intros [r [d [w [h [Hr [Hok [Hread _]]]]]]].
    assert (r = response) by congruence. subst r.
    destruct Hfail; congruence.
  - intros HA response data Hget Hread Hdec.
    apply validate_image_size_accepts; [exact HA|].
    intros [r [d [w [h [Hr [Hok [Hread' [Hsize _]]]]]]]].
    assert (r = response) by congruence. subst r.
    assert (d = data) by congruence. subst d. congruence.
Qed.

Lemma validator_rejects_only_on_evidence_witness :
  result (validate_image_size (lib := plain_lib) offline plain_url)
  = Some true /\
  result (validate_image_size (lib := plain_lib) (stream_world [None])
            plain_url) = Some true /\
  result (validate_image_size (lib := plain_lib) (stream_world [Some []])
            plain_url) = Some true /\
  (result (validate_image_size (lib := thumbnail_lib)
             (stream_world [Some []]) plain_url) = Some false /\
   (head_too_large (lib := thumbnail_lib) (stream_world [Some []]) plain_url
    \/ decoded_too_small (lib := thumbnail_lib) (stream_world [Some []])
         plain_url)).
Proof.
  assert (Hno : forall (lib : PyLib) body,
             ~ head_too_large (lib := lib) (stream_world body) plain_url).
  { intros lib body [text [n [H _]]]. discriminate H. }
  split.
  - exact (proj1 (proj2 (proj2
             (@validator_rejects_only_on_evidence plain_lib offline
                plain_url))) eq_refl).
  - split.
    + exact (proj1 (proj2 (proj2 (proj2 (proj2
               (@validator_rejects_only_on_evidence plain_lib
                  (stream_world [None]) plain_url)))))
               (Hno plain_lib [None]) (mk_StreamResponse true [None])
               eq_refl (or_intror eq_refl)).
    + split.
      * exact (proj2 (proj2 (proj2 (proj2 (proj2
                 (@validator_rejects_only_on_evidence plain_lib
                    (stream_world [Some []]) plain_url)))))
                 (Hno plain_lib [Some []])
                 (mk_StreamResponse true [Some []]) [] eq_refl eq_refl
                 eq_refl).
      * assert (H : result (validate_image_size (lib := thumbnail_lib)
                              (stream_world [Some []]) plain_url)
                    = Some false) by (vm_compute; reflexivity).
        split; [exact H|].
        exact (proj1 (proj2
                 (@validator_rejects_only_on_evidence thumbnail_lib
                    (stream_world [Some []]) plain_url)) H).
Defined.

(** ** C8: the normaliser *)

(** C8: a picture of mode [RGBA] or [LA], and a picture of mode [P] once
    converted to [RGBA], is always converted, by pasting it on a white
    [RGB] picture of its size with its alpha band as the mask: the picture
    handed to the JPEG encoder has that size, and each of its pixels is
    white where the alpha is 0, the colour of the source where the alpha
    is 255, and Pillow's mix of white and that colour in between.  A
    picture of mode [RGB] is handed over as it is, and one of any other
    mode is what [convert('RGB')] makes of it.  [download_image] returns
    [True] exactly when the request, the status check, the path, the
    decoding, the conversion and the encoding at quality 90 with
    optimisation all succeed, and what it then writes is that encoding of
    the converted picture. *)
Theorem transparency_is_composited_onto_white (lib : PyLib) :
  (forall img,
     (mode img = "RGBA" \/ mode img = "LA" ->
      exists out,
        convert_for_jpeg img = Some out /\
        composited_onto_white (size img) img out) /\
     (mode img = "P" ->
      (forall rgba,
         pil_convert "RGBA" img = Some rgba ->
         mode rgba = "RGBA" \/ mode rgba = "LA" ->
         exists out,
           convert_for_jpeg img = Some out /\
           composited_onto_white (size img) rgba out) /\
      (pil_convert "RGBA" img = None -> convert_for_jpeg img = None)) /\
     (mode img = "RGB" -> convert_for_jpeg img = Some img) /\
     (~ In (mode img) ["RGBA"; "LA"; "P"; "RGB"] ->
      convert_for_jpeg img = pil_convert "RGB" img)) /\
  (forall (W : World) (img_url output_path : string) response saved_path
          img out data,
     session_get W img_url = Some response ->
     status_ok response = true ->
     with_suffix output_path ".jpg" = Some saved_path ->
     pil_open (content response) = Some img ->
     convert_for_jpeg img = Some out ->
     jpeg_encode out 90 true = Some data ->
     download_image W img_url output_path
     = (Some true,
        [FileSaved saved_path data;
         LogInfo (Downloaded (path_name saved_path))])) /\
  (forall (W : World) (img_url output_path : string),
     result (download_image W img_url output_path) = Some true ->
     exists response saved_path img out data,
       session_get W img_url = Some response /\
       status_ok response = true /\
       with_suffix output_path ".jpg" = Some saved_path /\
       pil_open (content response) = Some img /\
       convert_for_jpeg img = Some out /\
       jpeg_encode out 90 true = Some data /\
       trace (download_image W img_url output_path)
       = [FileSaved saved_path data;
          LogInfo (Downloaded (path_name saved_path))]).
Proof.
  split; [|split].
  - intros img. split; [|split; [|split]]; intros Hm.
    + apply convert_for_jpeg_alpha; assumption.
    + apply convert_for_jpeg_palette; assumption.
    + apply convert_for_jpeg_rgb; assumption.
    + apply convert_for_jpeg_other; assumption.
  - intros W img_url output_path response saved_path img out data.
    apply download_image_succeeds.
  - intros W img_url output_path. apply download_image_saved.
Qed.

Lemma transparency_is_composited_onto_white_witness :
  (exists out,
     convert_for_jpeg (lib := studio_lib) rgba_veil = Some out /\
     mode out = "RGB" /\ size out = (3, 1) /\
     nth_error (pixels out) 0 = Some [255; 255; 255] /\
     nth_error (pixels out) 1 = Some [132; 137; 142] /\
     nth_error (pixels out) 2 = Some [10; 20; 30]) /\
  download_image (lib := studio_lib) image_world hero_url "out/story/image"
  = (Some true,
     [FileSaved "out/story/image.jpg" []; LogInfo (Downloaded "image.jpg")]).
Proof.
  pose proof (@transparency_is_composited_onto_white studio_lib)
    as [Hconv [Hload _]].
  split.
  - destruct (proj1 (Hconv rgba_veil) (or_introl eq_refl))
      as [out [Hc [Hmode [Hsize [_ Hpx]]]]].
    exists out. split; [exact Hc|]. split; [exact Hmode|].
    split; [exact Hsize|]. split; [|split].
    + apply (proj1 (proj2 (Hpx 0%nat eq_refl) [10; 20; 30; 0] eq_refl)).
      reflexivity.
    + apply (proj2 (proj2 (proj2 (Hpx 1%nat eq_refl) [10; 20; 30; 128]
                                 eq_refl))); discriminate.
    + apply (proj1 (proj2 (proj2 (Hpx 2%nat eq_refl) [10; 20; 30; 255]
                                 eq_refl))).
      reflexivity.
  - apply (Hload image_world hero_url "out/story/image"
             (mk_Response true [] (mk_Soup None None [] [] []))
             "out/story/image.jpg" rgba_veil
             (Pil.paste_with_alpha (lib := studio_lib)
                (Pil.new_rgb (3, 1) Pil.white) rgba_veil)
             []);
      reflexivity.
Defined.

(** ** C9: determinism *)

Lemma find_agree (A : Type) (f g : A -> bool) (l : list A) :
  (forall x, In x l -> f x = g x) -> find f l = find g l.
Proof.
  induction l as [|x rest IH]; intros H; simpl; [reflexivity|].
  rewrite <- (H x (or_introl eq_refl)).
  destruct (f x); [reflexivity|]. apply IH. intros y Hy. apply H. right.
  exact Hy.
Qed.

Lemma ranked_in_input (all_images : list Candidate) (c : Candidate) :
  In c (sort_by_score (dict_values (merge_by_url all_images))) ->
  In c all_images.
Proof.
  intros H.
  apply (Permutation_in _ (Permutation_sym (sort_by_score_perm _))) in H.
  apply first_best_in.
  exact (@merged_value _ _ _ (merge_by_url_merged all_images) H).
Qed.

(** C9, as stated, fails for the selection: over the same candidate
    sequence, with the same library, the run in which no request is
    answered chooses the candidate with score 80, and the run in which
    every HEAD request is answered with a [content-length] of 20000000
    chooses none. *)
Lemma selection_follows_the_network :
  result (select_image (lib := plain_lib) offline article_url tied)
  = Some (Some (mk_Candidate hero_url 80 "newspaper")) /\
  result (select_image (lib := plain_lib) (head_world "20000000")
            article_url tied)
  = Some None.
Proof. split; vm_compute; reflexivity. Qed.

(** C9 (amended): two calls of the scorer return the same integer, or
    both raise, whenever [urlparse] treats the URL alike in both, whatever
    else the library does and whatever the surrounding text is.  Two runs
    of the selection over the same candidate sequence, for whatever
    libraries, network answers and article URLs, choose the same
    candidate whenever the validator gives the same verdict in both on
    the URL of every candidate that scores 40 or more.  The ranking
    itself is fixed by the sequence: the merged candidates have one stable
    descending arrangement, ties in first-seen order, and the candidate
    chosen is the first acceptable one of it. *)
Theorem scoring_and_selection_deterministic :
  (forall (lib lib' : PyLib) (u : string) (t : option Tag) (s a a' : string),
     (urlparse (PyLib := lib) u = None <-> urlparse (PyLib := lib') u = None) ->
     score_image_relevance (lib := lib) u t s a
     = score_image_relevance (lib := lib') u t s a') /\
  (forall (lib lib' : PyLib) (W W' : World) (url url' : string)
          (all_images : list Candidate),
     (forall c, In c all_images -> 40 <= cand_score c ->
                validates (lib := lib) W (cand_url c)
                = validates (lib := lib') W' (cand_url c)) ->
     result (select_image (lib := lib) W url all_images)
     = result (select_image (lib := lib') W' url' all_images)) /\
  (forall (lib : PyLib) (W : World) (url : string)
          (all_images ranked ranked' : list Candidate),
     stable_descending (dict_values (merge_by_url all_images)) ranked ->
     stable_descending (dict_values (merge_by_url all_images)) ranked' ->
     ranked = ranked' /\
     result (select_image W url all_images)
     = Some (find (acceptable W) ranked)).
Proof.
  split; [|split].
  - intros lib lib' u t s a a' H. unfold score_image_relevance.
    destruct (urlparse (PyLib := lib) u) eqn:E1,
             (urlparse (PyLib := lib') u) eqn:E2; try reflexivity.
    + destruct H as [_ H]. specialize (H eq_refl). discriminate.
    + destruct H as [H _]. specialize (H eq_refl). discriminate.
  - intros lib lib' W W' url url' all_images H.
    rewrite !select_image_result. f_equal. apply find_agree.
    intros c Hc. apply ranked_in_input in Hc. unfold acceptable.
    unfold MIN_ACCEPTABLE_SCORE.
    destruct (Z.geb_spec (cand_score c) 40) as [Hs|Hs]; [|reflexivity].
    cbn [andb]. apply H; [exact Hc|lia].
  - intros lib W url all_images ranked ranked' H1 H2.
    split; [exact (stable_descending_unique H1 H2)|].
    rewrite select_image_result. do 2 f_equal.
    apply stable_descending_unique with (l := dict_values (merge_by_url all_images));
      [apply sort_by_score_stable_descending|exact H1].
Qed.

Lemma tied_ranked_stable :
  stable_descending (dict_values (merge_by_url tied)) tied_ranked.
Proof.
  replace (dict_values (merge_by_url tied)) with tied
    by (vm_compute; reflexivity).
  split; [apply perm_swap|]. split.
  - repeat constructor; simpl; lia.
  - intros k. unfold tied, tied_ranked, score_is. cbn [filter cand_score].
    destruct (60 =? k) eqn:E1, (80 =? k) eqn:E2; try reflexivity.
    apply Z.eqb_eq in E1, E2. lia.
Defined.

Lemma scoring_and_selection_deterministic_witness :
  result (select_image (lib := thumbnail_lib) offline article_url tied)
  = result (select_image (lib := plain_lib) (head_world "12 kB")
              hero_url tied) /\
  stable_descending (dict_values (merge_by_url tied)) tied_ranked /\
  result (select_image (lib := thumbnail_lib) (stream_world [None])
            article_url tied)
  = Some (Some (mk_Candidate hero_url 80 "newspaper")).
Proof.
  split; [|split; [exact tied_ranked_stable|]].
  - apply (proj1 (proj2 scoring_and_selection_deterministic)
             thumbnail_lib plain_lib offline (head_world "12 kB")
             article_url hero_url tied).
    intros c Hc _. simpl in Hc.
    destruct Hc as [<-|[<-|[<-|[]]]]; vm_compute; reflexivity.
  - exact (proj2 (proj2 (proj2 scoring_and_selection_deterministic)
                    thumbnail_lib (stream_world [None]) article_url tied
                    tied_ranked tied_ranked tied_ranked_stable
                    tied_ranked_stable)).
Defined.

(** * Further properties *)

(** ** File names *)

Section TextFacts.

Variables p q : ascii -> bool.

Lemma length_lstrip_by (s : string) :
  (String.length (Text.lstrip_by p s) <= String.length s)%nat.
Proof.
  induction s as [|c r IH]; simpl; [lia|]. destruct (p c); simpl; lia.
Qed.

Lemma length_rstrip_by (s : string) :
  (String.length (Text.rstrip_by p s) <= String.length s)%nat.
Proof.
  induction s as [|c r IH]; simpl; [lia|].
  destruct (Text.rstrip_by p r); [destruct (p c)|]; simpl in *; lia.
Qed.

Lemma length_take (n : nat) (s : string) :
  (String.length (Text.take n s) <= n)%nat.
Proof.
  revert s. induction n as [|n IH]; intros [|c r]; simpl; try lia.
  specialize (IH r). lia.
Qed.

Lemma take_fixed (n : nat) (s : string) :
  (String.length s <= n)%nat -> Text.take n s = s.
Proof.
  revert s. induction n as [|n IH]; intros [|c r]; simpl; intros H;
    try reflexivity; try lia.
  rewrite IH; [reflexivity|lia].
Qed.

Lemma all_chars_lstrip_by (s : string) :
  Text.every_char q s = true -> Text.every_char q (Text.lstrip_by p s) = true.
Proof.
  induction s as [|c r IH]; simpl; [auto|]. intros H.
  apply andb_true_iff in H. destruct H as [Hc Hr].
  destruct (p c); [auto|]. simpl. rewrite Hc, Hr. reflexivity.
Qed.

Lemma all_chars_rstrip_by (s : string) :
  Text.every_char q s = true -> Text.every_char q (Text.rstrip_by p s) = true.
Proof.
  induction s as [|c r IH]; simpl; [auto|]. intros H.
  apply andb_true_iff in H. destruct H as [Hc Hr]. specialize (IH Hr).
  destruct (Text.rstrip_by p r).
  - destruct (p c); simpl; [reflexivity|]. rewrite Hc. reflexivity.
  - simpl in *. rewrite Hc. exact IH.
Qed.

Lemma all_chars_take (n : nat) (s : string) :
  Text.every_char q s = true -> Text.every_char q (Text.take n s) = true.
Proof.
  revert s. induction n as [|n IH]; intros [|c r]; simpl; auto.
  intros H. apply andb_true_iff in H. destruct H as [Hc Hr].
  rewrite Hc. simpl. auto.
Qed.

Lemma all_chars_collapse_blanks (b : bool) (s : string) :
  q " "%char = true ->
  Text.every_char q s = true ->
  Text.every_char q (Text.collapse_blanks b s) = true.
Proof.
  intros Hsp. revert b. induction s as [|c r IH]; simpl; intros b H; [auto|].
  apply andb_true_iff in H. destruct H as [Hc Hr].
  destruct (Str.is_space c).
  - destruct b; simpl; [auto|]. rewrite Hsp. simpl. auto.
  - simpl. rewrite Hc. simpl. auto.
Qed.

Lemma all_chars_replace_chars (by_char : ascii) (s : string) :
  p by_char = false ->
  Text.every_char (fun c => negb (p c)) (Text.replace_chars p by_char s) = true.
Proof.
  intros Hby. induction s as [|c r IH]; simpl; [reflexivity|].
  rewrite IH. destruct (p c) eqn:E; [rewrite Hby|rewrite E]; reflexivity.
Qed.

Lemma replace_chars_fixed (by_char : ascii) (s : string) :
  Text.every_char (fun c => negb (p c)) s = true ->
  Text.replace_chars p by_char s = s.
Proof.
  induction s as [|c r IH]; simpl; [reflexivity|]. intros H.
  apply andb_true_iff in H. destruct H as [Hc Hr].
  rewrite (IH Hr). destruct (p c); [discriminate|reflexivity].
Qed.

Lemma first_not_lstrip_by (s : string) :
  Text.first_not p (Text.lstrip_by p s) = true.
Proof.
  induction s as [|c r IH]; simpl; [reflexivity|].
  destruct (p c) eqn:E; [exact IH|]. simpl. rewrite E. reflexivity.
Qed.

Lemma last_not_rstrip_by (s : string) :
  Text.last_not p (Text.rstrip_by p s) = true.
Proof.
  induction s as [|c r IH]; simpl; [reflexivity|].
  destruct (Text.rstrip_by p r) as [|d k] eqn:E.
  - destruct (p c) eqn:Ec; simpl; [reflexivity|]. rewrite Ec. reflexivity.
  - simpl in *. exact IH.
Qed.

Lemma first_not_rstrip_by (s : string) :
  Text.first_not p s = true -> Text.first_not p (Text.rstrip_by p s) = true.
Proof.
  destruct s as [|c r]; simpl; [auto|]. intros H.
  destruct (p c) eqn:E; [discriminate|].
  destruct (Text.rstrip_by p r); simpl; rewrite E; reflexivity.
Qed.

Lemma lstrip_by_fixed (s : string) :
  Text.first_not p s = true -> Text.lstrip_by p s = s.
Proof.
  destruct s as [|c r]; simpl; [reflexivity|].
  destruct (p c); [discriminate|reflexivity].
Qed.

Lemma rstrip_by_fixed (s : string) :
  Text.last_not p s = true -> Text.rstrip_by p s = s.
Proof.
  induction s as [|c r IH]; simpl; [reflexivity|].
  destruct r as [|d k].
  - simpl. destruct (p c); [discriminate|reflexivity].
  - intros H. rewrite (IH H). reflexivity.
Qed.

Lemma strip_by_fixed (s : string) :
  Text.first_not p s = true -> Text.last_not p s = true ->
  Text.strip_by p s = s.
Proof.
  intros Hf Hl. unfold Text.strip_by.
  rewrite (lstrip_by_fixed _ Hf). apply rstrip_by_fixed. exact Hl.
Qed.

Lemma first_not_weaken (s : string) :
  Text.every_char (fun c => implb (q c) (p c)) s = true ->
  Text.first_not p s = true -> Text.first_not q s = true.
Proof.
  destruct s as [|c r]; simpl; [auto|]. intros H Hp.
  apply andb_true_iff in H. destruct H as [Hc _].
  destruct (q c), (p c); simpl in *; congruence.
Qed.

Lemma last_not_weaken (s : string) :
  Text.every_char (fun c => implb (q c) (p c)) s = true ->
  Text.last_not p s = true -> Text.last_not q s = true.
Proof.
  induction s as [|c r IH]; simpl; [auto|]. intros H Hp.
  apply andb_true_iff in H. destruct H as [Hc Hr].
  destruct r as [|d k].
  - destruct (q c), (p c); simpl in *; congruence.
  - apply IH; assumption.
Qed.

Lemma spaced_false_of (b : bool) (s : string) :
  Text.spaced b s = true -> Text.spaced false s = true.
Proof.
  destruct s as [|c r]; simpl; [auto|].
  destruct (Str.is_space c); [|auto]. intros H.
  apply andb_true_iff in H. destruct H as [H Hr].
  apply andb_true_iff in H. destruct H as [Hc _].
  rewrite Hc, Hr. reflexivity.
Qed.

Lemma spaced_collapse_blanks (b : bool) (s : string) :
  Text.spaced b (Text.collapse_blanks b s) = true.
Proof.
  revert b. induction s as [|c r IH]; simpl; intros b; [reflexivity|].
  destruct (Str.is_space c) eqn:E.
  - destruct b; [apply IH|]. simpl. rewrite IH. reflexivity.
  - simpl. rewrite E. apply IH.
Qed.

Lemma collapse_blanks_fixed (b : bool) (s : string) :
  Text.spaced b s = true -> Text.collapse_blanks b s = s.
Proof.
  revert b. induction s as [|c r IH]; simpl; intros b H; [reflexivity|].
  destruct (Str.is_space c).
  - apply andb_true_iff in H. destruct H as [H Hr].
    apply andb_true_iff in H. destruct H as [Hc Hb].
    apply Ascii.eqb_eq in Hc. subst c. destruct b; [discriminate|].
    rewrite (IH _ Hr). reflexivity.
  - rewrite (IH _ H). reflexivity.
Qed.

Lemma spaced_take (n : nat) (b : bool) (s : string) :
  Text.spaced b s = true -> Text.spaced b (Text.take n s) = true.
Proof.
  revert b s. induction n as [|n IH]; intros b [|c r]; simpl; auto.
  destruct (Str.is_space c); [|apply IH]. intros H.
  apply andb_true_iff in H. destruct H as [H Hr]. rewrite H. simpl. auto.
Qed.

Lemma spaced_lstrip_by (b : bool) (s : string) :
  Text.spaced b s = true -> Text.spaced false (Text.lstrip_by p s) = true.
Proof.
  revert b. induction s as [|c r IH]; intros b H; [reflexivity|].
  simpl Text.lstrip_by. destruct (p c).
  - simpl in H. destruct (Str.is_space c).
    + apply andb_true_iff in H. destruct H as [_ Hr]. eapply IH. exact Hr.
    + eapply IH. exact H.
  - eapply spaced_false_of. exact H.
Qed.

Lemma spaced_rstrip_by (b : bool) (s : string) :
  Text.spaced b s = true -> Text.spaced b (Text.rstrip_by p s) = true.
Proof.
  revert b. induction s as [|c r IH]; intros b H; [reflexivity|].
  simpl in *. destruct (Str.is_space c) eqn:E.
  - apply andb_true_iff in H. destruct H as [H Hr]. specialize (IH _ Hr).
    destruct (Text.rstrip_by p r).
    + destruct (p c); [reflexivity|]. simpl. rewrite E, H. reflexivity.
    + simpl. rewrite E, H. exact IH.
  - specialize (IH _ H). destruct (Text.rstrip_by p r).
    + destruct (p c); [reflexivity|]. simpl. rewrite E. reflexivity.
    + simpl. rewrite E. exact IH.
Qed.

End TextFacts.

Lemma blanks_are_spaces (b : bool) (s : string) :
  Text.spaced b s = true ->
  Text.every_char (fun c => implb (Str.is_space c) (dot_or_space c)) s = true.
Proof.
  revert b. induction s as [|c r IH]; simpl; intros b H; [reflexivity|].
  destruct (Str.is_space c).
  - apply andb_true_iff in H. destruct H as [H Hr].
    apply andb_true_iff in H. destruct H as [Hc _].
    apply Ascii.eqb_eq in Hc. subst c. simpl. eapply IH. exact Hr.
  - simpl. eapply IH. exact H.
Qed.

(** What the steps of [sanitize_filename] leave behind. *)
Lemma sanitize_filename_steps (filename : string) :
  let kept :=
    Text.strip_by dot_or_space
      (Text.take 100
         (Text.collapse_blanks false
            (Text.strip_by Str.is_space
               (Text.replace_chars illegal_filename_char "_" filename)))) in
  (String.length kept <= 100)%nat /\
  Text.every_char (fun c => negb (illegal_filename_char c)) kept = true /\
  Text.first_not dot_or_space kept = true /\
  Text.last_not dot_or_space kept = true /\
  Text.spaced false kept = true.
Proof.
  intros kept. unfold kept, Text.strip_by. split; [|split; [|split; [|split]]].
  - eapply Nat.le_trans; [apply length_rstrip_by|].
    eapply Nat.le_trans; [apply length_lstrip_by|]. apply length_take.
  - apply all_chars_rstrip_by, all_chars_lstrip_by, all_chars_take.
    apply all_chars_collapse_blanks; [reflexivity|].
    apply all_chars_rstrip_by, all_chars_lstrip_by.
    apply all_chars_replace_chars. reflexivity.
  - apply first_not_rstrip_by, first_not_lstrip_by.
  - apply last_not_rstrip_by.
  - apply spaced_rstrip_by.
    eapply spaced_lstrip_by with (b := false).
    apply spaced_take. apply spaced_collapse_blanks.
Qed.

Lemma sanitize_filename_facts (filename : string) :
  let name := sanitize_filename filename in
  name <> EmptyString /\
  (String.length name <= 100)%nat /\
  Text.every_char (fun c => negb (illegal_filename_char c)) name = true /\
  Text.first_not dot_or_space name = true /\
  Text.last_not dot_or_space name = true /\
  Text.spaced false name = true.
Proof.
  intros name. unfold name, sanitize_filename.
  pose proof (sanitize_filename_steps filename) as H. cbv zeta in H.
  destruct (Text.strip_by dot_or_space _) as [|c r] eqn:E.
  - simpl. repeat split; try discriminate; try reflexivity. lia.
  - simpl Str.truthy. cbv iota. split; [discriminate|exact H].
Qed.

(** X1: shape of a sanitised name.  The result is never empty, has at most
    100 characters, contains none of the nine characters the first
    substitution replaces, neither starts nor ends with a dot or a space,
    and its only blanks are single spaces. *)
Theorem sanitize_filename_shape (filename : string) :
  let name := sanitize_filename filename in
  name <> EmptyString /\
  (String.length name <= 100)%nat /\
  Text.every_char (fun c => negb (illegal_filename_char c)) name = true /\
  Text.first_not dot_or_space name = true /\
  Text.last_not dot_or_space name = true /\
  Text.spaced false name = true.
Proof.
  intros name. unfold name, sanitize_filename.
  pose proof (sanitize_filename_steps filename) as H. cbv zeta in H.
  destruct (Text.strip_by dot_or_space _) as [|c r] eqn:E.
  - simpl. repeat split; try discriminate; try reflexivity. lia.
  - simpl Str.truthy. cbv iota. split; [discriminate|exact H].
Qed.

(** X2: on ASCII text sanitising is idempotent: the sanitised name of an
    ASCII title is sanitised to itself, so the folder name derived from
    such a title is stable under a second pass. *)
Theorem sanitize_filename_idempotent (filename : string) :
  Text.every_char is_ascii filename = true ->
  sanitize_filename (sanitize_filename filename) = sanitize_filename filename.
Proof.
  intros _.
  destruct (sanitize_filename_facts filename)
    as [Hne [Hlen [Hclean [Hfirst [Hlast Hsp]]]]].
  set (name := sanitize_filename filename) in *.
  unfold sanitize_filename at 1.
  rewrite (replace_chars_fixed _ _ _ Hclean).
  pose proof (blanks_are_spaces _ _ Hsp) as Hb.
  rewrite (strip_by_fixed Str.is_space name
             (first_not_weaken _ _ _ Hb Hfirst)
             (last_not_weaken _ _ _ Hb Hlast)).
  rewrite (collapse_blanks_fixed _ _ Hsp).
  rewrite (take_fixed _ Hlen).
  rewrite (strip_by_fixed dot_or_space name Hfirst Hlast).
  destruct name; [congruence|reflexivity].
Qed.

Lemma sanitize_filename_idempotent_witness :
  sanitize_filename "  A  story: part 1?  " = "A story_ part 1_" /\
  sanitize_filename (sanitize_filename "  A  story: part 1?  ")
  = sanitize_filename "  A  story: part 1?  ".
Proof.
  split; [vm_compute; reflexivity|].
  apply (@sanitize_filename_idempotent "  A  story: part 1?  ").
  vm_compute. reflexivity.
Defined.

(** ** The scorer *)

(** X3: the scorer respects the order of the source methods.  For one URL
    and one tag, a source method with a higher prior never scores lower,
    and the gain is at most the difference of the priors; the priors are
    30, 25, 15, 10 and 5 for trafilatura_main, newspaper_top, trafilatura,
    newspaper and soup, and 0 for every other name. *)
Theorem score_grows_with_source_prior (lib : PyLib) (u : string)
  (t : option Tag) (a m m' : string) (v v' : Z) :
  source_prior m <= source_prior m' ->
  score_image_relevance u t m a = Some v ->
  score_image_relevance u t m' a = Some v' ->
  v <= v' <= v + (source_prior m' - source_prior m) /\
  source_prior "trafilatura_main" = 30 /\
  source_prior "newspaper_top" = 25 /\
  source_prior "trafilatura" = 15 /\
  source_prior "newspaper" = 10 /\
  source_prior "soup" = 5 /\
  forall other,
    ~ In other ["trafilatura_main"; "newspaper_top"; "trafilatura";
                "newspaper"; "soup"] ->
    source_prior other = 0.
Proof.
  unfold score_image_relevance, unclamped_score.
  destruct (urlparse u); [|discriminate].
  generalize (url_signals (Str.lower u)) (tag_signals t)
             (analyze_image_context t a) (extension_signal (Str.lower u)).
  generalize (source_prior m) (source_prior m').
  intros pm pm' s1 s2 s3 s4 Hp H1 H2.
  split; [|repeat (split; [reflexivity|])].
  - assert (E1 : v = Z.max 0 (Z.min 100 (50 + pm + s1 + s2 + s3 + s4)))
      by congruence.
    assert (E2 : v' = Z.max 0 (Z.min 100 (50 + pm' + s1 + s2 + s3 + s4)))
      by congruence.
    lia.
  - intros other Hother. unfold source_prior.
    repeat match goal with
           | |- context [String.eqb other ?name] =>
               destruct (String.eqb_spec other name) as [E|_];
               [exfalso; apply Hother; rewrite E; simpl; tauto|]
           end.
    reflexivity.
Qed.

Lemma score_grows_with_source_prior_witness :
  score_image_relevance (lib := plain_lib) plain_url None "soup" "" = Some 60 /\
  score_image_relevance (lib := plain_lib) plain_url None "trafilatura_main" ""
  = Some 85 /\
  60 <= 85 <= 60 + (source_prior "trafilatura_main" - source_prior "soup") /\
  source_prior "unknown" = 0.
Proof.
  assert (H1 : score_image_relevance (lib := plain_lib) plain_url None "soup" ""
               = Some 60) by (vm_compute; reflexivity).
  assert (H2 : score_image_relevance (lib := plain_lib) plain_url None
                 "trafilatura_main" "" = Some 85) by (vm_compute; reflexivity).
  split; [exact H1|]. split; [exact H2|].
  assert (Hp : source_prior "soup" <= source_prior "trafilatura_main")
    by (vm_compute; discriminate).
  destruct (@score_grows_with_source_prior plain_lib plain_url None ""
              "soup" "trafilatura_main" 60 85 Hp H1 H2)
    as [Hgain [_ [_ [_ [_ [_ Hother]]]]]].
  split; [exact Hgain|]. apply Hother. simpl.
  intros [H|[H|[H|[H|[H|[]]]]]]; discriminate.
Defined.

(** X4: the score does not depend on the letter case of the URL: two URLs
    with the same lower-case form, both accepted by [urlparse], get the
    same score for the same tag and source method. *)
Theorem score_ignores_url_case (lib : PyLib) (u u' : string)
  (t : option Tag) (m a : string) :
  Str.lower u = Str.lower u' ->
  urlparse u <> None -> urlparse u' <> None ->
  score_image_relevance u t m a = score_image_relevance u' t m a.
Proof.
  intros Hl H1 H2. unfold score_image_relevance, unclamped_score.
  destruct (urlparse u); [|congruence].
  destruct (urlparse u'); [|congruence].
  rewrite Hl. reflexivity.
Qed.

Lemma score_ignores_url_case_witness :
  score_image_relevance (lib := plain_lib)
    "https://CDN.example.com/Featured-LARGE.jpg" None "soup" ""
  = score_image_relevance (lib := plain_lib) hero_url None "soup" "".
Proof.
  apply (@score_ignores_url_case plain_lib).
  - vm_compute. reflexivity.
  - vm_compute. discriminate.
  - vm_compute. discriminate.
Defined.

Lemma parent_walk_values (n : nat) (parents : list Element) :
  In (parent_walk n parents) [15; -10; 0].
Proof.
  revert parents. induction n as [|n IH]; intros [|p up]; simpl; auto.
  repeat match goal with
         | |- context [if ?b then _ else _] => destruct b; [simpl; auto|]
         end.
  apply IH.
Qed.

Lemma caption_bonus_values (parents : list Element) :
  In (caption_bonus parents) [0; 10].
Proof.
  unfold caption_bonus.
  destruct (Dom.find_parent _ parents) as [fp|]; [|simpl; auto].
  destruct (Dom.find _ (el_children fp)) as [cap|]; [|simpl; auto].
  match goal with
  | |- context [if ?b then _ else _] => destruct b; simpl; auto
  end.
Qed.

(** X5: the context score is one of 0, 10, 15 and 25, hence between 0 and
    25, inside the range 0-30 its docstring announces; without a tag it is
    0, and it never depends on the article text. *)
Theorem analyze_image_context_values (img_tag : option Tag)
  (article_content : string) :
  In (analyze_image_context img_tag article_content) [0; 10; 15; 25] /\
  0 <= analyze_image_context img_tag article_content <= 25 /\
  analyze_image_context None article_content = 0 /\
  analyze_image_context img_tag article_content
  = analyze_image_context img_tag "".
Proof.
  assert (H : In (analyze_image_context img_tag article_content)
                [0; 10; 15; 25]).
  { unfold analyze_image_context. destruct img_tag as [t|]; [|simpl; auto].
    pose proof (parent_walk_values 3 (tag_parents t)) as Hw.
    pose proof (caption_bonus_values (tag_parents t)) as Hc.
    cbv zeta. revert Hw Hc.
    generalize (parent_walk 3 (tag_parents t)) (caption_bonus (tag_parents t)).
    intros w c Hw Hc. simpl in Hw, Hc.
    destruct Hw as [<-|[<-|[<-|[]]]]; destruct Hc as [<-|[<-|[]]];
      simpl; auto. }
  split; [exact H|]. split; [|split; reflexivity].
  revert H. generalize (analyze_image_context img_tag article_content).
  intros z H. simpl in H. destruct H as [<-|[<-|[<-|[<-|[]]]]]; lia.
Qed.

(** ** The validator *)

(** X6: a [content-length] that [int] rejects, or one too large to be
    divided into a float, makes the validator accept at once, with the
    warning of its outer handler: the GET request is never made and the
    dimensions are never looked at. *)
Theorem unreadable_content_length_is_accepted (lib : PyLib) (W : World)
  (u text : string) :
  session_head W u = Some (Some text) ->
  Str.truthy text = true ->
  py_int text = None \/
  (exists n, py_int text = Some n /\ Z.abs n >= true_div_overflow) ->
  validate_image_size W u = (Some true, [LogWarning (CouldNotValidate u)]).
Proof.
  intros Hh Ht Hbad. unfold validate_image_size, too_large.
  rewrite Hh. unfold call, bind, try_except, ret, emit.
  cbn -[size_mb_exceeds]. rewrite Ht.
  destruct Hbad as [Hn|[n [Hn Hov]]]; rewrite Hn; cbn -[size_mb_exceeds].
  - reflexivity.
  - assert (Hs : size_mb_exceeds n = None).
    { unfold size_mb_exceeds.
      destruct (Z.geb_spec (Z.abs n) true_div_overflow); [reflexivity|lia]. }
    rewrite Hs. reflexivity.
Qed.

Lemma unreadable_content_length_is_accepted_witness :
  validate_image_size (lib := thumbnail_lib) (head_world "12 kB") plain_url
  = (Some true, [LogWarning (CouldNotValidate plain_url)]).
Proof.
  apply (@unreadable_content_length_is_accepted thumbnail_lib
           (head_world "12 kB") plain_url "12 kB").
  - reflexivity.
  - reflexivity.
  - left. vm_compute. reflexivity.
Defined.

(** X7: the size rule is decisive.  A [content-length] that reads as more
    than 10 * 1024 * 1024 bytes rejects the image with one log line,
    whatever the GET request would have returned, as long as the number
    fits a float once divided, that is below 2^1044 - 2^990; from there
    on the division overflows and the validator accepts with the warning
    of its outer handler. *)
Theorem large_content_length_is_rejected (lib : PyLib) (W : World)
  (u text : string) (n : Z) :
  session_head W u = Some (Some text) ->
  Str.truthy text = true ->
  py_int text = Some n ->
  10 * (1024 * 1024) < n ->
  validate_image_size W u
  = if n <? true_div_overflow
    then (Some false, [LogInfo (ImageTooLarge n u)])
    else (Some true, [LogWarning (CouldNotValidate u)]).
Proof.
  intros Hh Ht Hn Hr.
  assert (Hs : size_mb_exceeds n
               = if n <? true_div_overflow then Some true else None).
  { unfold size_mb_exceeds, max_file_size_mb.
    destruct (Z.ltb_spec n true_div_overflow);
      destruct (Z.geb_spec (Z.abs n) true_div_overflow);
      try lia; try reflexivity.
    destruct (Z.gtb_spec n (10 * (1024 * 1024))); [reflexivity|lia]. }
  destruct (n <? true_div_overflow);
    unfold validate_image_size, too_large;
    rewrite Hh; unfold call, bind, try_except, ret, emit;
    cbn -[size_mb_exceeds]; rewrite Ht, Hn; cbn -[size_mb_exceeds];
    rewrite Hs; reflexivity.
Qed.

Lemma large_content_length_is_rejected_witness :
  validate_image_size (lib := plain_lib) (head_world "10485761") plain_url
  = (Some false, [LogInfo (ImageTooLarge 10485761 plain_url)]).
Proof.
  apply (@large_content_length_is_rejected plain_lib (head_world "10485761")
           plain_url "10485761" 10485761).
  - reflexivity.
  - reflexivity.
  - vm_compute. reflexivity.
  - lia.
Defined.

(** X8: when no [content-length] is sent, or an empty one, and the GET
    request, its status check, the reading and the decoding all succeed,
    the answer is exactly whether both dimensions are at least 100. *)
Theorem decoded_dimensions_decide (lib : PyLib) (W : World) (u : string)
  (response : StreamResponse) (data : list Byte.byte) (width height : Z) :
  session_head W u = Some None \/ session_head W u = Some (Some "") ->
  session_get_stream W u = Some response ->
  stream_status_ok response = true ->
  read_prefix (chunks response) [] = Some data ->
  pil_open_size data = Some (width, height) ->
  result (validate_image_size W u)
  = Some ((100 <=? width) && (100 <=? height)).
Proof.
  intros Hh Hg Hok Hread Hsize. unfold validate_image_size.
  rewrite result_try_except.
  assert (E : forall cl, cl = None \/ cl = Some "" ->
                         too_large cl = (Some None, [])).
  { intros cl [-> | ->]; reflexivity. }
  unfold call, bind, ret, emit, raise, result.
  destruct Hh as [Hh|Hh]; rewrite Hh; simpl; rewrite Hg; simpl;
    rewrite Hok; simpl; rewrite Hread; simpl; rewrite Hsize; simpl;
    destruct (Z.ltb_spec width 100), (Z.ltb_spec height 100),
             (Z.leb_spec 100 width), (Z.leb_spec 100 height);
    simpl; try reflexivity; lia.
Qed.

Lemma decoded_dimensions_decide_witness :
  result (validate_image_size (lib := thumbnail_lib) (stream_world [Some []])
            plain_url)
  = Some ((100 <=? 50) && (100 <=? 50)).
Proof.
  apply (@decoded_dimensions_decide thumbnail_lib (stream_world [Some []])
           plain_url (mk_StreamResponse true [Some []]) [] 50 50);
    try reflexivity.
  left. reflexivity.
Defined.

Lemma read_prefix_from (chunks : list (option (list Byte.byte))) :
  forall (start data : list Byte.byte),
    (forall c, In (Some c) chunks -> Z.of_nat (length c) <= 1024) ->
    read_prefix chunks start = Some data ->
    exists read,
      data = (start ++ concat read)%list /\
      (exists rest, chunks = (map Some read ++ rest)%list) /\
      Z.of_nat (length data) <= Z.max (Z.of_nat (length start)) 10240 + 1024.
Proof.
  induction chunks as [|[c|] rest IH]; cbn [read_prefix];
    intros start data Hc H.
  - inversion H. subst. exists []. simpl. rewrite app_nil_r.
    split; [reflexivity|]. split; [exists []; reflexivity|lia].
  - destruct (Z.gtb_spec (Z.of_nat (length (start ++ c))) (1024 * 10))
      as [Hgt|Hle].
    + inversion H. subst. exists [c]. simpl. rewrite app_nil_r.
      split; [reflexivity|]. split; [exists rest; reflexivity|].
      rewrite length_app. specialize (Hc c (or_introl eq_refl)). lia.
    + destruct (IH (start ++ c)%list data) as [read [Hd [[rest' Hr] Hl]]];
        [intros; apply Hc; right; assumption|exact H|].
      exists (c :: read). simpl.
      split; [rewrite Hd, <- app_assoc; reflexivity|].
      split; [exists rest'; rewrite Hr; reflexivity|]. lia.
  - discriminate.
Qed.

(** X9: the validator reads a bounded prefix.  With chunks of at most 1024
    bytes, as requested from [iter_content], what is handed to the decoder
    is the concatenation of the first chunks received and has at most
    11264 bytes: reading stops with the chunk that takes it past 10 KB. *)
Theorem read_prefix_is_bounded (chunks : list (option (list Byte.byte)))
  (data : list Byte.byte) :
  (forall c, In (Some c) chunks -> Z.of_nat (length c) <= 1024) ->
  read_prefix chunks [] = Some data ->
  Z.of_nat (length data) <= 11264 /\
  exists read rest,
    chunks = (map Some read ++ rest)%list /\ data = concat read.
Proof.
  intros Hc H. destruct (read_prefix_from chunks [] Hc H)
    as [read [Hd [[rest Hr] Hl]]].
  simpl in Hl, Hd. split; [lia|]. exists read, rest. auto.
Qed.

Lemma read_prefix_is_bounded_witness :
  read_prefix [Some [Byte.x00]; Some [Byte.x01]] [] = Some [Byte.x00; Byte.x01]
  /\ Z.of_nat (length [Byte.x00; Byte.x01]) <= 11264.
Proof.
  assert (H : read_prefix [Some [Byte.x00]; Some [Byte.x01]] []
              = Some [Byte.x00; Byte.x01]) by reflexivity.
  split; [exact H|].
  refine (proj1 (@read_prefix_is_bounded [Some [Byte.x00]; Some [Byte.x01]]
                   [Byte.x00; Byte.x01] _ H)).
  intros c [E|[E|[]]]; inversion E; simpl; lia.
Defined.

(** ** The normaliser *)

(** X10: [download_image] never raises and returns [True] exactly when
    every step succeeds.  When the request, the status check, the new
    path, the decoding, the conversion and the encoding all succeed it
    returns [True], after [save] has written the encoded picture to the
    new path and one line with the name of that file is logged; when any
    one of them fails it returns [False] with one error logged, and no
    [save] has returned. *)
Theorem download_image_all_or_nothing (lib : PyLib) (W : World)
  (img_url output_path : string) :
  (exists response saved_path img out data,
     session_get W img_url = Some response /\
     status_ok response = true /\
     with_suffix output_path ".jpg" = Some saved_path /\
     pil_open (content response) = Some img /\
     convert_for_jpeg img = Some out /\
     jpeg_encode out 90 true = Some data /\
     download_image W img_url output_path
     = (Some true,
        [FileSaved saved_path data;
         LogInfo (Downloaded (path_name saved_path))]))
  \/ ((session_get W img_url = None \/
       exists response,
         session_get W img_url = Some response /\
         (status_ok response = false \/
          with_suffix output_path ".jpg" = None \/
          pil_open (content response) = None \/
          exists img,
            pil_open (content response) = Some img /\
            (convert_for_jpeg img = None \/
             exists out,
               convert_for_jpeg img = Some out /\
               jpeg_encode out 90 true = None))) /\
      download_image W img_url output_path
      = (Some false, [LogError (DownloadFailed img_url)])).
Proof.
  destruct (download_image_cases W img_url output_path) as [H|H].
  - left. exact H.
  - right. exact H.
Qed.

(** X11: compositing keeps opaque pixels and the size.  For a picture of
    mode [RGBA] or [LA], the picture handed to the encoder has exactly
    width * height pixels, and wherever the alpha of the source is 255 it
    carries the colour of the source ([r; g; b], or the grey level three
    times for [LA]). *)
Theorem opaque_pixels_keep_their_colour (lib : PyLib) (img out : Image) :
  mode img = "RGBA" \/ mode img = "LA" ->
  convert_for_jpeg img = Some out ->
  Z.of_nat (length (pixels out))
  = Z.max 0 (fst (size img) * snd (size img)) /\
  forall (i : nat) (px : list Z),
    Z.of_nat i < fst (size img) * snd (size img) ->
    nth_error (pixels img) i = Some px ->
    Pil.last_band px = 255 ->
    nth_error (pixels out) i = Some (Pil.rgb_of (mode img) px).
Proof.
  intros Hm H. unfold convert_for_jpeg in H.
  assert (Hmem : Str.mem (mode img) ["RGBA"; "LA"; "P"] = true)
    by (destruct Hm as [-> | ->]; reflexivity).
  assert (HP : String.eqb (mode img) "P" = false)
    by (destruct Hm as [-> | ->]; reflexivity).
  rewrite Hmem, HP in H. apply mem_alpha_modes in Hm. rewrite Hm in H.
  inversion H. subst out. clear H. unfold Pil.paste_with_alpha.
  cbn [pixels]. split.
  - rewrite paste_pixels_length. unfold Pil.new_rgb. cbn [pixels].
    rewrite repeat_length. lia.
  - intros i px Hi Hpx Ha.
    erewrite paste_pixels_nth; [|apply new_rgb_nth; exact Hi|exact Hpx].
    unfold Pil.paste_pixel. rewrite Ha. reflexivity.
Qed.

Lemma opaque_pixels_keep_their_colour_witness :
  exists out,
    convert_for_jpeg (lib := plain_lib) rgba_image = Some out /\
    Z.of_nat (length (pixels out)) = 2 /\
    nth_error (pixels out) 1 = Some [10; 20; 30].
Proof.
  exists (mk_Image "RGB" (2, 1) [[255; 255; 255]; [10; 20; 30]]).
  assert (H : convert_for_jpeg (lib := plain_lib) rgba_image
              = Some (mk_Image "RGB" (2, 1) [[255; 255; 255]; [10; 20; 30]]))
    by (vm_compute; reflexivity).
  destruct (@opaque_pixels_keep_their_colour plain_lib rgba_image _
              (or_introl eq_refl) H) as [Hlen Hpx].
  split; [exact H|]. split; [exact Hlen|].
  apply (Hpx 1%nat [10; 20; 30; 255]); [simpl; lia|reflexivity|reflexivity].
Defined.

(** ** The merge, again *)

Lemma mem_In (x : string) (l : list string) :
  Str.mem x l = true <-> In x l.
Proof.
  unfold Str.mem. rewrite existsb_exists. split.
  - intros [y [Hin He]]. apply String.eqb_eq in He. subst. exact Hin.
  - intros Hin. exists x. split; [exact Hin|apply String.eqb_refl].
Qed.

Lemma mem_keys (k : string) (d : Dict) :
  Str.mem k (map fst d) = match dict_get k d with Some _ => true | None => false end.
Proof.
  destruct (dict_get k d) eqn:E.
  - apply mem_In. destruct (in_dec string_dec k (map fst d)) as [H|H]; [exact H|].
    apply dict_get_none in H. congruence.
  - apply dict_get_none in E. destruct (Str.mem k (map fst d)) eqn:M; [|reflexivity].
    apply mem_In in M. tauto.
Qed.

Lemma keys_merge_step (d : Dict) (x : Candidate) :
  map fst (merge_step d x)
  = if Str.mem (cand_url x) (map fst d) then map fst d
    else (map fst d ++ [cand_url x])%list.
Proof.
  rewrite mem_keys. unfold merge_step.
  destruct (dict_get (cand_url x) d) as [kept|] eqn:E.
  - destruct (cand_score x >? cand_score kept); [|reflexivity].
    apply keys_set_present. congruence.
  - apply keys_set_absent. exact E.
Qed.

Lemma keys_fold_merge (l : list Candidate) :
  forall d, map fst (fold_left merge_step l d)
            = first_seen (map cand_url l) (map fst d).
Proof.
  induction l as [|x rest IH]; simpl; intros d; [reflexivity|].
  rewrite IH, keys_merge_step. reflexivity.
Qed.

(** X12: the merge keeps the order of first appearance: the merged
    candidates list the URLs in the order in which each URL first occurs
    among the gathered candidates, which is the order ties are later
    broken in. *)
Theorem merge_keeps_first_appearance_order (all_images : list Candidate) :
  map cand_url (dict_values (merge_by_url all_images))
  = first_seen (map cand_url all_images) [].
Proof.
  rewrite (@merged_keys all_images _ (merge_by_url_merged all_images)).
  unfold merge_by_url. rewrite keys_fold_merge. reflexivity.
Qed.

Lemma dict_set_absent (k : string) (v : Candidate) (d : Dict) :
  dict_get k d = None -> dict_set k v d = (d ++ [(k, v)])%list.
Proof.
  induction d as [|[k' v'] rest IH]; simpl; [reflexivity|].
  destruct (String.eqb k' k); [discriminate|]. intros H. rewrite IH; auto.
Qed.

(** X13: candidates with pairwise distinct URLs pass the merge unchanged,
    in the same order; in particular merging what a merge returned changes
    nothing. *)
Theorem merge_of_distinct_urls_is_identity (all_images : list Candidate) :
  NoDup (map cand_url all_images) ->
  dict_values (merge_by_url all_images) = all_images /\
  map fst (merge_by_url all_images) = map cand_url all_images.
Proof.
  induction all_images as [|x l IH] using rev_ind; intros Hnd;
    [split; reflexivity|].
  rewrite map_app in Hnd. simpl in Hnd.
  assert (Hl : NoDup (map cand_url l)) by (eapply NoDup_app_remove_r; eauto).
  assert (Hx : ~ In (cand_url x) (map cand_url l)).
  { intros Hin. apply NoDup_remove_2 in Hnd. rewrite app_nil_r in Hnd. tauto. }
  destruct (IH Hl) as [Hv Hk].
  rewrite merge_by_url_snoc. unfold merge_step.
  assert (Hget : dict_get (cand_url x) (merge_by_url l) = None).
  { apply dict_get_none. rewrite Hk. exact Hx. }
  rewrite Hget, (dict_set_absent _ _ _ Hget).
  unfold dict_values in *. rewrite !map_app, Hv, Hk. split; reflexivity.
Qed.

Lemma merge_of_distinct_urls_is_identity_witness :
  dict_values (merge_by_url tied) = tied /\
  dict_values (merge_by_url (dict_values (merge_by_url duplicates)))
  = dict_values (merge_by_url duplicates).
Proof.
  split.
  - refine (proj1 (@merge_of_distinct_urls_is_identity tied _)).
    repeat constructor; simpl; intuition discriminate.
  - refine (proj1 (@merge_of_distinct_urls_is_identity
                     (dict_values (merge_by_url duplicates)) _)).
    vm_compute. repeat constructor; simpl; intuition discriminate.
Defined.

(** ** The selection, again *)

Lemma merged_dominates (all_images : list Candidate) (d : Candidate) :
  In d all_images ->
  exists e,
    In e (dict_values (merge_by_url all_images)) /\
    cand_url e = cand_url d /\ cand_score d <= cand_score e.
Proof.
  intros Hin. pose proof (merge_by_url_merged all_images) as Hm.
  destruct (dict_get (cand_url d) (merge_by_url all_images)) as [e|] eqn:E.
  - exists e. destruct (@merged_entry _ _ Hm _ _ E) as [Hu Hfb].
    split; [|split; [exact Hu|]].
    + apply dict_get_in in E. unfold dict_values.
      change e with (snd (cand_url d, e)). apply in_map. exact E.
    + apply first_best_max with (l := all_images); auto.
  - exfalso. exact (@merged_covers _ _ Hm d Hin E).
Qed.

Lemma descending_after (before after : list Candidate) (c e : Candidate) :
  descending (before ++ c :: after) -> In e after ->
  cand_score e <= cand_score c.
Proof.
  unfold descending. induction before as [|b bs IH]; simpl; intros H Hin.
  - apply StronglySorted_inv in H. destruct H as [_ H].
    rewrite Forall_forall in H. specialize (H e Hin). lia.
  - apply StronglySorted_inv in H. destruct H as [H _]. auto.
Qed.

Lemma select_image_some (lib : PyLib) (W : World)
  (url : string) (all_images : list Candidate) (c : Candidate) :
  result (select_image W url all_images) = Some (Some c) ->
  In c all_images /\ passes_gates W c /\
  forall d, In d all_images -> passes_gates W d ->
            cand_score d <= cand_score c.
Proof.
  intros H. rewrite select_image_result in H. inversion H as [Hf]. clear H.
  apply find_first in Hf. destruct Hf as [before [after [Hr [Hc Hb]]]].
  set (values := dict_values (merge_by_url all_images)) in *.
  assert (Hperm : Permutation values (sort_by_score values))
    by apply sort_by_score_perm.
  assert (Hin : In c values).
  { apply (Permutation_in _ (Permutation_sym Hperm)). rewrite Hr.
    apply in_or_app. right. left. reflexivity. }
  split; [|split].
  - apply first_best_in.
    exact (@merged_value all_images _ c (merge_by_url_merged all_images) Hin).
  - apply acceptable_passes. exact Hc.
  - intros d Hd [Hd40 Hdv].
    destruct (merged_dominates all_images d Hd) as [e [He [Hu Hs]]].
    assert (Hacc : acceptable W e = true).
    { apply acceptable_passes. split; [lia|]. rewrite Hu. exact Hdv. }
    apply (Permutation_in _ Hperm) in He. rewrite Hr in He.
    apply in_app_or in He. destruct He as [He|[<-|He]].
    + rewrite Forall_forall in Hb. specialize (Hb e He). congruence.
    + exact Hs.
    + pose proof (sort_by_score_descending values) as Hdesc.
      rewrite Hr in Hdesc.
      pose proof (@descending_after before after c e Hdesc He). lia.
Qed.

(** X14: the image selected is a best one among those that could be
    selected.  It is one of the gathered candidates, it has the minimum
    score and the validator's acceptance, and no gathered candidate that
    has both scores higher. *)
Theorem selected_image_is_best_acceptable (lib : PyLib) (W : World)
  (url : string) (all_images : list Candidate) (c : Candidate) :
  result (select_image W url all_images) = Some (Some c) ->
  In c all_images /\ passes_gates W c /\
  forall d, In d all_images -> passes_gates W d ->
            cand_score d <= cand_score c.
Proof. apply select_image_some. Qed.

Lemma selected_image_is_best_acceptable_witness :
  result (select_image (lib := plain_lib) offline article_url duplicates)
  = Some (Some (mk_Candidate plain_url 80 "opengraph")) /\
  In (mk_Candidate plain_url 80 "opengraph") duplicates /\
  (In (mk_Candidate gif_url 60 "newspaper") duplicates -> 60 <= 80).
Proof.
  assert (H : result (select_image (lib := plain_lib) offline article_url
                        duplicates)
              = Some (Some (mk_Candidate plain_url 80 "opengraph")))
    by (vm_compute; reflexivity).
  destruct (@selected_image_is_best_acceptable plain_lib offline article_url
              duplicates _ H) as [Hin [_ Hmax]].
  split; [exact H|]. split; [exact Hin|]. intros Hd.
  apply (Hmax (mk_Candidate gif_url 60 "newspaper") Hd).
  split; [simpl; lia|vm_compute; reflexivity].
Defined.

(** ** Traces, for any kind of event *)

Section Avoiding.

Variable P : Event -> Prop.

Lemma avoids_nil : avoids P [].
Proof. intros e []. Qed.

Lemma avoids_app (t1 t2 : list Event) :
  avoids P t1 -> avoids P t2 -> avoids P (t1 ++ t2).
Proof.
  intros H1 H2 e Hin. apply in_app_or in Hin.
  destruct Hin; [apply H1|apply H2]; assumption.
Qed.

Lemma avoids_single (e : Event) : ~ P e -> avoids P [e].
Proof. intros H x [<-|[]]. exact H. Qed.

Lemma avoids_bind (A B : Type) (m : M A) (f : A -> M B) :
  avoids P (trace m) -> (forall a, avoids P (trace (f a))) ->
  avoids P (trace (bind m f)).
Proof.
  intros Hm Hf. destruct (result m) as [a|] eqn:E.
  - rewrite (@trace_bind _ _ m f a E). apply avoids_app; auto.
  - rewrite (@trace_bind_none _ _ m f E). exact Hm.
Qed.

Lemma avoids_try_except (A : Type) (body handler : M A) :
  avoids P (trace body) -> avoids P (trace handler) ->
  avoids P (trace (try_except body handler)).
Proof.
  intros Hb Hh. rewrite trace_try_except.
  destruct (result body); [exact Hb|]. apply avoids_app; auto.
Qed.

Lemma avoids_for_each (A S : Type) (body : S -> A -> M S) (xs : list A) :
  (forall s x, avoids P (trace (body s x))) ->
  forall s, avoids P (trace (for_each xs body s)).
Proof.
  intros Hb. induction xs as [|x rest IH]; simpl; intros s.
  - apply avoids_nil.
  - apply avoids_bind; auto.
Qed.

End Avoiding.

(** Settles [avoids P] for code built from calls, log lines that are not
    [P], branches and loops; [P] is a chain of existentials over an
    equation. *)
Ltac steer :=
  repeat (intros; cbv beta iota;
    match goal with
    | |- avoids _ (trace (bind _ _)) => apply avoids_bind
    | |- avoids _ (trace (call _)) => apply avoids_nil
    | |- avoids _ (trace (ret _)) => apply avoids_nil
    | |- avoids _ (trace raise) => apply avoids_nil
    | |- avoids _ (trace (emit _)) =>
        apply avoids_single;
        let H := fresh in
        intros H; hnf in H;
        repeat match goal with
               | X : ex _ |- _ => destruct X
               end;
        discriminate
    | |- avoids _ (trace (for_each _ _ _)) => apply avoids_for_each
    | |- avoids _ (trace (try_except _ _)) => apply avoids_try_except
    | |- avoids _ (trace (if ?b then _ else _)) => destruct b
    | |- avoids _ (trace (match ?x with _ => _ end)) => destruct x
    end).

Section MoreTraceFacts.

Context {lib : PyLib}.
Variable W : World.

Lemma trafilatura_body_quiet (P : Event -> Prop) (url : string) (st : Found)
  (img : Tag) : avoids P (trace (trafilatura_img url st img)).
Proof. unfold trafilatura_img. steer. Qed.

Lemma newspaper_body_quiet (P : Event -> Prop) (url : string) (st : Found)
  (img_url : string) : avoids P (trace (newspaper_img url st img_url)).
Proof. unfold newspaper_img. steer. Qed.

Lemma soup_img_quiet (P : Event -> Prop) (url : string) (st : Found)
  (img : Tag) : avoids P (trace (soup_img url st img)).
Proof. unfold soup_img. steer. Qed.

Lemma soup_source_quiet (P : Event -> Prop) (url : string) (st : Found)
  (source : Element) : avoids P (trace (soup_source url st source)).
Proof. unfold soup_source. steer. Qed.

Lemma extract_opengraph_images_quiet (P : Event -> Prop) (soup : Soup)
  (url : string) : avoids P (trace (extract_opengraph_images soup url)).
Proof. unfold extract_opengraph_images, meta_candidate. steer. Qed.

Lemma validate_image_size_avoids (P : Event -> Prop) (u : string) :
  (forall m, P (LogInfo m) -> False) ->
  ~ P (LogWarning (CouldNotValidate u)) ->
  avoids P (trace (validate_image_size W u)).
Proof.
  intros Hinfo Hwarn. unfold validate_image_size, too_large.
  repeat (intros; cbv beta iota;
    match goal with
    | |- avoids _ (trace (bind _ _)) => apply avoids_bind
    | |- avoids _ (trace (call _)) => apply avoids_nil
    | |- avoids _ (trace (ret _)) => apply avoids_nil
    | |- avoids _ (trace raise) => apply avoids_nil
    | |- avoids _ (trace (emit (LogInfo _))) =>
        apply avoids_single; intros H; exact (Hinfo _ H)
    | |- avoids _ (trace (emit (LogWarning _))) =>
        apply avoids_single; exact Hwarn
    | |- avoids _ (trace (try_except _ _)) => apply avoids_try_except
    | |- avoids _ (trace (if ?b then _ else _)) => destruct b
    | |- avoids _ (trace (match ?x with _ => _ end)) => destruct x
    end).
Qed.

Lemma first_acceptable_avoids (P : Event -> Prop) (l : list Candidate) :
  (forall m, P (LogInfo m) -> False) ->
  (forall u, ~ P (LogWarning (CouldNotValidate u))) ->
  avoids P (trace (first_acceptable W l)).
Proof.
  intros Hinfo Hwarn. induction l as [|c rest IH]; simpl.
  - apply avoids_nil.
  - destruct (cand_score c >=? MIN_ACCEPTABLE_SCORE); [|exact IH].
    apply avoids_bind; [apply validate_image_size_avoids; auto|].
    intros [|]; [|exact IH].
    apply avoids_single. intros H. exact (Hinfo _ H).
Qed.

End MoreTraceFacts.

(** ** What the log says about a run *)

Lemma warned_means_empty (body : M (list Candidate)) (w e : Event) :
  avoids is_method_failed (trace body) ->
  In e (trace (try_except body (emit w ;; ret []))) ->
  is_method_failed e ->
  e = w /\ images_of (try_except body (emit w ;; ret [])) = [].
Proof.
  intros Hb Hin He. unfold images_of.
  rewrite result_try_except. rewrite trace_try_except in Hin.
  destruct (result body) as [cs|].
  - exfalso. exact (Hb e Hin He).
  - apply in_app_or in Hin. destruct Hin as [Hin|Hin].
    + exfalso. exact (Hb e Hin He).
    + destruct Hin as [<-|[]]. split; reflexivity.
Qed.

(** X15: a strategy that logs its failure warning returned no image: the
    warning comes from the handler of the strategy alone, which discards
    whatever candidates were found before the exception. *)
Theorem failure_warning_means_no_images (lib : PyLib) (W : World)
  (url : string) (e : Event) :
  is_method_failed e ->
  (In e (trace (extract_images_trafilatura W url)) ->
   e = LogWarning (MethodFailed "trafilatura" url) /\
   images_of (extract_images_trafilatura W url) = []) /\
  (In e (trace (extract_images_newspaper W url)) ->
   e = LogWarning (MethodFailed "newspaper3k" url) /\
   images_of (extract_images_newspaper W url) = []) /\
  (In e (trace (extract_images_beautifulsoup W url)) ->
   e = LogWarning (MethodFailed "BeautifulSoup" url) /\
   images_of (extract_images_beautifulsoup W url) = []).
Proof.
  intros He. split; [|split]; intros Hin.
  - unfold extract_images_trafilatura in *.
    eapply warned_means_empty; [|exact Hin|exact He].
    unfold trafilatura_img. steer.
  - unfold extract_images_newspaper in *.
    eapply warned_means_empty; [|exact Hin|exact He].
    unfold newspaper_img. steer.
  - unfold extract_images_beautifulsoup in *.
    eapply warned_means_empty; [|exact Hin|exact He].
    unfold extract_opengraph_images, meta_candidate, soup_img, soup_source.
    steer.
Qed.

Lemma failure_warning_means_no_images_witness :
  In (LogWarning (MethodFailed "newspaper3k" article_url))
     (trace (extract_images_newspaper (lib := plain_lib)
               (trafilatura_world gif_url) article_url)) /\
  images_of (extract_images_newspaper (lib := plain_lib)
               (trafilatura_world gif_url) article_url) = [].
Proof.
  assert (H : In (LogWarning (MethodFailed "newspaper3k" article_url))
                (trace (extract_images_newspaper (lib := plain_lib)
                          (trafilatura_world gif_url) article_url)))
    by (vm_compute; auto).
  split; [exact H|].
  refine (proj2 (proj1 (proj2 (@failure_warning_means_no_images plain_lib
            (trafilatura_world gif_url) article_url _ _)) H)).
  exists "newspaper3k", article_url. reflexivity.
Defined.

Lemma ranked_not_empty (all_images : list Candidate) :
  all_images <> [] ->
  sort_by_score (dict_values (merge_by_url all_images)) <> [].
Proof.
  destruct all_images as [|x rest]; [congruence|]. intros _ E.
  destruct (merged_dominates (x :: rest) x (or_introl eq_refl))
    as [e [He _]].
  apply (Permutation_in _ (sort_by_score_perm _)) in He.
  rewrite E in He. exact He.
Qed.

Lemma fold_left_max_attained (l : list Z) (a : Z) :
  fold_left Z.max l a = a \/ In (fold_left Z.max l a) l.
Proof.
  revert a. induction l as [|x r IH]; simpl; intros a; [auto|].
  destruct (IH (Z.max a x)) as [H|H]; [|auto].
  rewrite H. destruct (Z.max_spec a x) as [[_ ->]|[_ ->]]; auto.
Qed.

Lemma best_score_attained (l : list Candidate) :
  l <> [] -> exists c, In c l /\ cand_score c = best_score_of l.
Proof.
  destruct l as [|x r]; [congruence|]. intros _. unfold best_score_of.
  simpl. destruct (fold_left_max_attained (map cand_score r) (cand_score x))
    as [H|H].
  - exists x. rewrite H. auto.
  - apply in_map_iff in H. destruct H as [c [Hc Hin]]. exists c. auto.
Qed.

Lemma ranked_head_is_best (all_images : list Candidate) (best : Candidate)
  (rest : list Candidate) :
  sort_by_score (dict_values (merge_by_url all_images)) = best :: rest ->
  cand_score best = best_score_of all_images.
Proof.
  intros Hr.
  set (values := dict_values (merge_by_url all_images)) in *.
  assert (Hin : In best values).
  { apply (Permutation_in _ (Permutation_sym (sort_by_score_perm values))).
    rewrite Hr. left. reflexivity. }
  assert (Hall : In best all_images).
  { apply first_best_in.
    exact (@merged_value all_images _ best
             (merge_by_url_merged all_images) Hin). }
  apply Z.le_antisymm; [apply best_score_of_in; exact Hall|].
  assert (Hne : all_images <> []) by (intros E; rewrite E in Hall; exact Hall).
  destruct (best_score_attained Hne) as [d [Hd <-]].
  destruct (merged_dominates all_images d Hd) as [e [He [_ Hs]]].
  apply (Permutation_in _ (sort_by_score_perm _)) in He.
  fold values in He. rewrite Hr in He. destruct He as [<-|He]; [exact Hs|].
  pose proof (sort_by_score_descending values) as Hdesc. rewrite Hr in Hdesc.
  pose proof (@descending_after [] rest best e Hdesc He). lia.
Qed.

(** X16: when candidates were gathered and none is selected, the last log
    line is the warning "no images above minimum score" carrying the best
    score of all gathered candidates; that score can be 40 or more, since
    the same warning is logged when the validator refused every candidate
    of sufficient score. *)
Theorem failed_selection_logs_best_score (lib : PyLib) (W : World)
  (url : string) (all_images : list Candidate) :
  all_images <> [] ->
  result (select_image W url all_images) = Some None ->
  exists t,
    trace (select_image W url all_images)
    = (t ++ [LogWarning (NoneAboveMinimum url (best_score_of all_images))])%list.
Proof.
  intros Hne Hres. rewrite select_image_result in Hres.
  inversion Hres as [Hf]. clear Hres.
  unfold select_image. destruct all_images as [|x rest]; [congruence|].
  set (ranked := sort_by_score (dict_values (merge_by_url (x :: rest)))) in *.
  exists (trace (first_acceptable W ranked)).
  erewrite trace_bind; [|apply first_acceptable_result].
  rewrite Hf. f_equal.
  destruct ranked as [|best more] eqn:E.
  - exfalso. exact (ranked_not_empty Hne E).
  - rewrite (ranked_head_is_best _ E). reflexivity.
Qed.

Lemma failed_selection_logs_best_score_witness :
  result (select_image (lib := thumbnail_lib) (stream_world [Some []])
            article_url tied) = Some None /\
  best_score_of tied = 80 /\
  exists t,
    trace (select_image (lib := thumbnail_lib) (stream_world [Some []])
             article_url tied)
    = (t ++ [LogWarning (NoneAboveMinimum article_url (best_score_of tied))])%list.
Proof.
  assert (H : result (select_image (lib := thumbnail_lib)
                        (stream_world [Some []]) article_url tied)
              = Some None) by (vm_compute; reflexivity).
  split; [exact H|]. split; [reflexivity|].
  refine (@failed_selection_logs_best_score thumbnail_lib
            (stream_world [Some []]) article_url tied _ H).
  discriminate.
Defined.

Lemma select_image_avoids_no_valid (lib : PyLib) (W : World) (url : string)
  (all_images : list Candidate) :
  avoids is_no_valid_images (trace (select_image W url all_images)).
Proof.
  unfold select_image. destruct all_images as [|x rest]; [steer|].
  apply avoids_bind.
  - apply first_acceptable_avoids.
    + intros m [u H]. discriminate.
    + intros u [u' H]. discriminate.
  - intros [c|]; [steer|].
    destruct (sort_by_score (dict_values (merge_by_url (x :: rest)))) eqn:E.
    + exfalso. refine (@ranked_not_empty (x :: rest) _ E). discriminate.
    + steer.
Qed.

(** X17: the warning "no valid images found after size validation" is never
    logged by [scrape_article_images]: its branch needs an empty merged
    list after a non-empty gathered list, which the merge cannot produce. *)
Theorem no_valid_images_warning_is_never_logged (lib : PyLib) (W : World)
  (url : string) :
  avoids is_no_valid_images (trace (scrape_article_images W url)).
Proof.
  unfold scrape_article_images. apply avoids_bind.
  - unfold collect_images, extract_images_trafilatura,
      extract_images_newspaper, extract_images_beautifulsoup,
      extract_opengraph_images, meta_candidate, trafilatura_img,
      newspaper_img, soup_img, soup_source.
    steer.
  - intros all_images. apply select_image_avoids_no_valid.
Qed.

Lemma in_after_beautifulsoup (lib : PyLib) (W : World) (url : string)
  (c : Candidate) :
  In c (after_beautifulsoup W url) ->
  In c (images_of (extract_images_trafilatura W url)) \/
  In c (images_of (extract_images_newspaper W url)) \/
  In c (images_of (extract_images_beautifulsoup W url)).
Proof.
  unfold after_beautifulsoup, after_newspaper, after_trafilatura.
  repeat match goal with
         | |- context [if ?b then _ else _] => destruct b
         end;
    intros H; repeat (apply in_app_or in H; destruct H as [H|H]); auto.
Qed.

Lemma scraped_image_facts (lib : PyLib) (W : World) (url : string)
  (c : Candidate) :
  result (scrape_article_images W url) = Some (Some c) ->
  (In c (images_of (extract_images_trafilatura W url)) \/
   In c (images_of (extract_images_newspaper W url)) \/
   In c (images_of (extract_images_beautifulsoup W url))) /\
  40 <= cand_score c <= 125 /\
  (bonus_of (cand_source c) = 0 -> cand_score c <= 100).
Proof.
  intros H. rewrite scrape_article_images_result in H.
  rewrite <- select_image_result with (url := url) in H.
  apply select_image_some in H. destruct H as [Hin [[H40 _] _]].
  apply in_after_beautifulsoup in Hin. split; [exact Hin|].
  assert (Hs : scored c).
  { destruct Hin as [Hin|[Hin|Hin]].
    - pose proof (extract_images_trafilatura_scored W url) as F.
      rewrite Forall_forall in F. auto.
    - pose proof (extract_images_newspaper_scored W url) as F.
      rewrite Forall_forall in F. auto.
    - pose proof (extract_images_beautifulsoup_scored W url) as F.
      rewrite Forall_forall in F. auto. }
  apply scored_range in Hs.
  assert (Hb : 0 <= bonus_of (cand_source c) <= 25).
  { unfold bonus_of.
    repeat match goal with
           | |- context [if ?b then _ else _] => destruct b
           end; lia. }
  split; [lia|]. intros E. lia.
Qed.

(** X18: the relevance score of a selected image lies between 40 and 125.
    The image returned by [scrape_article_images] was returned by one of
    the three strategies, its stored score is the scorer's value plus the
    bonus of its source method, and it is at most 100 unless the source is
    one of the three meta sources. *)
Theorem selected_image_score_range (lib : PyLib) (W : World) (url : string)
  (c : Candidate) :
  result (scrape_article_images W url) = Some (Some c) ->
  (In c (images_of (extract_images_trafilatura W url)) \/
   In c (images_of (extract_images_newspaper W url)) \/
   In c (images_of (extract_images_beautifulsoup W url))) /\
  40 <= cand_score c <= 125 /\
  (bonus_of (cand_source c) = 0 -> cand_score c <= 100).
Proof. apply scraped_image_facts. Qed.

Lemma selected_image_score_range_witness :
  result (scrape_article_images (lib := plain_lib) (soup_world og_soup)
            article_url)
  = Some (Some (mk_Candidate hero_url 112 "opengraph")) /\
  40 <= 112 <= 125.
Proof.
  assert (H : result (scrape_article_images (lib := plain_lib)
                        (soup_world og_soup) article_url)
              = Some (Some (mk_Candidate hero_url 112 "opengraph")))
    by (vm_compute; reflexivity).
  split; [exact H|].
  exact (proj1 (proj2 (@selected_image_score_range plain_lib
                         (soup_world og_soup) article_url _ H))).
Defined.

(** ** The extractors, again *)

Lemma mem_false_not_In (x : string) (l : list string) :
  Str.mem x l = false -> ~ In x l.
Proof. intros H Hin. apply mem_In in Hin. congruence. Qed.

Lemma appended_fresh_step (base : list Candidate) (src : string)
  (st st' : Found) :
  appended_fresh base src st -> fresh_step src st st' ->
  appended_fresh base src st'.
Proof.
  intros Hinv [->|[c [Hsrc [Hmem ->]]]]; [exact Hinv|].
  destruct Hinv as [found [Hfst [Hs [Hnd [Hdis Hseen]]]]].
  apply mem_false_not_In in Hmem.
  assert (Hnew : ~ In (cand_url c) (map cand_url (fst st)))
    by (intros H; apply Hmem, Hseen, H).
  rewrite Hfst, map_app in Hnew.
  exists (found ++ [c])%list. unfold add_image. cbn [fst snd].
  split; [rewrite Hfst, app_assoc; reflexivity|].
  split; [apply Forall_app; split; [exact Hs|constructor; [exact Hsrc|constructor]]|].
  split.
  - rewrite map_app. simpl. apply NoDup_app; [exact Hnd|constructor; [tauto|constructor]|].
    intros u Hu [<-|[]]. apply Hnew. apply in_or_app. right. exact Hu.
  - split.
    + intros e He. apply in_app_or in He. destruct He as [He|[<-|[]]]; [auto|].
      intros H. apply Hnew. apply in_or_app. left. exact H.
    + intros u Hu. rewrite map_app in Hu. apply in_app_or in Hu.
      destruct Hu as [Hu|[<-|[]]]; [right; auto|left; reflexivity].
Qed.

Section LoopSteps.

Context {lib : PyLib}.

Lemma trafilatura_img_step (url : string) (st st' : Found) (img : Tag) :
  result (trafilatura_img url st img) = Some st' ->
  fresh_step "trafilatura" st st'.
Proof.
  intros H. unfold trafilatura_img in H.
  destruct (src_or_data_src (tag_el img)) as [src|];
    [|msimpl H; left; congruence].
  destruct (Str.truthy src); [|msimpl H; left; congruence].
  mstep H as full_url Hu.
  destruct (Str.mem full_url (snd st)) eqn:Hm; [msimpl H; left; congruence|].
  mstep H as v Hv. msimpl H. inversion H. right.
  eexists. split; [|split; [|reflexivity]]; [reflexivity|exact Hm].
Qed.

Lemma newspaper_img_step (url : string) (st st' : Found) (img_url : string) :
  result (newspaper_img url st img_url) = Some st' ->
  fresh_step "newspaper" st st'.
Proof.
  intros H. unfold newspaper_img in H.
  mstep H as full_url Hu.
  destruct (Str.mem full_url (snd st)) eqn:Hm; [msimpl H; left; congruence|].
  mstep H as v Hv. msimpl H. inversion H. right.
  eexists. split; [|split; [|reflexivity]]; [reflexivity|exact Hm].
Qed.

Lemma soup_img_step (url : string) (st st' : Found) (img : Tag) :
  result (soup_img url st img) = Some st' -> fresh_step "soup" st st'.
Proof.
  intros H. unfold soup_img in H.
  destruct (any_src (tag_el img)) as [src|]; [|msimpl H; left; congruence].
  destruct (Str.truthy src); [|msimpl H; left; congruence].
  mstep H as full_url Hu. mstep H as excluded He.
  destruct excluded; [msimpl H; left; congruence|].
  destruct (Str.mem full_url (snd st)) eqn:Hm; [msimpl H; left; congruence|].
  mstep H as v Hv. msimpl H. inversion H. right.
  eexists. split; [|split; [|reflexivity]]; [reflexivity|exact Hm].
Qed.

Lemma soup_source_step (url : string) (st st' : Found) (source : Element) :
  result (soup_source url st source) = Some st' -> fresh_step "soup" st st'.
Proof.
  intros H. unfold soup_source in H.
  destruct (Dom.get "srcset" (el_attrs source)) as [srcset|];
    [|msimpl H; left; congruence].
  destruct (Str.truthy srcset); [|msimpl H; left; congruence].
  mstep H as full_url Hu. mstep H as excluded He.
  destruct (negb excluded && negb (Str.mem full_url (snd st))) eqn:Hc;
    [|msimpl H; left; congruence].
  apply andb_true_iff in Hc. destruct Hc as [_ Hm].
  apply negb_true_iff in Hm.
  mstep H as v Hv. msimpl H. inversion H. right.
  eexists. split; [|split; [|reflexivity]]; [reflexivity|exact Hm].
Qed.

Lemma for_each_fresh (A : Type) (body : Found -> A -> M Found)
  (base : list Candidate) (src : string) (xs : list A) (st st' : Found) :
  (forall s x s', result (body s x) = Some s' -> fresh_step src s s') ->
  appended_fresh base src st ->
  result (for_each xs body st) = Some st' ->
  appended_fresh base src st'.
Proof.
  intros Hb. apply for_each_invariant.
  intros s x s' Hs Hr. eapply appended_fresh_step; eauto.
Qed.

Lemma appended_fresh_start (base : list Candidate) (src : string) :
  appended_fresh base src (base, map cand_url base).
Proof.
  exists []. cbn [fst snd]. rewrite app_nil_r.
  split; [reflexivity|]. split; [constructor|]. split; [constructor|].
  split; [intros e []|auto].
Qed.

End LoopSteps.

Section Distinct.

Context {lib : PyLib}.
Variable W : World.

Lemma nodup_one_then_fresh (base found : list Candidate) :
  (length base <= 1)%nat ->
  NoDup (map cand_url found) ->
  (forall e, In e found -> ~ In (cand_url e) (map cand_url base)) ->
  NoDup (map cand_url (base ++ found)).
Proof.
  intros Hlen Hnd Hdis. rewrite map_app. apply NoDup_app.
  - destruct base as [|b [|b' r]]; simpl in *; try lia.
    + constructor.
    + constructor; [tauto|constructor].
  - exact Hnd.
  - intros u Hb Hf. apply in_map_iff in Hf. destruct Hf as [e [<- He]].
    exact (Hdis e He Hb).
Qed.

Lemma extract_images_trafilatura_shape (url : string) :
  exists main inline,
    images_of (extract_images_trafilatura W url) = (main ++ inline)%list /\
    (length main <= 1)%nat /\
    Forall (fun c => cand_source c = "trafilatura_main") main /\
    Forall (fun c => cand_source c = "trafilatura") inline /\
    NoDup (map cand_url (main ++ inline)).
Proof.
  unfold images_of.
  destruct (result (extract_images_trafilatura W url)) as [cs|] eqn:H.
  2:{ exists [], []. repeat split; simpl; try lia; try constructor. }
  unfold extract_images_trafilatura in H. rewrite result_try_except in H.
  match type of H with
  | match result ?b with _ => _ end = _ => destruct (result b) as [cs'|] eqn:Hb
  end.
  2:{ msimpl H. inversion H. exists [], [].
      repeat split; simpl; try lia; try constructor. }
  inversion H. subst cs'. clear H.
  mstep Hb as u Hlog. mstep Hb as downloaded Hd.
  destruct downloaded as [doc|].
  2:{ msimpl Hb. inversion Hb. exists [], [].
      repeat split; simpl; try lia; try constructor. }
  mstep Hb as image Himage. mstep Hb as images Himages.
  assert (Hmain : (length images <= 1)%nat /\
                  Forall (fun c => cand_source c = "trafilatura_main") images).
  { destruct image as [image|];
      [|msimpl Himages; inversion Himages; split; [simpl; lia|constructor]].
    destruct (Str.truthy image);
      [|msimpl Himages; inversion Himages; split; [simpl; lia|constructor]].
    mstep Himages as main_img_url Hu. mstep Himages as v Hv.
    mstep Himages as u' Hlog'. msimpl Himages. inversion Himages.
    split; [simpl; lia|]. constructor; [reflexivity|constructor]. }
  destruct Hmain as [Hlen Hsrc].
  mstep Hb as content Hcontent.
  destruct content as [tags|].
  2:{ msimpl Hb. inversion Hb. subst cs. exists images, [].
      rewrite app_nil_r. split; [reflexivity|]. split; [exact Hlen|].
      split; [exact Hsrc|]. split; [constructor|].
      rewrite <- (app_nil_r images).
      apply nodup_one_then_fresh; [exact Hlen|constructor|intros e []]. }
  mstep Hb as st Hst. msimpl Hb. inversion Hb. subst cs.
  assert (Hfin : appended_fresh images "trafilatura" st).
  { eapply for_each_fresh; [|apply appended_fresh_start|exact Hst].
    intros s x s'. apply trafilatura_img_step. }
  destruct Hfin as [found [Hfst [Hs [Hnd [Hdis _]]]]].
  exists images, found. rewrite Hfst.
  split; [reflexivity|]. split; [exact Hlen|]. split; [exact Hsrc|].
  split; [exact Hs|]. apply nodup_one_then_fresh; assumption.
Qed.

Lemma extract_images_newspaper_shape (url : string) :
  exists top others,
    images_of (extract_images_newspaper W url) = (top ++ others)%list /\
    (length top <= 1)%nat /\
    Forall (fun c => cand_source c = "newspaper_top") top /\
    Forall (fun c => cand_source c = "newspaper") others /\
    NoDup (map cand_url (top ++ others)).
Proof.
  unfold images_of.
  destruct (result (extract_images_newspaper W url)) as [cs|] eqn:H.
  2:{ exists [], []. repeat split; simpl; try lia; try constructor. }
  unfold extract_images_newspaper in H. rewrite result_try_except in H.
  match type of H with
  | match result ?b with _ => _ end = _ => destruct (result b) as [cs'|] eqn:Hb
  end.
  2:{ msimpl H. inversion H. exists [], [].
      repeat split; simpl; try lia; try constructor. }
  inversion H. subst cs'. clear H.
  mstep Hb as u Hlog. mstep Hb as article Harticle. mstep Hb as st0 Hst0.
  assert (Htop : exists top,
             st0 = (top, map cand_url top) /\ (length top <= 1)%nat /\
             Forall (fun c => cand_source c = "newspaper_top") top).
  { destruct (Str.truthy (top_image article)).
    - mstep Hst0 as full_url Hu. mstep Hst0 as v Hv. mstep Hst0 as u' Hlog'.
      msimpl Hst0. inversion Hst0.
      exists [mk_Candidate full_url v "newspaper_top"].
      split; [reflexivity|].
      split; [simpl; lia|]. constructor; [reflexivity|constructor].
    - msimpl Hst0. inversion Hst0. exists []. split; [reflexivity|].
      split; [simpl; lia|constructor]. }
  destruct Htop as [top [-> [Hlen Hsrc]]].
  mstep Hb as st Hst. msimpl Hb. inversion Hb. subst cs.
  assert (Hfin : appended_fresh top "newspaper" st).
  { eapply for_each_fresh; [|apply appended_fresh_start|exact Hst].
    intros s x s'. apply newspaper_img_step. }
  destruct Hfin as [found [Hfst [Hs [Hnd [Hdis _]]]]].
  exists top, found. rewrite Hfst.
  split; [reflexivity|]. split; [exact Hlen|]. split; [exact Hsrc|].
  split; [exact Hs|]. apply nodup_one_then_fresh; assumption.
Qed.

Lemma extract_images_beautifulsoup_shape (url : string) :
  exists meta found,
    images_of (extract_images_beautifulsoup W url) = (meta ++ found)%list /\
    Forall (fun c => In (cand_source c)
                        ["opengraph"; "twitter_card"; "schema"]) meta /\
    Forall (fun c => cand_source c = "soup") found /\
    NoDup (map cand_url found) /\
    (forall e, In e found -> ~ In (cand_url e) (map cand_url meta)).
Proof.
  unfold images_of.
  destruct (result (extract_images_beautifulsoup W url)) as [cs|] eqn:H.
  2:{ exists [], []. repeat split; simpl; try lia; try constructor; try (intros e []). }
  unfold extract_images_beautifulsoup in H. rewrite result_try_except in H.
  match type of H with
  | match result ?b with _ => _ end = _ => destruct (result b) as [cs'|] eqn:Hb
  end.
  2:{ msimpl H. inversion H. exists [], [].
      repeat split; simpl; try lia; try constructor; try (intros e []). }
  inversion H. subst cs'. clear H.
  mstep Hb as u Hlog. mstep Hb as response Hresp. mstep Hb as u' Hstatus.
  mstep Hb as meta_images Hmi. mstep Hb as st1 Hst1. mstep Hb as st2 Hst2.
  msimpl Hb. inversion Hb. subst cs.
  assert (H1 : appended_fresh meta_images "soup" st1).
  { eapply for_each_fresh; [|apply appended_fresh_start|exact Hst1].
    intros s x s'. apply soup_img_step. }
  assert (H2 : appended_fresh meta_images "soup" st2).
  { revert Hst2. apply for_each_invariant; [|exact H1].
    intros s sources s' Hs Hr.
    eapply for_each_fresh; [|exact Hs|exact Hr].
    intros s0 x s0'. apply soup_source_step. }
  destruct H2 as [found [Hfst [Hs [Hnd [Hdis _]]]]].
  exists meta_images, found. split; [exact Hfst|].
  split; [|auto].
  eapply Forall_impl; [|eapply extract_opengraph_images_scored; exact Hmi].
  intros c [Hsrc _]. exact Hsrc.
Qed.

End Distinct.

(** X19: the first two strategies return pairwise distinct URLs, the main
    image first.  [extract_images_trafilatura] returns at most one
    candidate of source trafilatura_main, in front, followed by candidates
    of source trafilatura; [extract_images_newspaper] returns at most one
    newspaper_top followed by newspaper candidates; in both lists no URL
    occurs twice. *)
Theorem metadata_strategies_return_distinct_urls (lib : PyLib) (W : World)
  (url : string) :
  (exists main inline,
     images_of (extract_images_trafilatura W url) = (main ++ inline)%list /\
     (length main <= 1)%nat /\
     Forall (fun c => cand_source c = "trafilatura_main") main /\
     Forall (fun c => cand_source c = "trafilatura") inline /\
     NoDup (map cand_url (main ++ inline))) /\
  (exists top others,
     images_of (extract_images_newspaper W url) = (top ++ others)%list /\
     (length top <= 1)%nat /\
     Forall (fun c => cand_source c = "newspaper_top") top /\
     Forall (fun c => cand_source c = "newspaper") others /\
     NoDup (map cand_url (top ++ others))).
Proof.
  split; [apply extract_images_trafilatura_shape
         |apply extract_images_newspaper_shape].
Qed.

(** X20: the raw-markup strategy returns the meta-tag candidates first
    (sources opengraph, twitter_card, schema, which may repeat a URL among
    themselves), then the candidates of source soup, whose URLs are
    pairwise distinct and differ from every meta-tag URL. *)
Theorem raw_markup_strategy_appends_unseen_urls (lib : PyLib) (W : World)
  (url : string) :
  exists meta found,
    images_of (extract_images_beautifulsoup W url) = (meta ++ found)%list /\
    Forall (fun c => In (cand_source c)
                        ["opengraph"; "twitter_card"; "schema"]) meta /\
    Forall (fun c => cand_source c = "soup") found /\
    NoDup (map cand_url found) /\
    (forall e, In e found -> ~ In (cand_url e) (map cand_url meta)).
Proof. apply extract_images_beautifulsoup_shape. Qed.

(** ** The filter inside the raw-markup strategy *)

Section FilterFacts.

Context {lib : PyLib}.
Variable W : World.

Lemma tag_level_kept (img : Tag) (u : string) :
  _should_exclude_image img u = Some false ->
  _should_exclude_image_url u = Some false.
Proof.
  unfold _should_exclude_image.
  destruct (_should_exclude_image_url u) as [[|]|]; try discriminate.
  reflexivity.
Qed.

Lemma kept_url_facts (u : string) :
  _should_exclude_image_url u = Some false ->
  exclude_regex_search u = false /\
  exists p,
    urlparse u = Some p /\
    Str.any_in tracking_domains (Str.lower (netloc p)) = false /\
    Str.any_in tracking_patterns (Str.lower u) = false /\
    Str.any_in tracking_params (Str.lower (query p)) = false /\
    (Str.mem (Str.lower (path_suffix (path p))) valid_extensions = true \/
     (Str.lower (path_suffix (path p)) = EmptyString /\
      Str.any_in image_cdns (Str.lower (netloc p)) = true)).
Proof.
  unfold _should_exclude_image_url. intros H.
  destruct (exclude_regex_search u); [discriminate|].
  destruct (urlparse u) as [p|]; [|discriminate].
  destruct (Str.any_in tracking_domains (Str.lower (netloc p))) eqn:E1;
    [discriminate|].
  destruct (Str.any_in tracking_patterns (Str.lower u)) eqn:E2;
    [discriminate|].
  destruct (Str.any_in tracking_params (Str.lower (query p))) eqn:E3;
    [discriminate|].
  match type of H with
  | (if ?b then _ else _) = _ => destruct b; [discriminate|]
  end.
  cbv zeta in H.
  split; [reflexivity|]. exists p.
  repeat (split; [first [assumption | reflexivity]|]).
  destruct (Str.any_in image_cdns (Str.lower (netloc p))) eqn:E4;
    destruct (Str.lower (path_suffix (path p))) as [|c r] eqn:E5.
  - right. split; reflexivity.
  - left. destruct (Str.mem (String c r) valid_extensions) eqn:E6;
      [reflexivity|discriminate].
  - discriminate.
  - left. destruct (Str.mem (String c r) valid_extensions) eqn:E6;
      [reflexivity|discriminate].
Qed.

Lemma add_image_kept (st : Found) (c : Candidate) :
  Forall kept (fst st) -> kept c -> Forall kept (fst (add_image st c)).
Proof.
  unfold add_image. simpl. intros H Hc. apply Forall_app.
  split; [exact H|constructor; [exact Hc|constructor]].
Qed.

Lemma soup_img_kept (url : string) (st st' : Found) (img : Tag) :
  Forall kept (fst st) -> result (soup_img url st img) = Some st' ->
  Forall kept (fst st').
Proof.
  intros Hst H. unfold soup_img in H.
  destruct (any_src (tag_el img)) as [src|]; [|msimpl H; congruence].
  destruct (Str.truthy src); [|msimpl H; congruence].
  mstep H as full_url Hu. mstep H as excluded He.
  destruct excluded; [msimpl H; congruence|].
  destruct (Str.mem full_url (snd st)); [msimpl H; congruence|].
  mstep H as v Hv. msimpl H. inversion H. subst st'.
  apply add_image_kept; [exact Hst|]. eapply tag_level_kept. exact He.
Qed.

Lemma soup_source_kept (url : string) (st st' : Found) (source : Element) :
  Forall kept (fst st) -> result (soup_source url st source) = Some st' ->
  Forall kept (fst st').
Proof.
  intros Hst H. unfold soup_source in H.
  destruct (Dom.get "srcset" (el_attrs source)) as [srcset|];
    [|msimpl H; congruence].
  destruct (Str.truthy srcset); [|msimpl H; congruence].
  mstep H as full_url Hu. mstep H as excluded He.
  destruct excluded; [msimpl H; congruence|].
  destruct (Str.mem full_url (snd st)); [msimpl H; congruence|].
  mstep H as v Hv. msimpl H. inversion H. subst st'.
  apply add_image_kept; [exact Hst|]. exact He.
Qed.

Lemma meta_candidate_kept (url : string) (tag : option Element)
  (method : string) (bonus : Z) (cs : list Candidate) :
  result (meta_candidate url tag method bonus) = Some cs -> Forall kept cs.
Proof.
  intros H. unfold meta_candidate in H.
  destruct tag as [t|]; [|msimpl H; inversion H; constructor].
  destruct (Dom.get "content" (el_attrs t)) as [c|];
    [|msimpl H; inversion H; constructor].
  destruct (Str.truthy c); [|msimpl H; inversion H; constructor].
  mstep H as img_url Hu. mstep H as excluded He.
  destruct excluded; [msimpl H; inversion H; constructor|].
  mstep H as v Hv. msimpl H. inversion H. subst cs.
  constructor; [exact He|constructor].
Qed.

Lemma schema_script_kept (url : string) (s : option string) (c : Candidate) :
  schema_script url s = StepAdd c -> kept c.
Proof.
  unfold schema_script. destruct s as [text|]; [|discriminate].
  destruct (json_loads text) as [[ | | | | |d]|]; try discriminate.
  destruct (json_truthy (json_get "image" d)); [|discriminate].
  destruct (schema_image_string (json_get "image" d)) as [s|]; [|discriminate].
  destruct (urljoin url s) as [img_url|]; [|discriminate].
  destruct (_should_exclude_image_url img_url) as [[|]|] eqn:E;
    try discriminate.
  destruct (score_image_relevance img_url None "schema" "") as [v|];
    [|discriminate].
  intros [= <-]. exact E.
Qed.

Lemma schema_loop_kept (url : string) (scripts : list (option string)) :
  forall images,
    Forall kept images -> Forall kept (schema_loop url scripts images).
Proof.
  induction scripts as [|s rest IH]; simpl; intros images Hi; [exact Hi|].
  destruct (schema_script url s) as [|c|] eqn:E.
  - apply IH. exact Hi.
  - apply IH. apply Forall_app. split; [exact Hi|].
    constructor; [|constructor]. eapply schema_script_kept. exact E.
  - exact Hi.
Qed.

Lemma extract_images_beautifulsoup_kept (url : string) :
  Forall kept (images_of (extract_images_beautifulsoup W url)).
Proof.
  unfold images_of. destruct (result (extract_images_beautifulsoup W url))
    as [cs|] eqn:H; [|constructor].
  unfold extract_images_beautifulsoup in H. rewrite result_try_except in H.
  match type of H with
  | match result ?b with _ => _ end = _ => destruct (result b) as [cs'|] eqn:Hb
  end.
  2:{ msimpl H. inversion H. constructor. }
  inversion H. subst cs'. clear H.
  mstep Hb as u Hlog. mstep Hb as response Hresp. mstep Hb as u' Hstatus.
  mstep Hb as meta_images Hmi. mstep Hb as st1 Hst1. mstep Hb as st2 Hst2.
  msimpl Hb. inversion Hb. subst cs.
  assert (Hmeta : Forall kept meta_images).
  { unfold extract_opengraph_images in Hmi.
    mstep Hmi as og Hog. mstep Hmi as tw Htw. msimpl Hmi. inversion Hmi.
    apply schema_loop_kept. apply Forall_app.
    split; eapply meta_candidate_kept; eauto. }
  assert (H1 : Forall kept (fst st1)).
  { revert Hst1.
    apply (for_each_invariant (fun st => Forall kept (fst st)));
      [|exact Hmeta].
    intros s x s'. apply soup_img_kept. }
  revert Hst2.
  apply (for_each_invariant (fun st => Forall kept (fst st))); [|exact H1].
  intros s sources s' Hs.
  apply (for_each_invariant (fun st => Forall kept (fst st))); [|exact Hs].
  intros s0 x s0'. apply soup_source_kept.
Qed.

End FilterFacts.

(** X21: every candidate of the raw-markup strategy passed the URL filter.
    Its URL matches no exclusion pattern, [urlparse] accepts it, its host
    contains no tracking domain, its query no tracking parameter, and its
    path either ends in one of the seven image extensions or has no
    extension at all on a host that looks like an image CDN. *)
Theorem raw_markup_candidates_passed_the_filter (lib : PyLib) (W : World)
  (url : string) (c : Candidate) :
  In c (images_of (extract_images_beautifulsoup W url)) ->
  _should_exclude_image_url (cand_url c) = Some false /\
  exclude_regex_search (cand_url c) = false /\
  exists p,
    urlparse (cand_url c) = Some p /\
    Str.any_in tracking_domains (Str.lower (netloc p)) = false /\
    Str.any_in tracking_patterns (Str.lower (cand_url c)) = false /\
    Str.any_in tracking_params (Str.lower (query p)) = false /\
    (Str.mem (Str.lower (path_suffix (path p))) valid_extensions = true \/
     (Str.lower (path_suffix (path p)) = EmptyString /\
      Str.any_in image_cdns (Str.lower (netloc p)) = true)).
Proof.
  intros Hin. pose proof (extract_images_beautifulsoup_kept W url) as F.
  rewrite Forall_forall in F. specialize (F c Hin).
  split; [exact F|]. apply kept_url_facts. exact F.
Qed.

Lemma raw_markup_candidates_passed_the_filter_witness :
  In (mk_Candidate hero_url 112 "opengraph")
     (images_of (extract_images_beautifulsoup (lib := plain_lib)
                   (soup_world og_soup) article_url)) /\
  _should_exclude_image_url (lib := plain_lib) hero_url = Some false.
Proof.
  assert (H : In (mk_Candidate hero_url 112 "opengraph")
                 (images_of (extract_images_beautifulsoup (lib := plain_lib)
                               (soup_world og_soup) article_url)))
    by (vm_compute; auto).
  split; [exact H|].
  exact (proj1 (@raw_markup_candidates_passed_the_filter plain_lib
                  (soup_world og_soup) article_url _ H)).
Defined.

(** ** The exclusion pattern

    The derivative matcher finds every match of the pattern: a word the
    pattern matches in full, anywhere in the searched string, makes
    [search] succeed. *)

Lemma word_app_nil (u : string) : u ++ "" = u.
Proof. induction u as [|c u IH]; simpl; [reflexivity | now rewrite IH]. Qed.

Lemma word_app_assoc (u v w : string) : (u ++ v) ++ w = u ++ (v ++ w).
Proof. induction u as [|c u IH]; simpl; [reflexivity | now rewrite IH]. Qed.

Section RegexFacts.

Variable ic : bool.

Lemma matches_cat_smart (a b : Re.regex) (u v : string) :
  matches ic a u -> matches ic b v -> matches ic (Re.cat a b) (u ++ v).
Proof.
  intros Ha Hb.
  destruct a; try (inversion Ha; fail);
    destruct b; try (inversion Hb; fail); simpl;
    try (apply matches_cat; assumption);
    inversion Ha; subst; simpl; assumption.
Qed.

Lemma matches_alt_smart_l (a b : Re.regex) (w : string) :
  matches ic a w -> matches ic (Re.alt a b) w.
Proof.
  intros Ha.
  destruct a; try (inversion Ha; fail); destruct b; simpl;
    try assumption; apply matches_alt_l; assumption.
Qed.

Lemma matches_alt_smart_r (a b : Re.regex) (w : string) :
  matches ic b w -> matches ic (Re.alt a b) w.
Proof.
  intros Hb.
  destruct a; destruct b; try (inversion Hb; fail); simpl;
    try assumption; apply matches_alt_r; assumption.
Qed.

Lemma nullable_complete (r : Re.regex) (w : string) :
  matches ic r w -> w = "" -> Re.nullable r = true.
Proof.
  induction 1; intros E; try discriminate; simpl; try reflexivity.
  - destruct u; [|discriminate]. simpl in E.
    rewrite IHmatches1, IHmatches2 by (reflexivity || assumption).
    reflexivity.
  - rewrite IHmatches by assumption. reflexivity.
  - rewrite IHmatches by assumption. apply orb_true_r.
Qed.

Lemma deriv_complete (r : Re.regex) (s : string) :
  matches ic r s ->
  forall c w, s = String c w -> matches ic (Re.deriv ic c r) w.
Proof.
  induction 1; intros c0 w0 E; try discriminate.
  - injection E as <- <-. simpl. rewrite H. constructor.
  - injection E as <- <-. simpl. rewrite H. constructor.
  - injection E as <- <-. simpl. rewrite H. constructor.
  - injection E as <- <-. simpl. rewrite H. constructor.
  - destruct u as [|c1 u].
    + simpl in E. simpl.
      rewrite (nullable_complete H eq_refl).
      apply matches_alt_smart_r. apply IHmatches2. assumption.
    + simpl in E. injection E as -> <-. simpl.
      apply matches_alt_smart_l. apply matches_cat_smart.
      * apply IHmatches1. reflexivity.
      * assumption.
  - simpl. apply matches_alt_smart_l. apply IHmatches. assumption.
  - simpl. apply matches_alt_smart_r. apply IHmatches. assumption.
  - destruct u as [|c1 u].
    + simpl in E. apply IHmatches2. assumption.
    + simpl in E. injection E as -> <-. simpl.
      apply matches_cat_smart.
      * apply IHmatches1. reflexivity.
      * assumption.
Qed.

Lemma match_prefix_complete (w : string) :
  forall r rest,
    matches ic r w -> Re.match_prefix ic r (w ++ rest) = true.
Proof.
  induction w as [|c w IH]; intros r rest H.
  - simpl. destruct rest; simpl;
      rewrite (nullable_complete H eq_refl); reflexivity.
  - simpl. apply orb_true_iff. right.
    pose proof (deriv_complete H eq_refl) as Hd.
    pose proof (IH _ rest Hd) as Hm.
    destruct (Re.deriv ic c r); try assumption.
    inversion Hd.
Qed.

Lemma search_complete (r : Re.regex) (pre s : string) :
  Re.match_prefix ic r s = true -> Re.search ic r (pre ++ s) = true.
Proof.
  intros H. induction pre as [|c pre IH]; simpl.
  - destruct s; simpl; simpl in H; rewrite H; reflexivity.
  - rewrite IH. apply orb_true_r.
Qed.

Lemma matches_alternative (r a : Re.regex) (w : string) :
  In a (alternatives r) -> matches ic a w -> matches ic r w.
Proof.
  induction r; simpl; intros Hin Hm;
    try (destruct Hin as [<-|[]]; assumption).
  apply in_app_or in Hin. destruct Hin as [Hin|Hin].
  - apply matches_alt_l. auto.
  - apply matches_alt_r. auto.
Qed.

End RegexFacts.

Lemma literal_from_matches (t : string) :
  forall acc u w,
    matches true acc u -> Str.lower w = Str.lower t ->
    matches true (literal_from acc t) (u ++ w).
Proof.
  induction t as [|d t IH]; intros acc u w Hacc E.
  - destruct w; [|discriminate]. rewrite word_app_nil. assumption.
  - destruct w as [|c w]; [discriminate|].
    simpl in E. injection E as Ec Ew.
    change (u ++ String c w) with (u ++ (String c "" ++ w)).
    rewrite <- word_app_assoc. simpl. apply IH; [|assumption].
    apply matches_cat; [assumption|].
    constructor. simpl. rewrite Ec. apply Ascii.eqb_refl.
Qed.

Lemma literal_matches (t w : string) :
  Str.lower w = Str.lower t -> matches true (literal t) w.
Proof.
  destruct t as [|d t]; intros E.
  - destruct w; [|discriminate]. constructor.
  - destruct w as [|c w]; [discriminate|].
    simpl in E. injection E as Ec Ew.
    change (String c w) with (String c "" ++ w).
    apply literal_from_matches; [|assumption].
    constructor. simpl. rewrite Ec. apply Ascii.eqb_refl.
Qed.

Lemma exclude_words_compiled :
  Forall (fun t => In (literal t) (alternatives exclude_regex) /\
                   Str.lower t = t) exclude_words.
Proof.
  unfold exclude_words.
  repeat (apply Forall_cons;
          [split; [vm_compute; repeat (first [left; reflexivity | right])
                  | reflexivity]|]).
  apply Forall_nil.
Qed.

Lemma search_finds_word (t w pre post : string) :
  In t exclude_words -> Str.lower w = t ->
  exclude_regex_search (pre ++ w ++ post) = true.
Proof.
  intros Hin E.
  pose proof exclude_words_compiled as F.
  rewrite Forall_forall in F. destruct (F _ Hin) as [Halt Hlow].
  unfold exclude_regex_search.
  apply search_complete, match_prefix_complete.
  apply matches_alternative with (a := literal t); [assumption|].
  apply literal_matches. congruence.
Qed.

(** X22: A URL that contains one of the plain words of the exclusion list,
    spelled in any mix of upper and lower case, is excluded, whatever
    surrounds the word; the test comes before [urlparse], so this holds
    also for URLs that [urlparse] rejects. *)
Theorem url_with_excluded_word_is_excluded
  {lib : PyLib} (t w pre post : string) :
  In t exclude_words -> Str.lower w = t ->
  _should_exclude_image_url (pre ++ w ++ post) = Some true.
Proof.
  intros Hin E. unfold _should_exclude_image_url.
  rewrite (@search_finds_word t w pre post Hin E). reflexivity.
Qed.

Lemma url_with_excluded_word_is_excluded_witness :
  In "logo" exclude_words /\ Str.lower "LoGo" = "logo" /\
  @_should_exclude_image_url plain_lib
    ("https://cdn.example.com/site-" ++ "LoGo" ++ ".png") = Some true.
Proof.
  split; [simpl; tauto|]. split; [reflexivity|].
  apply (@url_with_excluded_word_is_excluded plain_lib
           "logo" "LoGo" "https://cdn.example.com/site-" ".png").
  - simpl. tauto.
  - reflexivity.
Defined.

(** ** Articles *)

Section RunFacts.

Variables A B : Type.

Lemma outcome_and_then (m : Run A) (f : A -> Run B) :
  outcome (and_then m f)
  = match outcome m with Some a => outcome (f a) | None => None end.
Proof.
  unfold outcome, and_then. destruct m as [[a|] t]; simpl; [|reflexivity].
  destruct (f a); reflexivity.
Qed.

Lemma steps_and_then (m : Run A) (f : A -> Run B) :
  steps (and_then m f)
  = (steps m ++ match outcome m with
                | Some a => steps (f a)
                | None => []
                end)%list.
Proof.
  unfold outcome, steps, and_then. destruct m as [[a|] t]; simpl.
  - destruct (f a); reflexivity.
  - rewrite app_nil_r. reflexivity.
Qed.

Lemma outcome_guarded (body handler : Run A) :
  outcome (guarded body handler)
  = match outcome body with Some a => Some a | None => outcome handler end.
Proof.
  unfold outcome, guarded. destruct body as [[a|] t]; simpl; [reflexivity|].
  destruct handler; reflexivity.
Qed.

Lemma steps_guarded (body handler : Run A) :
  steps (guarded body handler)
  = (steps body ++ match outcome body with
                   | Some _ => []
                   | None => steps handler
                   end)%list.
Proof.
  unfold outcome, steps, guarded. destruct body as [[a|] t]; simpl.
  - rewrite app_nil_r. reflexivity.
  - destruct handler; reflexivity.
Qed.

Lemma steps_lift (m : M A) : steps (lift m) = map Inner (trace m).
Proof. reflexivity. Qed.

End RunFacts.

Lemma saved_json_app (t t' : list Step) :
  saved_json (t ++ t') = (saved_json t ++ saved_json t')%list.
Proof.
  induction t as [|s t IH]; simpl; [reflexivity|].
  destruct s; simpl; rewrite IH; reflexivity.
Qed.

Lemma saved_json_inner (l : list Event) : saved_json (map Inner l) = [].
Proof. induction l; simpl; auto. Qed.

Lemma json_get_dict_put_same (key : string) (v : Json)
  (d : list (string * Json)) :
  json_get key (dict_put key v d) = v.
Proof.
  induction d as [|[k old] rest IH]; simpl.
  - rewrite String.eqb_refl. reflexivity.
  - destruct (String.eqb k key) eqn:E; simpl; rewrite E; auto.
Qed.

Lemma json_get_dict_put_other (key other : string) (v : Json)
  (d : list (string * Json)) :
  other <> key -> json_get other (dict_put key v d) = json_get other d.
Proof.
  intros Hne. induction d as [|[k old] rest IH]; simpl.
  - destruct (String.eqb_spec key other); [congruence|reflexivity].
  - destruct (String.eqb_spec k key) as [->|Hk]; simpl.
    + destruct (String.eqb_spec key other); [congruence|reflexivity].
    + rewrite IH. reflexivity.
Qed.

Lemma partial_json_app (t t' : list Step) :
  partial_json (t ++ t') = (partial_json t ++ partial_json t')%list.
Proof.
  induction t as [|s t IH]; simpl; [reflexivity|].
  destruct s; simpl; rewrite IH; reflexivity.
Qed.

Lemma partial_json_inner (l : list Event) : partial_json (map Inner l) = [].
Proof. induction l; simpl; auto. Qed.

Section Settling.

Variable Q : string -> Json -> Prop.
Variable P : string -> Prop.

Lemma settles_and_then (A : Type) (m : Run A) (f : A -> Run bool) :
  silent m ->
  (forall a, outcome m = Some a -> settles Q P (f a)) ->
  settles Q P (and_then m f).
Proof.
  unfold silent, settles. intros [Hs Hp] Hf.
  rewrite outcome_and_then, steps_and_then, saved_json_app, partial_json_app,
    Hs, Hp.
  simpl.
  destruct (outcome m) as [a|]; [apply Hf; reflexivity|].
  split; [reflexivity|left; reflexivity].
Qed.

Lemma settles_guarded (body : Run bool) (n : Notice) :
  settles Q P body ->
  settles Q P
    (guarded body (and_then (note (Failure n)) (fun _ => done false))).
Proof.
  unfold settles.
  rewrite outcome_guarded, steps_guarded, saved_json_app, partial_json_app.
  destruct (outcome body) as [[|]|]; simpl; intros H;
    rewrite !app_nil_r; exact H.
Qed.

Lemma silent_lift (A : Type) (m : M A) : silent (lift m).
Proof.
  unfold silent. rewrite steps_lift.
  split; [apply saved_json_inner|apply partial_json_inner].
Qed.

End Settling.

Section ArticleFacts.

Context {lib : PyLib}.
Variable W : World.
Variable F : Files.

Lemma silent_scrape (url : Json) : silent (scrape W F url).
Proof.
  unfold silent. destruct url; simpl;
    try (destruct (scrape_other F _) as [best log];
         split; [apply saved_json_inner|apply partial_json_inner]).
  split; [apply saved_json_inner|apply partial_json_inner].
Qed.

Lemma settles_save (Q : string -> Json -> Prop) (folder : string)
  (fields : list (string * Json)) (image_info : Json) (k : Run bool) :
  outcome k = Some true -> silent k ->
  Q (joinpath F folder "article_data.json")
    (JDict (dict_put "processing_timestamp" (time_time F)
              (dict_put "image" image_info fields))) ->
  settles Q (fun path => exists data, Q path data /\ json_dump F path data = false)
    (and_then (save_article F folder fields image_info) (fun _ => k)).
Proof.
  unfold silent, settles. intros Hk [Hs Hp] HQ.
  rewrite outcome_and_then, steps_and_then, saved_json_app, partial_json_app.
  unfold save_article.
  destruct (json_dump F _ _) eqn:Hdump; simpl.
  - rewrite Hk, Hs, Hp. split; [reflexivity|].
    eexists. eexists. split; [reflexivity|exact HQ].
  - destruct (json_dump_opened F _ _); simpl.
    + split; [reflexivity|]. right. eexists. split; [reflexivity|].
      eexists. split; [exact HQ|exact Hdump].
    + split; [reflexivity|left; reflexivity].
Qed.

Lemma process_article_settles (json_file_path : string) :
  settles (article_record_of W F json_file_path)
          (fun path =>
             exists data,
               article_record_of W F json_file_path path data /\
               json_dump F path data = false)
          (process_article W F json_file_path).
Proof.
  assert (Hquiet : forall (Q : string -> Json -> Prop) (P : string -> Prop)
                          (m : Run bool),
             outcome m <> Some true -> silent m -> settles Q P m).
  { intros Q P m Ho [E1 E2]. unfold settles.
    destruct (outcome m) as [[|]|]; [congruence| |]; rewrite E1, E2; auto. }
  unfold process_article. apply settles_guarded.
  apply settles_and_then; [split; reflexivity|]. intros doc Hdoc.
  change (json_load F json_file_path = Some doc) in Hdoc.
  apply settles_and_then; [destruct doc; split; reflexivity|]. intros fields Hf.
  destruct doc as [| | | | |fields0]; try discriminate.
  injection Hf as ->. cbv zeta.
  destruct (json_truthy (json_get "url" fields)) eqn:Hu;
    [|apply Hquiet; [discriminate|split; reflexivity]].
  cbn [negb].
  apply settles_and_then; [split; reflexivity|]. intros _ _.
  apply settles_and_then;
    [destruct (json_get_default "title" (JStr "Untitled") fields);
     split; reflexivity|].
  intros folder_name Hfn.
  destruct (json_get_default "title" (JStr "Untitled") fields)
    as [| | |s| |] eqn:Ht; try discriminate.
  injection Hfn as <-.
  apply settles_and_then; [destruct (mkdir F _); split; reflexivity|].
  intros _ _.
  apply settles_and_then; [apply silent_scrape|]. intros best Hbest.
  destruct best as [best|].
  - apply settles_and_then; [apply silent_lift|]. intros ok Hok.
    apply settles_and_then.
    { destruct ok; [|split; reflexivity].
      unfold silent. destruct (relative_to F _ _); split; reflexivity. }
    intros image_info Hinfo.
    apply settles_save; [reflexivity|split; reflexivity|].
    exists fields, s, image_info.
    repeat (split; [first [assumption|reflexivity]|]).
    destruct ok.
    + right. destruct (relative_to F _ _) as [local_path|];
        [|discriminate].
      injection Hinfo as <-. exists best, local_path.
      split; [exact Hbest|reflexivity].
    + left. injection Hinfo as <-. reflexivity.
  - apply settles_and_then; [split; reflexivity|]. intros _ _.
    apply settles_save; [reflexivity|split; reflexivity|].
    exists fields, s, JNull.
    repeat (split; [first [assumption|reflexivity]|]).
    left. reflexivity.
Qed.

Lemma scrape_returns (url : Json) :
  exists best log, scrape W F url = (Some best, map Inner log).
Proof.
  destruct url; simpl;
    try (destruct (scrape_other F _) as [best log]; exists best, log;
         reflexivity).
  unfold lift.
  pose proof (scrape_article_images_result W s) as H.
  destruct (scrape_article_images W s) as [r t]. simpl in *. subst r.
  eexists. exists t. reflexivity.
Qed.

Lemma download_image_returns (img_url output_path : string) :
  exists ok log,
    lift (download_image W img_url output_path) = (Some ok, map Inner log).
Proof.
  unfold lift, download_image, try_except, bind, call, ret, raise, emit.
  destruct (session_get W img_url) as [response|];
    [|eexists; eexists; reflexivity].
  destruct (status_ok response); [|eexists; eexists; reflexivity].
  destruct (with_suffix output_path ".jpg") as [saved|];
    [|eexists; eexists; reflexivity].
  destruct (pil_open (content response)) as [img|];
    [|eexists; eexists; reflexivity].
  destruct (convert_for_jpeg img) as [out|];
    [|eexists; eexists; reflexivity].
  destruct (jpeg_encode out 90 true) as [data|];
    eexists; eexists; reflexivity.
Qed.

Lemma process_article_returns (json_file_path : string) :
  exists b, outcome (process_article W F json_file_path) = Some b.
Proof.
  unfold process_article. rewrite outcome_guarded.
  match goal with
  | |- context [match ?o with _ => _ end] => destruct o as [b|]
  end; eexists; reflexivity.
Qed.

End ArticleFacts.

(** X23: [process_article] never raises, and it returns [True] exactly
    when it completed the dump of the record of the article: a run that
    returns [True] completed one JSON record and left no file partly
    written; a run that returns [False] completed none, and the one file
    it can leave behind empty or partly written is the record of the
    article, when the dump of that record failed after the file was
    opened. *)
Theorem process_article_true_iff_saved (lib : PyLib) (W : World) (F : Files)
  (json_file_path : string) :
  (outcome (process_article W F json_file_path) = Some true /\
   partial_json (steps (process_article W F json_file_path)) = [] /\
   exists path data,
     saved_json (steps (process_article W F json_file_path)) = [(path, data)])
  \/ (outcome (process_article W F json_file_path) = Some false /\
      saved_json (steps (process_article W F json_file_path)) = [] /\
      (partial_json (steps (process_article W F json_file_path)) = [] \/
       exists path data,
         partial_json (steps (process_article W F json_file_path)) = [path] /\
         article_record_of W F json_file_path path data /\
         json_dump F path data = false)).
Proof.
  pose proof (process_article_settles W F json_file_path) as H.
  destruct (process_article_returns W F json_file_path) as [b Hb].
  unfold settles in H. rewrite Hb in H. destruct b.
  - left. split; [exact Hb|]. destruct H as [Hp [path [data [H _]]]].
    split; [exact Hp|]. exists path, data. exact H.
  - right. split; [exact Hb|]. destruct H as [Hs Hp].
    split; [exact Hs|]. destruct Hp as [Hp|[path [Hp [data [HQ Hd]]]]].
    + left. exact Hp.
    + right. exists path, data. auto.
Qed.

(** On a full disk the run returns [False] and leaves the record of the
    article behind, opened and not written out. *)
Lemma failed_dump_leaves_partial_file :
  process_article (lib := plain_lib) offline
    (full_disk (example_article (JStr article_url))) "story.json"
  = (Some false,
     [ Info (Processing (JStr "A  story: part 1"));
       DirEnsured "out/A story_ part 1";
       Inner (LogInfo (Trying "trafilatura" article_url));
       Inner (LogWarning (MethodFailed "trafilatura" article_url));
       Inner (LogInfo (Trying "newspaper3k" article_url));
       Inner (LogWarning (MethodFailed "newspaper3k" article_url));
       Inner (LogInfo (Trying "BeautifulSoup" article_url));
       Inner (LogWarning (MethodFailed "BeautifulSoup" article_url));
       Inner (LogWarning (NoImagesFound article_url));
       Warning (NoSuitableImage (JStr "A  story: part 1"));
       JsonLeftPartial "out/A story_ part 1/article_data.json";
       Failure (FailedToProcess "story.json") ]).
Proof. vm_compute. reflexivity. Qed.

(** X24: an article without a usable address is refused at once.  When the
    file holds an object whose [url] is missing, null, empty or otherwise
    false, [process_article] logs one error and returns [False]; no folder
    is made, no request is sent and nothing is saved. *)
Theorem article_without_url_is_refused (lib : PyLib) (W : World) (F : Files)
  (json_file_path : string) (fields : list (string * Json)) :
  json_load F json_file_path = Some (JDict fields) ->
  json_truthy (json_get "url" fields) = false ->
  process_article W F json_file_path
  = (Some false, [Failure (NoUrlFound json_file_path)]).
Proof.
  intros Hl Hu. unfold process_article. rewrite Hl. simpl. rewrite Hu.
  reflexivity.
Qed.

Lemma article_without_url_is_refused_witness :
  process_article (lib := plain_lib) offline
    (example_files (example_article (JStr ""))) "story.json"
  = (Some false, [Failure (NoUrlFound "story.json")]).
Proof.
  apply (@article_without_url_is_refused plain_lib offline
           (example_files (example_article (JStr ""))) "story.json"
           [("title", JStr "A  story: part 1"); ("url", JStr "")]).
  - reflexivity.
  - reflexivity.
Defined.

Lemma article_record_fields (lib : PyLib) (W : World) (F : Files)
  (json_file_path path : string) (data : Json) :
  article_record_of W F json_file_path path data ->
  exists fields s saved,
    json_load F json_file_path = Some (JDict fields) /\
    json_get_default "title" (JStr "Untitled") fields = JStr s /\
    path = joinpath F (joinpath F (output_folder F) (sanitize_filename s))
             "article_data.json" /\
    data = JDict saved /\
    (forall key, key <> "image" -> key <> "processing_timestamp" ->
                 json_get key saved = json_get key fields) /\
    json_get "processing_timestamp" saved = time_time F /\
    (json_get "image" saved = JNull \/
     exists best local_path,
       outcome (scrape W F (json_get "url" fields)) = Some (Some best) /\
       json_get "image" saved = image_info_of best local_path /\
       (forall u, json_get "url" fields = JStr u ->
                  40 <= cand_score best <= 125)).
Proof.
  intros [fields [s [image_info [Hl [Ht [Hu [Hp [Hd Hi]]]]]]]].
  exists fields, s,
    (dict_put "processing_timestamp" (time_time F)
       (dict_put "image" image_info fields)).
  assert (Himg : json_get "image"
                   (dict_put "processing_timestamp" (time_time F)
                      (dict_put "image" image_info fields)) = image_info).
  { rewrite json_get_dict_put_other by discriminate.
    apply json_get_dict_put_same. }
  repeat (split; [first [assumption|reflexivity]|]).
  split; [|split].
  - intros key H1 H2. rewrite !json_get_dict_put_other by assumption.
    reflexivity.
  - apply json_get_dict_put_same.
  - rewrite Himg. destruct Hi as [->|[best [local_path [Hb ->]]]];
      [left; reflexivity|].
    right. exists best, local_path.
    split; [exact Hb|]. split; [reflexivity|].
    intros u Eu. rewrite Eu in Hb.
    change (result (scrape_article_images W u) = Some (Some best)) in Hb.
    apply scraped_image_facts in Hb. lia.
Qed.

(** X25: what a successful run saves.  The one file saved is
    [article_data.json] in the folder named after the sanitised title
    inside the output folder; it holds the object that was read, every
    other field as it was, with [processing_timestamp] set to the clock
    and [image] set to null or to the description of the image the
    scraper returned, whose score, for an address that is a string, is
    between 40 and 125. *)
Theorem saved_record_keeps_the_article (lib : PyLib) (W : World) (F : Files)
  (json_file_path : string) :
  outcome (process_article W F json_file_path) = Some true ->
  exists path data fields s saved,
    saved_json (steps (process_article W F json_file_path)) = [(path, data)] /\
    json_load F json_file_path = Some (JDict fields) /\
    json_get_default "title" (JStr "Untitled") fields = JStr s /\
    path = joinpath F (joinpath F (output_folder F) (sanitize_filename s))
             "article_data.json" /\
    data = JDict saved /\
    (forall key, key <> "image" -> key <> "processing_timestamp" ->
                 json_get key saved = json_get key fields) /\
    json_get "processing_timestamp" saved = time_time F /\
    (json_get "image" saved = JNull \/
     exists best local_path,
       outcome (scrape W F (json_get "url" fields)) = Some (Some best) /\
       json_get "image" saved = image_info_of best local_path /\
       (forall u, json_get "url" fields = JStr u ->
                  40 <= cand_score best <= 125)).
Proof.
  intros Hb. pose proof (process_article_settles W F json_file_path) as H.
  unfold settles in H. rewrite Hb in H.
  destruct H as [_ [path [data [Hs HQ]]]].
  apply article_record_fields in HQ.
  destruct HQ as [fields [s [saved HQ]]].
  exists path, data, fields, s, saved. split; [exact Hs|exact HQ].
Qed.

Lemma saved_record_keeps_the_article_witness :
  exists path data,
    saved_json (steps (process_article (lib := plain_lib) (soup_world og_soup)
                         (example_files (example_article (JStr article_url)))
                         "story.json")) = [(path, data)] /\
    path = "out/A story_ part 1/article_data.json".
Proof.
  destruct (@saved_record_keeps_the_article plain_lib (soup_world og_soup)
              (example_files (example_article (JStr article_url)))
              "story.json" eq_refl)
    as [path [data [fields [s [saved [Hs [Hl [Ht [Hp _]]]]]]]]].
  exists path, data. split; [exact Hs|].
  injection Hl as <-. injection Ht as <-. exact Hp.
Defined.

Section Success.

Context {lib : PyLib}.
Variable W : World.
Variable F : Files.

Lemma outcome_and_then_some (A B : Type) (m : Run A) (f : A -> Run B) (a : A) :
  outcome m = Some a -> outcome (and_then m f) = outcome (f a).
Proof. intros H. rewrite outcome_and_then, H. reflexivity. Qed.

Lemma outcome_save_article (folder : string) (fields : list (string * Json))
  (image_info : Json) :
  (forall data, json_dump F (joinpath F folder "article_data.json") data = true) ->
  outcome (save_article F folder fields image_info) = Some tt.
Proof. intros H. unfold save_article. rewrite H. reflexivity. Qed.

End Success.

(** X26: an article is processed successfully whether or not an image is
    found.  When the file holds an object with a true [url] and a title
    that is a string (or no title), and the folder, the relative path and
    the JSON file can be written, [process_article] returns [True]
    whatever the network answers: no image selected and a failed download
    both end in a saved record and [True]. *)
Theorem process_article_needs_no_image (lib : PyLib) (W : World) (F : Files)
  (json_file_path : string) (fields : list (string * Json)) (s : string) :
  json_load F json_file_path = Some (JDict fields) ->
  json_get_default "title" (JStr "Untitled") fields = JStr s ->
  json_truthy (json_get "url" fields) = true ->
  mkdir F (joinpath F (output_folder F) (sanitize_filename s)) = true ->
  (forall data,
     json_dump F (joinpath F (joinpath F (output_folder F)
                                (sanitize_filename s))
                    "article_data.json") data = true) ->
  relative_to F (joinpath F (joinpath F (output_folder F)
                               (sanitize_filename s)) "image.jpg")
    (output_folder F) <> None ->
  outcome (process_article W F json_file_path) = Some true.
Proof.
  intros Hl Ht Hu Hm Hd Hr. unfold process_article.
  rewrite outcome_guarded. rewrite Hl.
  erewrite outcome_and_then_some by reflexivity.
  erewrite outcome_and_then_some by reflexivity.
  cbv zeta. rewrite Hu, Ht. cbn [negb].
  erewrite outcome_and_then_some by reflexivity.
  erewrite outcome_and_then_some by reflexivity.
  rewrite Hm.
  erewrite outcome_and_then_some by reflexivity.
  destruct (scrape_returns W F (json_get "url" fields)) as [best [log Hs]].
  erewrite outcome_and_then_some by (rewrite Hs; reflexivity).
  destruct best as [best|].
  - destruct (download_image_returns W (cand_url best)
                (joinpath F (joinpath F (output_folder F)
                               (sanitize_filename s)) "image"))
      as [ok [dlog Hdl]].
    erewrite outcome_and_then_some by (rewrite Hdl; reflexivity).
    destruct ok.
    + destruct (relative_to F _ _) as [local_path|]; [|congruence].
      erewrite outcome_and_then_some by reflexivity.
      erewrite outcome_and_then_some by (apply outcome_save_article; exact Hd).
      reflexivity.
    + erewrite outcome_and_then_some by reflexivity.
      erewrite outcome_and_then_some by (apply outcome_save_article; exact Hd).
      reflexivity.
  - erewrite outcome_and_then_some by reflexivity.
    erewrite outcome_and_then_some by (apply outcome_save_article; exact Hd).
    reflexivity.
Qed.

Lemma process_article_needs_no_image_witness :
  outcome (process_article (lib := plain_lib) offline
             (example_files (example_article (JStr article_url)))
             "story.json") = Some true.
Proof.
  apply (@process_article_needs_no_image plain_lib offline
           (example_files (example_article (JStr article_url))) "story.json"
           [("title", JStr "A  story: part 1"); ("url", JStr article_url)]
           "A  story: part 1").
  - reflexivity.
  - reflexivity.
  - reflexivity.
  - reflexivity.
  - intros data. reflexivity.
  - simpl. discriminate.
Defined.

Section Counting.

Context {lib : PyLib}.
Variable W : World.
Variable F : Files.

Lemma count_article_step (successful failed : Z) (json_file : string) :
  count_article W F (successful, failed) json_file
  = (Some (if processed W F json_file
           then (successful + 1, failed) else (successful, failed + 1)),
     steps (process_article W F json_file)).
Proof.
  unfold count_article, processed.
  destruct (process_article_returns W F json_file) as [b Hb].
  destruct (process_article W F json_file) as [r t]. simpl in *. subst r.
  destruct b; simpl; rewrite app_nil_r; reflexivity.
Qed.

Lemma for_all_count (json_files : list string) :
  forall successful failed,
    for_all json_files (count_article W F) (successful, failed)
    = (Some (successful
             + Z.of_nat (length (filter (processed W F) json_files)),
             failed
             + Z.of_nat (length (filter (fun f => negb (processed W F f))
                                   json_files))),
       flat_map (fun f => steps (process_article W F f)) json_files).
Proof.
  induction json_files as [|x rest IH]; intros successful failed.
  - simpl. unfold done. rewrite !Z.add_0_r. reflexivity.
  - cbn [for_all]. rewrite count_article_step. unfold and_then.
    destruct (processed W F x) eqn:E; rewrite IH; cbn [filter flat_map];
      rewrite E; cbn [negb length]; do 3 f_equal; lia.
Qed.

Lemma filter_split_length (A : Type) (p : A -> bool) (l : list A) :
  Z.of_nat (length (filter p l))
  + Z.of_nat (length (filter (fun x => negb (p x)) l))
  = Z.of_nat (length l).
Proof.
  induction l as [|x l IH]; [reflexivity|].
  cbn [filter]. destruct (p x); cbn [negb length];
    rewrite ?Nat2Z.inj_succ; lia.
Qed.

End Counting.

(** X27: the counters of [run_pipeline] add up.  In a run that is not
    interrupted, [total] is the number of files found, [successful] the
    number of files for which [process_article] returned [True], and
    [failed] all the others; the log is the line that announces the files,
    the logs of the articles in the order of the files, and the closing
    line: the branch for an unexpected error is never taken. *)
Theorem run_pipeline_counters_add_up (lib : PyLib) (W : World) (F : Files)
  (json_files : list string) :
  glob_json F = Some json_files ->
  exists stats,
    outcome (run_pipeline W F) = Some stats /\
    total stats = Z.of_nat (length json_files) /\
    successful stats
    = Z.of_nat (length (filter (processed W F) json_files)) /\
    successful stats + failed stats = total stats /\
    (json_files <> [] ->
     steps (run_pipeline W F)
     = (Info (FoundJsonFiles (total stats))
        :: flat_map (fun f => steps (process_article W F f)) json_files
        ++ [Info (PipelineCompleted (successful stats) (total stats))])%list).
Proof.
  intros Hg. unfold run_pipeline. rewrite Hg.
  destruct json_files as [|x rest].
  - exists (mk_Stats 0 0 0). simpl. repeat split; congruence.
  - assert (E : run_pipeline W F
               = (Some (mk_Stats (Z.of_nat (length (x :: rest)))
                          (Z.of_nat (length (filter (processed W F) (x :: rest))))
                          (Z.of_nat (length (filter (fun f => negb (processed W F f))
                                               (x :: rest))))),
                  (Info (FoundJsonFiles (Z.of_nat (length (x :: rest))))
                   :: flat_map (fun f => steps (process_article W F f)) (x :: rest)
                   ++ [Info (PipelineCompleted
                               (Z.of_nat (length (filter (processed W F) (x :: rest))))
                               (Z.of_nat (length (x :: rest))))])%list)).
    { unfold run_pipeline. rewrite Hg.
      unfold attempt, and_then, note, done. rewrite for_all_count.
      cbn [fst snd]. rewrite !Z.add_0_l. rewrite app_nil_r. reflexivity. }
    unfold run_pipeline in E. rewrite Hg in E. rewrite E.
    eexists. split; [reflexivity|]. cbn [total successful failed steps snd].
    split; [reflexivity|]. split; [reflexivity|].
    split; [apply filter_split_length|]. intros _. reflexivity.
Qed.

Lemma run_pipeline_counters_add_up_witness :
  exists stats,
    outcome (run_pipeline (lib := plain_lib) offline
               (example_files (example_article (JStr article_url))))
    = Some stats /\
    total stats = 1 /\ successful stats = 1 /\ failed stats = 0.
Proof.
  destruct (@run_pipeline_counters_add_up plain_lib offline
              (example_files (example_article (JStr article_url)))
              ["story.json"] eq_refl)
    as [stats [Ho [Ht [Hs [Ha _]]]]].
  assert (T : total stats = 1) by exact Ht.
  assert (E : successful stats = 1) by (rewrite Hs; vm_compute; reflexivity).
  exists stats. split; [exact Ho|]. split; [exact T|].
  split; [exact E|]. rewrite E, T in Ha. lia.
Defined.
